(** * Non-covalent interaction engine of mol* (mol-model-props/computed/interactions)

    A shallow embedding of the feature store and builder ([features.ts]), the
    halogen-bond providers and tester ([halogen-bonds.ts]), the intra-unit and
    inter-unit link builders ([builder.ts]) and the two pair-scanning loops
    ([links.ts]), followed by the properties of the specification that concern
    them.

    Conventions.
    - A JavaScript [number] that holds a coordinate, an angle or a distance is a
      rational [Q]: rounding of doubles and of [Float32Array] slots is not
      modelled.  Indices and counters are [nat]; the wrap-around of
      [Int32Array]/[Uint32Array] slots (beyond 2^31 entries) is not modelled.
    - A read [a[i]] that may miss is a stdpp lookup [a !! i : option _], where
      [None] is JavaScript's [undefined]; a write to a typed array beyond its
      end is dropped, which is what stdpp's [<[i:=v]>] does.
    - A typed array is the list of its slots.  The arrays [getFeatures]
      returns can be longer than their content: unused slots hold zero.
    - Mutation is explicit state passing: an operation on a builder takes the
      builder and returns the new one.  Where objects are shared (the maps and
      arrays a [Pair] of the inter-unit builder keeps), they live in a store
      and are referred to by their position. *)

From Stdlib Require Import QArith Qabs Lia Lqa.
From stdpp Require Import base list strings gmap.

(** ** Numbers *)

#[global] Instance Q_inhabited : Inhabited Q := populate 0%Q.

(** [a < b] on numbers, as a boolean. *)
Definition Qltb (a b : Q) : bool := negb (Qle_bool b a).

(** [Math.max(...l)]; [None] stands for [-Infinity], the value on no argument. *)
Fixpoint Math_max (l : list Q) : option Q :=
  match l with
  | [] => None
  | q :: l' =>
      match Math_max l' with
      | None => Some q
      | Some m => Some (if Qle_bool q m then m else q)
      end
  end.

(** A call that returns or throws. *)
Inductive Result (A : Type) : Type :=
| Ok (a : A)
| Throw (message : string).
Arguments Ok {A} a.
Arguments Throw {A} message.

(** ** Enumerations of [common.ts] *)

Module FeatureType.
(** Modelled from the spec: the [FeatureType] enum of [common.ts], whose
    declaration is not among the sources; the members are those the data model
    of the specification lists, and [None], the member of code 0, which the
    unused slots of a [Uint8Array] hold. *)
Inductive t : Set :=
| None
| HydrogenDonor | HydrogenAcceptor
| HalogenDonor | HalogenAcceptor
| NegativeCharge | PositiveCharge
| AromaticRing | HydrophobicAtom
| WeakHydrogenDonor | WeakHydrogenAcceptor
| IonicTypePartner.

#[global] Instance eq_dec : EqDecision t.
Proof. solve_decision. Defined.
End FeatureType.

Module FeatureGroup.
(** Modelled from the spec: the [FeatureGroup] enum of [common.ts] ("secondary
    classifier bitmask"), kept as its numeric code; [None] is the code 0. *)
Definition t : Set := N.
Definition None : t := 0%N.
End FeatureGroup.

Module InteractionType.
(** The members are those [typeColor] of the interaction-type colour theme
    switches over. *)
Inductive t : Set :=
| Unknown
| HydrogenBond | WaterHydrogenBond | BackboneHydrogenBond
| Hydrophobic | HalogenBond | IonicInteraction | MetalCoordination
| CationPi | PiStacking | WeakHydrogenBond.

#[global] Instance eq_dec : EqDecision t.
Proof. solve_decision. Defined.

(** Modelled from the spec: the truth value of [if (type)].  The numeric codes
    are in [common.ts], not among the sources; [Unknown] is taken as the zero
    member, every other member as non-zero. *)
Definition truthy (type : t) : bool :=
  match type with
  | Unknown => false
  | _ => true
  end.
End InteractionType.

(** ** The structure layer, as far as the engine reads it *)

(** [ElementSymbol] is a branded string; [Elements] names the symbols used. *)
Definition ElementSymbol : Set := string.

Module Elements.
Definition C : ElementSymbol := "C".
Definition N : ElementSymbol := "N".
Definition O : ElementSymbol := "O".
Definition P : ElementSymbol := "P".
Definition S : ElementSymbol := "S".
Definition CL : ElementSymbol := "CL".
Definition BR : ElementSymbol := "BR".
Definition I : ElementSymbol := "I".
Definition AT : ElementSymbol := "AT".
End Elements.

(** [array.includes(e)] on element symbols. *)
Definition includes (l : list ElementSymbol) (e : ElementSymbol) : bool :=
  bool_decide (e ∈ l).

Module Unit.
(** [Unit.Atomic]: [elements] are the unit's atoms (indices into the model),
    [conformation_x/y/z] the columns [unit.model.atomicConformation.x/y/z]
    and [residueIndex] the residue of each atom of the model. *)
Record t : Type := {
  id : nat;
  elements : list nat;
  conformation_x : nat → Q;
  conformation_y : nat → Q;
  conformation_z : nat → Q;
  residueIndex : list nat
}.
End Unit.

Record ValenceModel : Type := { idealGeometry : list Z }.

(** [ValenceModelProvider.getValue(structure).value] is [valenceModel]: a
    [Map<number, ValenceModel>] keyed by unit id, or [undefined]. *)
Record Structure : Type := {
  units : list Unit.t;
  valenceModel : option (gmap nat ValenceModel)
}.

(** The object [GridLookup3D(...)] returns, represented by its method
    [find(x, y, z, radius)]: the pairs [(indices[r], squaredDistances[r])] for
    [r < count].  The radius is [None] for [-Infinity]. *)
Definition Lookup3D : Type := Q → Q → Q → option Q → list (nat * Q).

(** The collaborators whose code is outside the sources: [typeSymbol],
    [altLoc] and [eachBondedAtom] of [chemistry/util] (the latter as the list
    of atoms it passes to its callback, in call order), [calcAngles] of
    [chemistry/geometry], [degToRad] of [mol-math/misc], and the constructor
    [GridLookup3D] applied to the centre columns and [OrderedSet.ofBounds(0, count)]. *)
Class Collaborators : Type := {
  typeSymbol : Unit.t → nat → ElementSymbol;
  altLoc : Unit.t → option nat → string;
  eachBondedAtom : Structure → Unit.t → nat → list (Unit.t * nat);
  calcAngles : Structure → Unit.t → option nat → Unit.t → option nat → list Q;
  degToRad : Q → Q;
  GridLookup3D : list Q → list Q → list Q → nat → Lookup3D
}.

(** ** [features.ts]: the feature store *)

Module Features.

(** [Features.ElementsIndex], both columns [Int32Array]s. *)
Record ElementsIndex : Type := {
  indices : list nat;
  index_offsets : list nat
}.

(** [Features.Data]. *)
Record Data : Type := {
  count : nat;
  x : list Q;
  y : list Q;
  z : list Q;
  types : list FeatureType.t;
  groups : list FeatureGroup.t;
  offsets : list nat;
  members : list nat
}.

(** One step of the fill loop of [createElementsIndex], for the member slot [j]
    of feature [i]; the state is [(indices, bucketFill)].  When [members[j]],
    [offsets[a]] or [bucketFill[a]] is undefined the index [oa] is [NaN] and
    neither typed array changes. *)
Definition fillMember (members elementOffsets : list nat) (i j : nat)
    (st : list nat * list nat) : list nat * list nat :=
  let '(indices, bucketFill) := st in
  match members !! j with
  | Some a =>
      match elementOffsets !! a, bucketFill !! a with
      | Some o, Some f => (<[o + f := i]> indices, <[a := f + 1]> bucketFill)
      | _, _ => (indices, bucketFill)
      end
  | None => (indices, bucketFill)
  end.

(** The inner loop [for (j = featureOffsets[i], jl = featureOffsets[i + 1]; j < jl; ++j)];
    it does not run when a bound is undefined. *)
Definition fillFeature (members featureOffsets elementOffsets : list nat) (i : nat)
    (st : list nat * list nat) : list nat * list nat :=
  match featureOffsets !! i, featureOffsets !! (i + 1) with
  | Some j0, Some jl => fold_left (λ st j, fillMember members elementOffsets i j st) (seq j0 (jl - j0)) st
  | _, _ => st
  end.

(** [++bucketSizes[members[i]]]. *)
Definition countMember (members : list nat) (bucketSizes : list nat) (i : nat) : list nat :=
  match members !! i with
  | Some a =>
      match bucketSizes !! a with
      | Some n => <[a := n + 1]> bucketSizes
      | None => bucketSizes
      end
  | None => bucketSizes
  end.

(** [Features.createElementsIndex(data, elementsCount)]. *)
Definition createElementsIndex (data : Data) (elementsCount : nat) : ElementsIndex :=
  let offsets0 := replicate (elementsCount + 1) 0 in
  let bucketFill := replicate elementsCount 0 in
  let bucketSizes0 := replicate elementsCount 0 in
  (* for (let i = 0; i < count; ++i) ++bucketSizes[members[i]] *)
  let bucketSizes := fold_left (countMember (members data)) (seq 0 (count data)) bucketSizes0 in
  (* for (let i = 0; i < elementsCount; i++) { offsets[i] = offset; offset += bucketSizes[i] } *)
  let '(offsets1, offset) :=
    fold_left (λ '(offs, offset) i, (<[i := offset]> offs, offset + bucketSizes !!! i))
              (seq 0 elementsCount) (offsets0, 0) in
  let offsets2 := <[elementsCount := offset]> offsets1 in
  let indices0 := replicate offset 0 in
  let '(indices1, _) :=
    fold_left (λ st i, fillFeature (members data) (offsets data) offsets2 i st)
              (seq 0 (count data)) (indices0, bucketFill) in
  {| indices := indices1; index_offsets := offsets2 |}.

(** The [Features] value: the data, and the two lazily computed fields with
    the cell each getter caches its result in. *)
Record t : Type := {
  data : Data;
  elementsCount : nat;
  lookup3d_cell : option Lookup3D;
  elementsIndex_cell : option ElementsIndex
}.

(** [Features.create(elementsCount, data)]. *)
Definition create (elementsCount : nat) (data : Data) : t :=
  {| data := data; elementsCount := elementsCount;
     lookup3d_cell := None; elementsIndex_cell := None |}.

(** The getter [lookup3d]: [lookup3d || (lookup3d = GridLookup3D(...))]. *)
Definition lookup3d `{Collaborators} (f : t) : Lookup3D * t :=
  match lookup3d_cell f with
  | Some l => (l, f)
  | None =>
      let l := GridLookup3D (x (data f)) (y (data f)) (z (data f)) (count (data f)) in
      (l, {| data := data f; elementsCount := elementsCount f;
             lookup3d_cell := Some l; elementsIndex_cell := elementsIndex_cell f |})
  end.

(** The getter [elementsIndex]. *)
Definition elementsIndex (f : t) : ElementsIndex * t :=
  match elementsIndex_cell f with
  | Some e => (e, f)
  | None =>
      let e := createElementsIndex (data f) (elementsCount f) in
      (e, {| data := data f; elementsCount := elementsCount f;
             lookup3d_cell := lookup3d_cell f; elementsIndex_cell := Some e |})
  end.

(** [Features.Info]; [feature] is unset ([undefined]) until a scanning loop
    assigns it. *)
Record Info : Type := {
  info_unit : Unit.t;
  info_types : list FeatureType.t;
  info_feature : option nat;
  info_members : list nat;
  info_offsets : list nat;
  info_idealGeometry : list Z
}.

(** [infoA.feature = i]. *)
Definition setFeature (info : Info) (i : nat) : Info :=
  {| info_unit := info_unit info; info_types := info_types info;
     info_feature := Some i; info_members := info_members info;
     info_offsets := info_offsets info; info_idealGeometry := info_idealGeometry info |}.

(** The function [Features.Info(structure, unit, features)]. *)
Definition Info_of (structure : Structure) (unit : Unit.t) (features : t) : Result Info :=
  match valenceModel structure with
  | None => Throw "valence model required"
  | Some vm =>
      match vm !! Unit.id unit with
      | None => Throw "valence model required"
      | Some m =>
          Ok {| info_unit := unit; info_types := types (data features);
                info_feature := None; info_members := members (data features);
                info_offsets := offsets (data features);
                info_idealGeometry := idealGeometry m |}
      end
  end.

End Features.

(** ** [features.ts]: the builder *)

Module FeaturesBuilder.

(** The closure variable [state]. *)
Record State : Type := {
  state_x : Q;
  state_y : Q;
  state_z : Q;
  state_offset : nat;
  state_count : nat
}.

(** The seven [ChunkedArray]s and [state].  Modelled from the spec:
    [ChunkedArray] ([mol-data/util], not among the sources) is a growable
    buffer: [ChunkedArray.add] appends one element and [elementCount] is the
    number of elements added; each field below is the list of the elements
    added.  The first chunk of every buffer has [initialCount] slots. *)
Record t : Type := {
  xCenters : list Q;
  yCenters : list Q;
  zCenters : list Q;
  types : list FeatureType.t;
  groups : list FeatureGroup.t;
  offsets : list nat;
  members : list nat;
  state : State;
  initialCount : nat
}.

(** Modelled from the spec: [ChunkedArray.compact(array, doNotResizeSingleton)]
    of [mol-data/util], not among the sources, "compacts growable buffers to
    exact size": the typed array of the elements added.  With
    [doNotResizeSingleton], which [getFeatures] passes as [true], a buffer that
    still fits its first chunk of [initialCount] slots is not resized: the
    call gives that chunk as it is, the content followed by the unused slots,
    which hold the [zero] of the element type. *)
Definition compact {A} (zero : A) (initialCount : nat) (content : list A)
    (doNotResizeSingleton : bool) : list A :=
  if doNotResizeSingleton && (length content <=? initialCount)
  then content ++ replicate (initialCount - length content) zero
  else content.

(** [FeaturesBuilder.create(initialCount = 2048, chunkSize = 1024)]:
    [initialCount] is the size of the first chunk of each buffer, [chunkSize]
    that of the chunks added later, which no operation below depends on.  The
    optional third argument [features] is not modelled. *)
Definition create (initialCount chunkSize : nat) : t :=
  {| xCenters := []; yCenters := []; zCenters := []; types := []; groups := [];
     offsets := []; members := [];
     state := {| state_x := 0%Q; state_y := 0%Q; state_z := 0%Q; state_offset := 0; state_count := 0 |};
     initialCount := initialCount |}.

(** [clearState()]. *)
Definition clearState (b : t) : t :=
  {| xCenters := xCenters b; yCenters := yCenters b; zCenters := zCenters b;
     types := types b; groups := groups b; offsets := offsets b; members := members b;
     state := {| state_x := 0%Q; state_y := 0%Q; state_z := 0%Q;
                 state_offset := length (members b); state_count := 0 |};
     initialCount := initialCount b |}.

(** [pushMember(x, y, z, member)]: the member is appended and the coordinates
    are summed; [state.count] is not touched. *)
Definition pushMember (x y z : Q) (member : nat) (b : t) : t :=
  {| xCenters := xCenters b; yCenters := yCenters b; zCenters := zCenters b;
     types := types b; groups := groups b; offsets := offsets b;
     members := members b ++ [member];
     state := {| state_x := (state_x (state b) + x)%Q; state_y := (state_y (state b) + y)%Q;
                 state_z := (state_z (state b) + z)%Q;
                 state_offset := state_offset (state b);
                 state_count := state_count (state b) |};
     initialCount := initialCount b |}.

(** [addState(type, group)]. *)
Definition addState (type : FeatureType.t) (group : FeatureGroup.t) (b : t) : t :=
  let count := state_count (state b) in
  if Nat.eqb count 0 then b
  else
    {| types := types b ++ [type];
       groups := groups b ++ [group];
       xCenters := xCenters b ++ [(state_x (state b) / inject_Z (Z.of_nat count))%Q];
       yCenters := yCenters b ++ [(state_y (state b) / inject_Z (Z.of_nat count))%Q];
       zCenters := zCenters b ++ [(state_z (state b) / inject_Z (Z.of_nat count))%Q];
       offsets := offsets b ++ [state_offset (state b)];
       members := members b;
       state := state b;
       initialCount := initialCount b |}.

(** [addOne(type, group, x, y, z, member)]. *)
Definition addOne (type : FeatureType.t) (group : FeatureGroup.t) (x y z : Q) (member : nat)
    (b : t) : t :=
  {| types := types b ++ [type];
     groups := groups b ++ [group];
     xCenters := xCenters b ++ [x];
     yCenters := yCenters b ++ [y];
     zCenters := zCenters b ++ [z];
     offsets := offsets b ++ [length (members b)];
     members := members b ++ [member];
     state := state b;
     initialCount := initialCount b |}.

(** [getFeatures(elementsCount)]: it appends the closing offset to the
    builder's own [offsets] array, so the builder is returned as well.  Every
    array is [ChunkedArray.compact(array, true)]: while a buffer fits its
    first chunk the array returned is that chunk, longer than the content.
    (It is then the builder's own chunk: later calls on the builder write to
    its unused slots; the value returned here is the array at the time of the
    call.) *)
Definition getFeatures (elementsCount : nat) (b : t) : Features.t * t :=
  let offsets' := offsets b ++ [length (members b)] in
  let n := initialCount b in
  (Features.create elementsCount
     {| Features.x := compact 0%Q n (xCenters b) true;
        Features.y := compact 0%Q n (yCenters b) true;
        Features.z := compact 0%Q n (zCenters b) true;
        Features.count := length (xCenters b);
        Features.types := compact FeatureType.None n (types b) true;
        Features.groups := compact FeatureGroup.None n (groups b) true;
        Features.offsets := compact 0 n offsets' true;
        Features.members := compact 0 n (members b) true |},
   {| xCenters := xCenters b; yCenters := yCenters b; zCenters := zCenters b;
      types := types b; groups := groups b; offsets := offsets'; members := members b;
      state := state b; initialCount := initialCount b |}).

(** A call on the builder, for sequences of calls. *)
Inductive Call : Type :=
| CallClearState
| CallPushMember (x y z : Q) (member : nat)
| CallAddState (type : FeatureType.t) (group : FeatureGroup.t)
| CallAddOne (type : FeatureType.t) (group : FeatureGroup.t) (x y z : Q) (member : nat).

Definition call (b : t) (c : Call) : t :=
  match c with
  | CallClearState => clearState b
  | CallPushMember x y z member => pushMember x y z member b
  | CallAddState type group => addState type group b
  | CallAddOne type group x y z member => addOne type group x y z member b
  end.

(** The calls of a list made on a builder, first to last. *)
Definition run (calls : list Call) (b : t) : t := fold_left call calls b.

End FeaturesBuilder.

(** ** [builder.ts]: the intra-unit link builder *)

Module IntraLinksBuilder.

(** The three arrays of the closure of [IntraLinksBuilder.create]. *)
Record t : Type := {
  aIndices : list nat;
  bIndices : list nat;
  types : list InteractionType.t
}.

Definition create : t := {| aIndices := []; bIndices := []; types := [] |}.

(** [add(indexA, indexB, type)]: [a[a.length] = v] on each array. *)
Definition add (indexA indexB : nat) (type : InteractionType.t) (b : t) : t :=
  {| aIndices := aIndices b ++ [indexA];
     bIndices := bIndices b ++ [indexB];
     types := types b ++ [type] |}.

End IntraLinksBuilder.

(** ** [links.ts]: testers and the pair-scanning loop *)

(** [LinkTester]; [getType] answers [undefined] as [None]. *)
Record LinkTester : Type := {
  maxDistanceSq : Q;
  getType : Structure → Features.Info → Features.Info → Q → option InteractionType.t
}.

(** The body of [for (const tester of testers)] for one tester. *)
Definition testPair (structure : Structure) (infoA infoB : Features.Info) (i j : nat)
    (distanceSq : Q) (builder : IntraLinksBuilder.t) (tester : LinkTester) : IntraLinksBuilder.t :=
  if Qltb distanceSq (maxDistanceSq tester) then
    match getType tester structure infoA infoB distanceSq with
    | Some type =>
        if InteractionType.truthy type then IntraLinksBuilder.add i j type builder else builder
    | None => builder
    end
  else builder.

(** The body of [for (let r = 0; r < count; ++r)] for one returned neighbour. *)
Definition scanNeighbor (structure : Structure) (infoA infoB : Features.Info) (i : nat)
    (testers : list LinkTester) (builder : IntraLinksBuilder.t) (found : nat * Q) : IntraLinksBuilder.t :=
  let '(j, distanceSq) := found in
  if j <=? i then builder
  else
    let infoB := Features.setFeature infoB j in
    fold_left (testPair structure infoA infoB i j distanceSq) testers builder.

(** The body of [for (let i = 0; i < count; ++i)]; [if (count === 0) continue]
    skips a loop of no iteration. *)
Definition scanFeature (structure : Structure) (data : Features.Data) (lookup3d : Lookup3D)
    (infoA infoB : Features.Info) (maxDistanceSq : option Q) (testers : list LinkTester)
    (builder : IntraLinksBuilder.t) (i : nat) : IntraLinksBuilder.t :=
  let found := lookup3d (Features.x data !!! i) (Features.y data !!! i) (Features.z data !!! i)
                        maxDistanceSq in
  let infoA := Features.setFeature infoA i in
  fold_left (scanNeighbor structure infoA infoB i testers) found builder.

(** [addUnitLinks(structure, unit, features, builder, testers)].  Reading
    [features.lookup3d] fills the cell of [features], so the features are
    returned with the outcome. *)
Definition addUnitLinks `{Collaborators} (structure : Structure) (unit : Unit.t)
    (features : Features.t) (builder : IntraLinksBuilder.t) (testers : list LinkTester)
    : Features.t * Result IntraLinksBuilder.t :=
  let data := Features.data features in
  let '(lookup3d, features) := Features.lookup3d features in
  (features,
   match Features.Info_of structure unit features with
   | Throw message => Throw message
   | Ok infoA =>
       let infoB := infoA in
       let maxDistanceSq := Math_max (map maxDistanceSq testers) in
       Ok (fold_left (scanFeature structure data lookup3d infoA infoB maxDistanceSq testers)
                     (seq 0 (Features.count data)) builder)
   end).

(** The same loop with a log in place of the builder: one entry [(i, j, k)] for
    each call [tester.getType(structure, infoA, infoB, distanceSq)], where [k]
    is the position of the tester in [testers]. *)
Definition logPair (i j : nat) (distanceSq : Q) (log : list (nat * nat * nat))
    (tester : nat * LinkTester) : list (nat * nat * nat) :=
  if Qltb distanceSq (maxDistanceSq tester.2) then log ++ [(i, j, tester.1)] else log.

Definition logNeighbor (i : nat) (testers : list LinkTester) (log : list (nat * nat * nat))
    (found : nat * Q) : list (nat * nat * nat) :=
  let '(j, distanceSq) := found in
  if j <=? i then log
  else fold_left (logPair i j distanceSq) (zip (seq 0 (length testers)) testers) log.

Definition logFeature (data : Features.Data) (lookup3d : Lookup3D) (maxDistanceSq : option Q)
    (testers : list LinkTester) (log : list (nat * nat * nat)) (i : nat) : list (nat * nat * nat) :=
  let found := lookup3d (Features.x data !!! i) (Features.y data !!! i) (Features.z data !!! i)
                        maxDistanceSq in
  fold_left (logNeighbor i testers) found log.

Definition addUnitLinks_evaluations `{Collaborators} (structure : Structure) (unit : Unit.t)
    (features : Features.t) (testers : list LinkTester) : list (nat * nat * nat) :=
  let data := Features.data features in
  let '(lookup3d, features) := Features.lookup3d features in
  match Features.Info_of structure unit features with
  | Throw _ => []
  | Ok _ =>
      fold_left (logFeature data lookup3d (Math_max (map maxDistanceSq testers)) testers)
                (seq 0 (Features.count data)) []
  end.

(** ** [halogen-bonds.ts] *)

(** [PD.Numeric(default, { min, max, step })]. *)
Record NumericParam : Type := {
  param_default : Q;
  param_min : Q;
  param_max : Q;
  param_step : Q
}.

(** The two entries of [HalogenBondsParams]. *)
Definition HalogenBondsParams_distanceMax : NumericParam :=
  {| param_default := 4; param_min := 1; param_max := 5; param_step := 1 # 10 |}.
Definition HalogenBondsParams_angleMax : NumericParam :=
  {| param_default := 30; param_min := 0; param_max := 60; param_step := 1 |}.

(** [HalogenBondsProps = PD.Values<HalogenBondsParams>]. *)
Record HalogenBondsProps : Type := {
  distanceMax : Q;
  angleMax : Q
}.

(** A value within the range its parameter declares. *)
Definition inRange (p : NumericParam) (v : Q) : Prop :=
  (param_min p <= v)%Q ∧ (v <= param_max p)%Q.

Definition halBondElements : list ElementSymbol :=
  [Elements.CL; Elements.BR; Elements.I; Elements.AT].

(** The body of the loop of [addUnitHalogenDonors] at atom [i]. *)
Definition addHalogenDonor `{Collaborators} (unit : Unit.t) (builder : FeaturesBuilder.t) (i : nat)
    : FeaturesBuilder.t :=
  let element := typeSymbol unit i in
  if includes halBondElements element then
    FeaturesBuilder.addOne FeatureType.HalogenDonor FeatureGroup.None
      (Unit.conformation_x unit (Unit.elements unit !!! i))
      (Unit.conformation_y unit (Unit.elements unit !!! i))
      (Unit.conformation_z unit (Unit.elements unit !!! i)) i builder
  else builder.

(** [addUnitHalogenDonors(structure, unit, builder)]. *)
Definition addUnitHalogenDonors `{Collaborators} (structure : Structure) (unit : Unit.t)
    (builder : FeaturesBuilder.t) : FeaturesBuilder.t :=
  fold_left (addHalogenDonor unit) (seq 0 (length (Unit.elements unit))) builder.

Definition X : list ElementSymbol := [Elements.N; Elements.O; Elements.S].
Definition Y : list ElementSymbol := [Elements.C; Elements.N; Elements.P; Elements.S].

(** The callback of [eachBondedAtom] in [addUnitHalogenAcceptors], on [flag]. *)
Definition markBondedY `{Collaborators} (flag : bool) (bonded : Unit.t * nat) : bool :=
  if includes Y (typeSymbol bonded.1 bonded.2) then true else flag.

(** The body of the loop of [addUnitHalogenAcceptors] at atom [i]. *)
Definition addHalogenAcceptor `{Collaborators} (structure : Structure) (unit : Unit.t)
    (builder : FeaturesBuilder.t) (i : nat) : FeaturesBuilder.t :=
  let element := typeSymbol unit i in
  if includes X element then
    let flag := fold_left markBondedY (eachBondedAtom structure unit i) false in
    if flag then
      FeaturesBuilder.addOne FeatureType.HalogenAcceptor FeatureGroup.None
        (Unit.conformation_x unit (Unit.elements unit !!! i))
        (Unit.conformation_y unit (Unit.elements unit !!! i))
        (Unit.conformation_z unit (Unit.elements unit !!! i)) i builder
    else builder
  else builder.

(** [addUnitHalogenAcceptors(structure, unit, builder)]. *)
Definition addUnitHalogenAcceptors `{Collaborators} (structure : Structure) (unit : Unit.t)
    (builder : FeaturesBuilder.t) : FeaturesBuilder.t :=
  fold_left (addHalogenAcceptor structure unit) (seq 0 (length (Unit.elements unit))) builder.

(** [isHalogenBond(ti, tj)], on types that may be [undefined]. *)
Definition isHalogenBond (ti tj : option FeatureType.t) : bool :=
  (bool_decide (ti = Some FeatureType.HalogenAcceptor) && bool_decide (tj = Some FeatureType.HalogenDonor))
  || (bool_decide (ti = Some FeatureType.HalogenDonor) && bool_decide (tj = Some FeatureType.HalogenAcceptor)).

Definition OptimalHalogenAngle `{Collaborators} : Q := degToRad 180.
Definition OptimalAcceptorAngle `{Collaborators} : Q := degToRad 120.

(** [Options = ReturnType<typeof getOptions>]. *)
Record Options : Type := {
  opts_distanceMax : Q;
  opts_angleMax : Q
}.

(** [getOptions(props)]: the angle tolerance turned to radians. *)
Definition getOptions `{Collaborators} (props : HalogenBondsProps) : Options :=
  {| opts_distanceMax := distanceMax props; opts_angleMax := degToRad (angleMax props) |}.

(** Which [return] of [testHalogenBond] a call leaves by, in source order. *)
Inductive Verdict : Set :=
| NotHalogenPair        (* if (!isHalogenBond(typeA, typeB)) return *)
| DonorAcceptorSelf     (* DA to self *)
| IncompatibleAltLoc    (* incompatible alternate location id *)
| SameResidue           (* same residue *)
| NotSinglyBonded       (* halogenAngles.length !== 1 *)
| HalogenAngleExceeded  (* OptimalHalogenAngle - halogenAngles[0] > opts.angleMax *)
| NoAcceptorAngle       (* acceptorAngles.length === 0 *)
| AcceptorAngleExceeded (* acceptorAngles.some(...) *)
| IsHalogenBond.        (* return InteractionType.HalogenBond *)

(** [info.types[info.feature]]. *)
Definition featureType (info : Features.Info) : option FeatureType.t :=
  f ← Features.info_feature info;
  Features.info_types info !! f.

(** [info.members[info.offsets[info.feature]]]. *)
Definition firstMember (info : Features.Info) : option nat :=
  f ← Features.info_feature info;
  o ← Features.info_offsets info !! f;
  Features.info_members info !! o.

(** [unit.residueIndex[unit.elements[index]]]. *)
Definition residueOf (unit : Unit.t) (index : option nat) : option nat :=
  i ← index;
  e ← Unit.elements unit !! i;
  Unit.residueIndex unit !! e.

(** A string is truthy when it is not empty. *)
Definition nonEmpty (s : string) : bool := negb (bool_decide (s = "")).

(** [const [don, acc] = typeA === FeatureType.HalogenDonor ? [infoA, infoB] : [infoB, infoA]]. *)
Definition donorAcceptor (infoA infoB : Features.Info) : Features.Info * Features.Info :=
  if bool_decide (featureType infoA = Some FeatureType.HalogenDonor)
  then (infoA, infoB) else (infoB, infoA).

(** The angle tests of [testHalogenBond], from [calcAngles(...don...)] on. *)
Definition halogenAngleChecks `{Collaborators} (structure : Structure)
    (don acc : Features.Info) (donIndex accIndex : option nat) (opts : Options) : Verdict :=
  let halogenAngles :=
    calcAngles structure (Features.info_unit don) donIndex (Features.info_unit acc) accIndex in
  match halogenAngles with
  | [halogenAngle] =>
      if Qltb (opts_angleMax opts) (OptimalHalogenAngle - halogenAngle) then HalogenAngleExceeded
      else
        let acceptorAngles :=
          calcAngles structure (Features.info_unit acc) accIndex (Features.info_unit don) donIndex in
        if bool_decide (length acceptorAngles = 0) then NoAcceptorAngle
        else if existsb (λ acceptorAngle,
                           Qltb (opts_angleMax opts) (OptimalAcceptorAngle - acceptorAngle))
                        acceptorAngles
        then AcceptorAngleExceeded
        else IsHalogenBond
  | _ => NotSinglyBonded
  end.

(** The tests of [testHalogenBond] after the alternate-location test: the
    same-residue test, then the angle tests. *)
Definition residueAndAngleChecks `{Collaborators} (structure : Structure)
    (don acc : Features.Info) (donIndex accIndex : option nat) (opts : Options) : Verdict :=
  if bool_decide (residueOf (Features.info_unit don) donIndex
                  = residueOf (Features.info_unit acc) accIndex)
  then SameResidue
  else halogenAngleChecks structure don acc donIndex accIndex opts.

(** [testHalogenBond], with the [return] taken as the result. *)
Definition halogenBondVerdict `{Collaborators} (structure : Structure)
    (infoA infoB : Features.Info) (opts : Options) : Verdict :=
  let typeA := featureType infoA in
  let typeB := featureType infoB in
  if negb (isHalogenBond typeA typeB) then NotHalogenPair
  else
    let '(don, acc) := donorAcceptor infoA infoB in
    let donIndex := firstMember don in
    let accIndex := firstMember acc in
    if bool_decide (accIndex = donIndex) then DonorAcceptorSelf
    else
      let altD := altLoc (Features.info_unit don) donIndex in
      let altA := altLoc (Features.info_unit acc) accIndex in
      if nonEmpty altD && nonEmpty altA && negb (bool_decide (altD = altA)) then IncompatibleAltLoc
      else residueAndAngleChecks structure don acc donIndex accIndex opts.

(** [testHalogenBond(structure, infoA, infoB, opts)]: the interaction type, or
    [undefined]. *)
Definition testHalogenBond `{Collaborators} (structure : Structure)
    (infoA infoB : Features.Info) (opts : Options) : option InteractionType.t :=
  match halogenBondVerdict structure infoA infoB opts with
  | IsHalogenBond => Some InteractionType.HalogenBond
  | _ => None
  end.

(** [HalogenBondsProvider.createTester(props)]. *)
Definition createTester `{Collaborators} (props : HalogenBondsProps) : LinkTester :=
  let opts := getOptions props in
  {| maxDistanceSq := (distanceMax props * distanceMax props)%Q;
     getType := λ structure infoA infoB _, testHalogenBond structure infoA infoB opts |}.

(** ** Reading a feature's members, and what the calls recorded for it *)

(** The members of feature [i]: "range for feature i is offsets[i] to
    offsets[i + 1]". *)
Definition memberRange (data : Features.Data) (i : nat) : list nat :=
  match Features.offsets data !! i, Features.offsets data !! (i + 1) with
  | Some o, Some o' => take (o' - o) (drop o (Features.members data))
  | _, _ => []
  end.

(** Ghost bookkeeping beside a builder: [pending] are the members pushed since
    the last [clearState], [recorded] the members each appended feature was
    built from ([addOne]: its one member; [addState], when it appends: the
    pending ones), and [pushedAfter] the members pushed with [pushMember]
    after each feature was appended and before the next one was. *)
Record Recorded : Type := {
  pending : list nat;
  recorded : list (list nat);
  pushedAfter : list (list nat)
}.

Definition record (b : FeaturesBuilder.t) (g : Recorded) (c : FeaturesBuilder.Call) : Recorded :=
  match c with
  | FeaturesBuilder.CallClearState =>
      {| pending := []; recorded := recorded g; pushedAfter := pushedAfter g |}
  | FeaturesBuilder.CallPushMember _ _ _ member =>
      {| pending := pending g ++ [member]; recorded := recorded g;
         pushedAfter := alter (λ ms, ms ++ [member]) (length (pushedAfter g) - 1)
                              (pushedAfter g) |}
  | FeaturesBuilder.CallAddState _ _ =>
      if Nat.eqb (FeaturesBuilder.state_count (FeaturesBuilder.state b)) 0 then g
      else {| pending := pending g; recorded := recorded g ++ [pending g];
              pushedAfter := pushedAfter g ++ [[]] |}
  | FeaturesBuilder.CallAddOne _ _ _ _ _ member =>
      {| pending := pending g; recorded := recorded g ++ [[member]];
         pushedAfter := pushedAfter g ++ [[]] |}
  end.

(** The calls run on a builder together with the bookkeeping. *)
Definition runRecorded (calls : list FeaturesBuilder.Call) (b : FeaturesBuilder.t)
    : FeaturesBuilder.t * Recorded :=
  fold_left (λ bg c, (FeaturesBuilder.call bg.1 c, record bg.1 bg.2 c)) calls
            (b, {| pending := []; recorded := []; pushedAfter := [] |}).

(** The arithmetic mean of a non-empty list of numbers. *)
Definition mean (l : list Q) : Q :=
  (fold_left Qplus l 0 / inject_Z (Z.of_nat (length l)))%Q.

(** The invariant of a builder reached from [FeaturesBuilder.create], beside
    its bookkeeping: [state.count] is 0, one offset per feature, and each
    feature is recorded with one member, which sits at the feature's offset
    and is followed, up to the next offset (for the last feature: up to the
    end of [members]), by the members pushed after it. *)
Definition builderInv (b : FeaturesBuilder.t) (g : Recorded) : Prop :=
  FeaturesBuilder.state_count (FeaturesBuilder.state b) = 0 ∧
  length (FeaturesBuilder.xCenters b) = length (FeaturesBuilder.offsets b) ∧
  length (recorded g) = length (FeaturesBuilder.offsets b) ∧
  length (pushedAfter g) = length (FeaturesBuilder.offsets b) ∧
  (∀ i o, FeaturesBuilder.offsets b !! i = Some o →
     ∃ m ms, recorded g !! i = Some [m] ∧ pushedAfter g !! i = Some ms ∧
             FeaturesBuilder.members b !! o = Some m ∧
             (FeaturesBuilder.offsets b ++ [length (FeaturesBuilder.members b)]) !! (i + 1)
               = Some (o + 1 + length ms)).

(** ** Reading the results *)

(** The features listed for atom [a]: "range for unit element i is offsets[i]
    to offsets[i + 1]". *)
Definition featuresOf (index : Features.ElementsIndex) (a : nat) : list nat :=
  match Features.index_offsets index !! a, Features.index_offsets index !! (a + 1) with
  | Some o, Some o' => take (o' - o) (drop o (Features.indices index))
  | _, _ => []
  end.

(** An edge [(indexA, indexB, type)] as [IntraLinksBuilder.add] receives it. *)
Definition Edge : Type := nat * nat * InteractionType.t.

(** The edges [after] holds beyond those of [before], slot by slot. *)
Definition addedEdges (before after : IntraLinksBuilder.t) : list Edge :=
  zip (zip (drop (length (IntraLinksBuilder.aIndices before)) (IntraLinksBuilder.aIndices after))
           (drop (length (IntraLinksBuilder.bIndices before)) (IntraLinksBuilder.bIndices after)))
      (drop (length (IntraLinksBuilder.types before)) (IntraLinksBuilder.types after)).

(** [builder.add] for each edge of a list, in order. *)
Definition addEdges (builder : IntraLinksBuilder.t) (edges : list Edge) : IntraLinksBuilder.t :=
  fold_left (λ b e, IntraLinksBuilder.add e.1.1 e.1.2 e.2 b) edges builder.

(** The edges the pair-scanning loop records, written as comprehensions: for
    [i] ascending, each returned neighbour [j > i] in returned order, each
    tester in order whose cutoff admits the distance and whose [getType]
    answers a truthy type. *)
Definition pairEdges (structure : Structure) (infoA infoB : Features.Info) (i j : nat)
    (distanceSq : Q) (tester : LinkTester) : list Edge :=
  if Qltb distanceSq (maxDistanceSq tester) then
    match getType tester structure infoA infoB distanceSq with
    | Some type => if InteractionType.truthy type then [(i, j, type)] else []
    | None => []
    end
  else [].

Definition neighborEdges (structure : Structure) (infoA infoB : Features.Info) (i : nat)
    (testers : list LinkTester) (found : nat * Q) : list Edge :=
  if found.1 <=? i then []
  else testers ≫= pairEdges structure infoA (Features.setFeature infoB found.1) i found.1 found.2.

Definition featureEdges (structure : Structure) (data : Features.Data) (lookup3d : Lookup3D)
    (info : Features.Info) (maxDistanceSq : option Q) (testers : list LinkTester) (i : nat)
    : list Edge :=
  lookup3d (Features.x data !!! i) (Features.y data !!! i) (Features.z data !!! i) maxDistanceSq
  ≫= neighborEdges structure (Features.setFeature info i) info i testers.

Definition linkEdges (structure : Structure) (data : Features.Data) (lookup3d : Lookup3D)
    (info : Features.Info) (testers : list LinkTester) : list Edge :=
  seq 0 (Features.count data)
  ≫= featureEdges structure data lookup3d info (Math_max (map maxDistanceSq testers)) testers.

(** The calls of [getType] the loop makes, written the same way. *)
Definition pairEvaluations (i j : nat) (distanceSq : Q) (tester : nat * LinkTester)
    : list (nat * nat * nat) :=
  if Qltb distanceSq (maxDistanceSq tester.2) then [(i, j, tester.1)] else [].

Definition neighborEvaluations (i : nat) (testers : list LinkTester) (found : nat * Q)
    : list (nat * nat * nat) :=
  if found.1 <=? i then []
  else zip (seq 0 (length testers)) testers ≫= pairEvaluations i found.1 found.2.

Definition featureEvaluations (data : Features.Data) (lookup3d : Lookup3D)
    (maxDistanceSq : option Q) (testers : list LinkTester) (i : nat) : list (nat * nat * nat) :=
  lookup3d (Features.x data !!! i) (Features.y data !!! i) (Features.z data !!! i) maxDistanceSq
  ≫= neighborEvaluations i testers.

Definition linkEvaluations (data : Features.Data) (lookup3d : Lookup3D)
    (testers : list LinkTester) : list (nat * nat * nat) :=
  seq 0 (Features.count data)
  ≫= featureEvaluations data lookup3d (Math_max (map maxDistanceSq testers)) testers.

(** A lookup that returns a superset for a larger radius. *)
Definition lookupMonotone (lookup3d : Lookup3D) : Prop :=
  ∀ x y z r1 r2, (0 <= r1)%Q → (r1 <= r2)%Q →
    ∀ found, found ∈ lookup3d x y z (Some r1) → found ∈ lookup3d x y z (Some r2).

(** A lookup that returns each point at most once per query. *)
Definition lookupDistinct (lookup3d : Lookup3D) : Prop :=
  ∀ x y z radius, NoDup (lookup3d x y z radius).*1.

(** ** A sample structure *)

Module Sample.

(** Four atoms: a chlorine (0) bonded to a carbon (1) in residue 0, an oxygen
    (2) bonded to a carbon (3) in residue 1. *)
Definition unit : Unit.t :=
  {| Unit.id := 0;
     Unit.elements := [0; 1; 2; 3];
     Unit.conformation_x := λ e, match e with 0 => 0%Q | 1 => (-2)%Q | 2 => 3%Q | _ => 4%Q end;
     Unit.conformation_y := λ e, match e with 3 => 1%Q | _ => 0%Q end;
     Unit.conformation_z := λ _, 0%Q;
     Unit.residueIndex := [0; 0; 1; 1] |}.

Definition structure : Structure :=
  {| units := [unit]; valenceModel := Some {[ 0 := {| idealGeometry := [] |} ]} |}.

Definition squaredDistance (x y z x' y' z' : Q) : Q :=
  ((x - x') * (x - x') + (y - y') * (y - y') + (z - z') * (z - z'))%Q.

(** Modelled from the spec: a lookup that "returns neighbor points within a
    radius", here in index order; nothing for the radius [-Infinity]. *)
Definition pointsWithin (xs ys zs : list Q) (count : nat) : Lookup3D :=
  λ x y z radius,
    match radius with
    | None => []
    | Some r =>
        List.filter (λ found : nat * Q, Qle_bool found.2 (r * r))
          (map (λ j, (j, squaredDistance x y z (xs !!! j) (ys !!! j) (zs !!! j))) (seq 0 count))
    end.

(** Collaborators for the sample: [altOf] gives the alternate location of each
    atom, [halogenAngle] the C-Cl...O angle and [acceptorAngle] the Cl...O-C
    angle, in degrees; [degToRad] multiplies by 0.01745. *)
Definition collaborators (altOf : nat → string) (halogenAngle acceptorAngle : Q) : Collaborators :=
  {| typeSymbol := λ _ i,
       match i with 0 => Elements.CL | 2 => Elements.O | _ => Elements.C end;
     altLoc := λ _ index, match index with Some i => altOf i | None => "" end;
     eachBondedAtom := λ _ u i,
       match i with 0 => [(u, 1)] | 1 => [(u, 0)] | 2 => [(u, 3)] | 3 => [(u, 2)] | _ => [] end;
     calcAngles := λ _ _ indexA _ _,
       match indexA with
       | Some 0 => [(halogenAngle * (349 # 20000))%Q]
       | Some 2 => [(acceptorAngle * (349 # 20000))%Q]
       | _ => []
       end;
     degToRad := λ deg, (deg * (349 # 20000))%Q;
     GridLookup3D := pointsWithin |}.

(** No alternate locations, a straight C-Cl...O and a Cl...O-C angle of 170
    degrees. *)
Definition wideAcceptor : Collaborators := collaborators (λ _, "") 180 170.

Definition props : HalogenBondsProps := {| distanceMax := 4; angleMax := 30 |}.

(** The features the two providers find: the chlorine as donor (feature 0),
    the oxygen as acceptor (feature 1). *)
Definition features `{Collaborators} : Features.t :=
  (FeaturesBuilder.getFeatures 4
     (addUnitHalogenAcceptors structure unit
        (addUnitHalogenDonors structure unit (FeaturesBuilder.create 2048 1024)))).1.

Definition info `{Collaborators} (feature : nat) : Features.Info :=
  {| Features.info_unit := unit;
     Features.info_types := Features.types (Features.data features);
     Features.info_feature := Some feature;
     Features.info_members := Features.members (Features.data features);
     Features.info_offsets := Features.offsets (Features.data features);
     Features.info_idealGeometry := [] |}.

End Sample.

(** How many times the call [(i, j, k)] occurs in a log of [getType] calls. *)
Definition timesEvaluated (log : list (nat * nat * nat)) (c : nat * nat * nat) : nat :=
  count_occ (λ x y : nat * nat * nat, decide (x = y)) log c.

(** ** The providers as comprehensions *)

(** The atoms [addUnitHalogenDonors] takes: a halogen other than fluorine. *)
Definition isHalogenDonorAtom `{Collaborators} (unit : Unit.t) (i : nat) : bool :=
  includes halBondElements (typeSymbol unit i).

Definition halogenDonorCall (unit : Unit.t) (i : nat) : FeaturesBuilder.Call :=
  FeaturesBuilder.CallAddOne FeatureType.HalogenDonor FeatureGroup.None
    (Unit.conformation_x unit (Unit.elements unit !!! i))
    (Unit.conformation_y unit (Unit.elements unit !!! i))
    (Unit.conformation_z unit (Unit.elements unit !!! i)) i.

(** The atoms [addUnitHalogenAcceptors] takes: one of [X] with a bonded atom
    that is one of [Y]. *)
Definition isHalogenAcceptorAtom `{Collaborators} (structure : Structure) (unit : Unit.t)
    (i : nat) : bool :=
  includes X (typeSymbol unit i) &&
  existsb (λ bonded : Unit.t * nat, includes Y (typeSymbol bonded.1 bonded.2))
          (eachBondedAtom structure unit i).

Definition halogenAcceptorCall (unit : Unit.t) (i : nat) : FeaturesBuilder.Call :=
  FeaturesBuilder.CallAddOne FeatureType.HalogenAcceptor FeatureGroup.None
    (Unit.conformation_x unit (Unit.elements unit !!! i))
    (Unit.conformation_y unit (Unit.elements unit !!! i))
    (Unit.conformation_z unit (Unit.elements unit !!! i)) i.

(** ** The reverse index, bucket by bucket *)

(** The features whose single member slot among the first [k] holds atom [a]. *)
Definition occurrences (members : list nat) (a k : nat) : list nat :=
  filter (λ i, members !! i = Some a) (seq 0 k).

(** The slot at which the bucket of atom [a] starts: the sizes of the buckets before it. *)
Fixpoint bucketStart (size : nat → nat) (a : nat) : nat :=
  match a with
  | 0 => 0
  | S a' => bucketStart size a' + size a'
  end.

(** ** Lookups that miss nothing *)

(** A lookup that returns every feature within the radius: [dist i j] is the
    squared distance it reports between the centres of features [i] and [j]. *)
Definition lookupFinds (lookup3d : Lookup3D) (data : Features.Data) (dist : nat → nat → Q) : Prop :=
  ∀ i j r, i < Features.count data → j < Features.count data →
    (0 <= r)%Q → (dist i j <= r * r)%Q →
    (j, dist i j) ∈ lookup3d (Features.x data !!! i) (Features.y data !!! i)
                             (Features.z data !!! i) (Some r).

(** ** [builder.ts]: the inter-unit link builder *)

Module InterLinksBuilder.

(** [InteractionsInterLinks.Info]: [{ indexB, props: { type } }]. *)
Record Info : Type := {
  indexB : nat;
  type : InteractionType.t
}.

(** Modelled from the spec: [UniqueArray] ([mol-data/generic], not among the
    sources), the "distinct set" of bonded features: the set of the keys held
    and the array of the values, in insertion order; [UniqueArray.add(a, key,
    value)] appends the value unless the key is held. *)
Record UniqueArray : Type := {
  keys : gset nat;
  array : list nat
}.

Definition UniqueArray_create : UniqueArray := {| keys := ∅; array := [] |}.

Definition UniqueArray_add (u : UniqueArray) (key value : nat) : UniqueArray :=
  if bool_decide (key ∈ keys u) then u
  else {| keys := {[key]} ∪ keys u; array := array u ++ [value] |}.

(** [addMapEntry(map, a, b)]. *)
Definition addMapEntry {B} (map : gmap nat (list B)) (a : nat) (b : B) : gmap nat (list B) :=
  match map !! a with
  | Some l => <[a := l ++ [b]]> map
  | None => <[a := [b]]> map
  end.

(** The four objects one [startUnitPair] creates. *)
Record PairObjects : Type := {
  mapAB : gmap nat (list Info);
  mapBA : gmap nat (list Info);
  bondedA : UniqueArray;
  bondedB : UniqueArray
}.

Inductive Side : Set := SideA | SideB.

(** [new InteractionsInterLinks.Pair(unitA, unitB, bondCount, bonded.array, map)]:
    the count is a number, the array and the map are the objects of the
    current unit pair, kept by reference: [pair_objects] is their position in
    the store, [pair_side] tells [bondedA.array, mapAB] from
    [bondedB.array, mapBA]. *)
Record PairRef : Type := {
  pair_unitA : Unit.t;
  pair_unitB : Unit.t;
  pair_bondCount : nat;
  pair_objects : nat;
  pair_side : Side
}.

(** The closure of [InterLinksBuilder.create]: [objects] holds the objects of
    every [startUnitPair] so far, the last being those the variables [mapAB],
    [mapBA], [bondedA], [bondedB] point to; [units] is [(uA, uB)], [None]
    while the variables are still undefined. *)
Record t : Type := {
  objects : list PairObjects;
  units : option (Unit.t * Unit.t);
  bondCount : nat;
  map : gmap nat (list PairRef)
}.

Definition create : t := {| objects := []; units := None; bondCount := 0; map := ∅ |}.

Definition startUnitPair (unitA unitB : Unit.t) (b : t) : t :=
  {| objects := objects b ++ [{| mapAB := ∅; mapBA := ∅;
                                 bondedA := UniqueArray_create; bondedB := UniqueArray_create |}];
     units := Some (unitA, unitB);
     bondCount := 0;
     map := map b |}.

(** The body of [add] on the current objects. *)
Definition addToObjects (indexA indexB : nat) (type : InteractionType.t) (o : PairObjects)
    : PairObjects :=
  {| mapAB := addMapEntry (mapAB o) indexA {| indexB := indexB; type := type |};
     mapBA := addMapEntry (mapBA o) indexB {| indexB := indexA; type := type |};
     bondedA := UniqueArray_add (bondedA o) indexA indexA;
     bondedB := UniqueArray_add (bondedB o) indexB indexB |}.

(** [add(indexA, indexB, type)]; before any [startUnitPair], [mapAB] is
    undefined and [map.has] throws a [TypeError]. *)
Definition add (indexA indexB : nat) (type : InteractionType.t) (b : t) : Result t :=
  match units b with
  | None => Throw "TypeError"
  | Some _ =>
      Ok {| objects := alter (addToObjects indexA indexB type) (length (objects b) - 1) (objects b);
            units := units b;
            bondCount := bondCount b + 1;
            map := map b |}
  end.

(** [finishUnitPair()]; before any [startUnitPair], [bondCount] is undefined,
    which is not [0], and [uA.id] throws a [TypeError]. *)
Definition finishUnitPair (b : t) : Result t :=
  match units b with
  | None => Throw "TypeError"
  | Some (uA, uB) =>
      if Nat.eqb (bondCount b) 0 then Ok b
      else
        let current := length (objects b) - 1 in
        let map1 := addMapEntry (map b) (Unit.id uA)
                      {| pair_unitA := uA; pair_unitB := uB; pair_bondCount := bondCount b;
                         pair_objects := current; pair_side := SideA |} in
        let map2 := addMapEntry map1 (Unit.id uB)
                      {| pair_unitA := uB; pair_unitB := uA; pair_bondCount := bondCount b;
                         pair_objects := current; pair_side := SideB |} in
        Ok {| objects := objects b; units := units b; bondCount := bondCount b; map := map2 |}
  end.

(** A [Pair] read through its references. *)
Record Pair : Type := {
  unitA : Unit.t;
  unitB : Unit.t;
  edgeCount : nat;
  connectedIndices : list nat;
  edgeMap : gmap nat (list Info)
}.

Definition readPair (objects : list PairObjects) (p : PairRef) : Pair :=
  let o := default {| mapAB := ∅; mapBA := ∅; bondedA := UniqueArray_create;
                      bondedB := UniqueArray_create |} (objects !! pair_objects p) in
  {| unitA := pair_unitA p; unitB := pair_unitB p; edgeCount := pair_bondCount p;
     connectedIndices := match pair_side p with
                         | SideA => array (bondedA o)
                         | SideB => array (bondedB o)
                         end;
     edgeMap := match pair_side p with SideA => mapAB o | SideB => mapBA o end |}.

(** [getLinks()]: the content of [new InterUnitGraph(map)], the pairs of each
    unit id read at the time of the call. *)
Definition getLinks (b : t) : gmap nat (list Pair) :=
  (λ pairs : list PairRef, readPair (objects b) <$> pairs) <$> map b.

(** [builder.add] for each edge of a list, in order, stopping at a throw. *)
Fixpoint addAll (edges : list Edge) (b : t) : Result t :=
  match edges with
  | [] => Ok b
  | e :: edges' =>
      match add e.1.1 e.1.2 e.2 b with
      | Ok b' => addAll edges' b'
      | Throw message => Throw message
      end
  end.


(** The calls a client makes on the builder. *)
Inductive Call : Type :=
| StartUnitPair (unitA unitB : Unit.t)
| Add (indexA indexB : nat) (type : InteractionType.t)
| FinishUnitPair.

Definition call (c : Call) (b : t) : Result t :=
  match c with
  | StartUnitPair unitA unitB => Ok (startUnitPair unitA unitB b)
  | Add indexA indexB type => add indexA indexB type b
  | FinishUnitPair => finishUnitPair b
  end.

Fixpoint run (calls : list Call) (b : t) : Result t :=
  match calls with
  | [] => Ok b
  | c :: calls' =>
      match call c b with
      | Ok b' => run calls' b'
      | Throw message => Throw message
      end
  end.

(** The objects of a unit pair after [add] for each edge of a list. *)
Definition pairObjects (edges : list Edge) : PairObjects :=
  fold_left (λ o e, addToObjects e.1.1 e.1.2 e.2 o) edges
    {| mapAB := ∅; mapBA := ∅; bondedA := UniqueArray_create; bondedB := UniqueArray_create |}.

(** The two [Pair]s [finishUnitPair] records for a unit pair with these edges. *)
Definition pairAB (uA uB : Unit.t) (edges : list Edge) : Pair :=
  {| unitA := uA; unitB := uB; edgeCount := length edges;
     connectedIndices := array (bondedA (pairObjects edges));
     edgeMap := mapAB (pairObjects edges) |}.

Definition pairBA (uA uB : Unit.t) (edges : list Edge) : Pair :=
  {| unitA := uB; unitB := uA; edgeCount := length edges;
     connectedIndices := array (bondedB (pairObjects edges));
     edgeMap := mapBA (pairObjects edges) |}.

(** Every recorded pair refers to objects of the store, and there are current
    objects once a unit pair was started. *)
Definition wf (b : t) : Prop :=
  (∀ k ps p, map b !! k = Some ps → p ∈ ps → pair_objects p < length (objects b)) ∧
  (units b ≠ None → objects b ≠ []).

End InterLinksBuilder.

(** The invariant of a [UniqueArray]: the keys are the values held, each once. *)
Definition uniqueInv (u : InterLinksBuilder.UniqueArray) : Prop :=
  (∀ a, a ∈ InterLinksBuilder.keys u ↔ a ∈ InterLinksBuilder.array u) ∧ NoDup (InterLinksBuilder.array u).

(** The calls of one unit pair: [startUnitPair], an [add] for each edge,
    [finishUnitPair]. *)
Definition unitPairCalls (uA uB : Unit.t) (edges : list Edge) : list InterLinksBuilder.Call :=
  InterLinksBuilder.StartUnitPair uA uB :: ((λ e, InterLinksBuilder.Add e.1.1 e.1.2 e.2) <$> edges) ++ [InterLinksBuilder.FinishUnitPair].

(** ** [links.ts]: the inter-unit scan *)

Definition MAX_DISTANCE : Q := 5.

(** The geometry of a unit pair, whose code is outside the sources: the image
    transform [Mat4.mul(_, unitB.conformation.operator.inverse,
    unitA.conformation.operator.matrix)] as the map [Vec3.transformMat4]
    applies, [None] when [Mat4.isIdentity] holds of it; the sphere
    [lookup3d.boundary.sphere] as [(center, radius)]; and
    [Vec3.squaredDistance]. *)
Class InterUnitGeometry : Type := {
  imageTransform : Unit.t → Unit.t → option (Q * Q * Q → Q * Q * Q);
  boundarySphere : Lookup3D → (Q * Q * Q) * Q;
  Vec3_squaredDistance : Q * Q * Q → Q * Q * Q → Q
}.

(** The body of [for (const tester of testers)] for one tester; the builder
    is an outcome, since [builder.add] can throw. *)
Definition testPairInter (structure : Structure) (infoA infoB : Features.Info) (i j : nat)
    (distanceSq : Q) (builder : Result InterLinksBuilder.t) (tester : LinkTester)
    : Result InterLinksBuilder.t :=
  match builder with
  | Throw message => Throw message
  | Ok b =>
      if Qltb distanceSq (maxDistanceSq tester) then
        match getType tester structure infoA infoB distanceSq with
        | Some type =>
            if InteractionType.truthy type then InterLinksBuilder.add i j type b else Ok b
        | None => Ok b
        end
      else Ok b
  end.

(** The body of [for (let r = 0; r < count; ++r)]: no test of [j] against [i]. *)
Definition scanNeighborInter (structure : Structure) (infoA infoB : Features.Info) (i : nat)
    (testers : list LinkTester) (builder : Result InterLinksBuilder.t) (found : nat * Q)
    : Result InterLinksBuilder.t :=
  let '(j, distanceSq) := found in
  let infoB := Features.setFeature infoB j in
  fold_left (testPairInter structure infoA infoB i j distanceSq) testers builder.

(** [imageA] for feature [i] of unit A. *)
Definition imageOf `{InterUnitGeometry} (unitA unitB : Unit.t) (dataA : Features.Data) (i : nat)
    : Q * Q * Q :=
  let imageA := (Features.x dataA !!! i, Features.y dataA !!! i, Features.z dataA !!! i) in
  match imageTransform unitA unitB with
  | Some transform => transform imageA
  | None => imageA
  end.

(** [Vec3.squaredDistance(imageA, center) > testDistanceSq], where
    [testDistanceSq] is the square of [radius + maxDistanceSq]; without a
    tester that is the square of [-Infinity], which nothing exceeds. *)
Definition beyondBoundary `{InterUnitGeometry} (lookup3d : Lookup3D) (maxDistanceSq : option Q)
    (imageA : Q * Q * Q) : bool :=
  let '(center, radius) := boundarySphere lookup3d in
  match maxDistanceSq with
  | None => false
  | Some m => Qltb ((radius + m) * (radius + m)) (Vec3_squaredDistance imageA center)
  end.

(** The body of [for (let i = 0; i < count; ++i)]. *)
Definition scanFeatureInter `{InterUnitGeometry} (structure : Structure) (unitA unitB : Unit.t)
    (dataA : Features.Data) (lookup3d : Lookup3D) (infoA infoB : Features.Info)
    (maxDistanceSq : option Q) (testers : list LinkTester)
    (builder : Result InterLinksBuilder.t) (i : nat) : Result InterLinksBuilder.t :=
  let imageA := imageOf unitA unitB dataA i in
  if beyondBoundary lookup3d maxDistanceSq imageA then builder
  else
    let found := lookup3d imageA.1.1 imageA.1.2 imageA.2 (Some MAX_DISTANCE) in
    let infoA := Features.setFeature infoA i in
    fold_left (scanNeighborInter structure infoA infoB i testers) found builder.

(** [addStructureLinks(structure, unitA, featuresA, unitB, featuresB, builder,
    testers)].  Reading [featuresB.lookup3d] fills the cell of [featuresB], so
    these features are returned with the outcome. *)
Definition addStructureLinks `{Collaborators} `{InterUnitGeometry} (structure : Structure)
    (unitA : Unit.t) (featuresA : Features.t) (unitB : Unit.t) (featuresB : Features.t)
    (builder : InterLinksBuilder.t) (testers : list LinkTester)
    : Features.t * Result InterLinksBuilder.t :=
  let dataA := Features.data featuresA in
  let '(lookup3d, featuresB) := Features.lookup3d featuresB in
  let maxDistanceSq := Math_max (map maxDistanceSq testers) in
  (featuresB,
   match Features.Info_of structure unitA featuresA with
   | Throw message => Throw message
   | Ok infoA =>
       match Features.Info_of structure unitB featuresB with
       | Throw message => Throw message
       | Ok infoB =>
           let builder := InterLinksBuilder.startUnitPair unitA unitB builder in
           match fold_left (scanFeatureInter structure unitA unitB dataA lookup3d infoA infoB
                              maxDistanceSq testers)
                           (seq 0 (Features.count dataA)) (Ok builder) with
           | Throw message => Throw message
           | Ok builder => InterLinksBuilder.finishUnitPair builder
           end
       end
   end).

(** The edges the inter-unit scan records, written as comprehensions. *)
Definition interNeighborEdges (structure : Structure) (infoA infoB : Features.Info) (i : nat)
    (testers : list LinkTester) (found : nat * Q) : list Edge :=
  testers ≫= pairEdges structure infoA (Features.setFeature infoB found.1) i found.1 found.2.

Definition interFeatureEdges `{InterUnitGeometry} (structure : Structure) (unitA unitB : Unit.t)
    (dataA : Features.Data) (lookup3d : Lookup3D) (infoA infoB : Features.Info)
    (maxDistanceSq : option Q) (testers : list LinkTester) (i : nat) : list Edge :=
  let imageA := imageOf unitA unitB dataA i in
  if beyondBoundary lookup3d maxDistanceSq imageA then []
  else lookup3d imageA.1.1 imageA.1.2 imageA.2 (Some MAX_DISTANCE)
       ≫= interNeighborEdges structure (Features.setFeature infoA i) infoB i testers.

Definition interLinkEdges `{InterUnitGeometry} (structure : Structure) (unitA unitB : Unit.t)
    (dataA : Features.Data) (lookup3d : Lookup3D) (infoA infoB : Features.Info)
    (testers : list LinkTester) : list Edge :=
  seq 0 (Features.count dataA)
  ≫= interFeatureEdges structure unitA unitB dataA lookup3d infoA infoB
       (Math_max (map maxDistanceSq testers)) testers.

(** [builder.add] for each edge of a list on an outcome. *)
Definition addAllTo (builder : Result InterLinksBuilder.t) (edges : list Edge)
    : Result InterLinksBuilder.t :=
  match builder with
  | Throw message => Throw message
  | Ok b => InterLinksBuilder.addAll edges b
  end.

(** A second unit for the sample: the atoms of [Sample.unit] moved by 1 along
    [y], with its own valence model; no image transform, and a boundary
    sphere of radius 10 around the origin. *)
Module SamplePair.

Definition unitB : Unit.t :=
  {| Unit.id := 1;
     Unit.elements := [0; 1; 2; 3];
     Unit.conformation_x := Unit.conformation_x Sample.unit;
     Unit.conformation_y := λ e, (Unit.conformation_y Sample.unit e + 1)%Q;
     Unit.conformation_z := λ _, 0%Q;
     Unit.residueIndex := [0; 0; 1; 1] |}.

Definition structure : Structure :=
  {| units := [Sample.unit; unitB];
     valenceModel := Some {[ 0 := {| idealGeometry := [] |}; 1 := {| idealGeometry := [] |} ]} |}.

Definition geometry : InterUnitGeometry :=
  {| imageTransform := λ _ _, None;
     boundarySphere := λ _, ((0%Q, 0%Q, 0%Q), 10%Q);
     Vec3_squaredDistance := λ a b, Sample.squaredDistance a.1.1 a.1.2 a.2 b.1.1 b.1.2 b.2 |}.

Definition featuresA `{Collaborators} : Features.t :=
  (FeaturesBuilder.getFeatures 4
     (addUnitHalogenAcceptors structure Sample.unit
        (addUnitHalogenDonors structure Sample.unit (FeaturesBuilder.create 2048 1024)))).1.

Definition featuresB `{Collaborators} : Features.t :=
  (FeaturesBuilder.getFeatures 4
     (addUnitHalogenAcceptors structure unitB
        (addUnitHalogenDonors structure unitB (FeaturesBuilder.create 2048 1024)))).1.

End SamplePair.

(* ===================================================================== *)
(** * Properties *)
(* ===================================================================== *)

(** Two features of one member each, atoms 1 and 0: the index lists feature 1
    for atom 0 and feature 0 for atom 1. *)
Example createElementsIndex_single :
  Features.createElementsIndex
    {| Features.count := 2; Features.x := []; Features.y := []; Features.z := [];
       Features.types := []; Features.groups := [];
       Features.offsets := [0; 1; 2]; Features.members := [1; 0] |} 2
  = {| Features.indices := [1; 0]; Features.index_offsets := [0; 1; 2] |}.
Proof. reflexivity. Qed.

(** ** The builder *)

Section Builder.
Import FeaturesBuilder.

Lemma run_snoc calls c b : run (calls ++ [c]) b = call (run calls b) c.
Proof. unfold run. by rewrite fold_left_app. Qed.

Lemma runRecorded_snoc calls c b :
  runRecorded (calls ++ [c]) b =
  (call (runRecorded calls b).1 c, record (runRecorded calls b).1 (runRecorded calls b).2 c).
Proof. unfold runRecorded. by rewrite fold_left_app. Qed.

Lemma runRecorded_run calls b : (runRecorded calls b).1 = run calls b.
Proof.
  induction calls as [|c calls IH] using rev_ind; [done|].
  by rewrite runRecorded_snoc, run_snoc, <- IH.
Qed.

(** No call assigns [state.count] anything but 0. *)
Lemma call_state_count b c :
  state_count (state b) = 0 → state_count (state (call b c)) = 0.
Proof.
  intros Hb. destruct c; simpl; try done.
  unfold addState. by rewrite Hb.
Qed.

Lemma run_state_count calls b :
  state_count (state b) = 0 → state_count (state (run calls b)) = 0.
Proof.
  intros Hb. induction calls as [|c calls IH] using rev_ind; [done|].
  rewrite run_snoc. by apply call_state_count.
Qed.

Lemma addState_noop type group b :
  state_count (state b) = 0 → addState type group b = b.
Proof. intros Hb. unfold addState. by rewrite Hb. Qed.

End Builder.

Lemma run_pushes_arrays (pushes : list (Q * Q * Q * nat)) (b : FeaturesBuilder.t) :
  let b' := FeaturesBuilder.run
              ((λ p, FeaturesBuilder.CallPushMember p.1.1.1 p.1.1.2 p.1.2 p.2) <$> pushes) b in
  FeaturesBuilder.xCenters b' = FeaturesBuilder.xCenters b ∧
  FeaturesBuilder.members b' = FeaturesBuilder.members b ++ pushes.*2.
Proof.
  revert b. induction pushes as [|p pushes IH]; intros b b'.
  - simpl. by rewrite app_nil_r.
  - subst b'. rewrite fmap_cons.
    change (FeaturesBuilder.run (?c :: ?l) b)
      with (FeaturesBuilder.run l (FeaturesBuilder.call b c)).
    destruct (IH (FeaturesBuilder.call b
                    (FeaturesBuilder.CallPushMember p.1.1.1 p.1.1.2 p.1.2 p.2))) as [-> ->].
    simpl. by rewrite <- app_assoc.
Qed.

(** C1 (the code departs from the claim).  On a builder obtained from
    [FeaturesBuilder.create] by any calls, [clearState()] followed by any
    number of [pushMember] calls leaves [state.count] at 0, so the following
    [addState(type, group)] returns at [if (count === 0) return]: the builder
    is unchanged, no centre is stored and no feature appended, and the pushed
    members stay in [members]. *)
Theorem addState_after_pushes_appends_nothing (initialCount chunkSize : nat)
    (history : list FeaturesBuilder.Call) (pushes : list (Q * Q * Q * nat))
    (type : FeatureType.t) (group : FeatureGroup.t) :
  let b0 := FeaturesBuilder.run history (FeaturesBuilder.create initialCount chunkSize) in
  let b := FeaturesBuilder.run
             ((λ p, FeaturesBuilder.CallPushMember p.1.1.1 p.1.1.2 p.1.2 p.2) <$> pushes)
             (FeaturesBuilder.clearState b0) in
  FeaturesBuilder.addState type group b = b ∧
  FeaturesBuilder.xCenters (FeaturesBuilder.addState type group b) = FeaturesBuilder.xCenters b0 ∧
  FeaturesBuilder.members (FeaturesBuilder.addState type group b)
    = FeaturesBuilder.members b0 ++ pushes.*2.
Proof.
  intros b0 b.
  assert (Hb : FeaturesBuilder.state_count (FeaturesBuilder.state b) = 0).
  { unfold b. apply run_state_count. done. }
  rewrite (addState_noop _ _ _ Hb).
  destruct (run_pushes_arrays pushes (FeaturesBuilder.clearState b0)) as [Hx Hm].
  fold b in Hx, Hm. by rewrite Hx, Hm.
Qed.

(** The failing input of C1: three members pushed, then [addState].  The
    claim expects one feature with the centre [mean [1; 3; 2]] = 2 on each
    axis; [getFeatures] returns none, and the three members at the head of
    [members]. *)
Example addState_centroid_missing :
  let b := FeaturesBuilder.run
             [FeaturesBuilder.CallClearState;
              FeaturesBuilder.CallPushMember 1 2 3 0;
              FeaturesBuilder.CallPushMember 3 2 1 1;
              FeaturesBuilder.CallPushMember 2 2 2 2;
              FeaturesBuilder.CallAddState FeatureType.AromaticRing FeatureGroup.None]
             (FeaturesBuilder.create 2048 1024) in
  Features.count (Features.data (FeaturesBuilder.getFeatures 3 b).1) = 0 ∧
  FeaturesBuilder.xCenters b = [] ∧
  take 3 (Features.members (Features.data (FeaturesBuilder.getFeatures 3 b).1)) = [0; 1; 2] ∧
  (mean [1; 3; 2] == 2)%Q.
Proof. repeat split. Qed.

(** The root of C1: no call leaves [state.count] other than 0, whatever the
    calls made on a builder from [FeaturesBuilder.create]. *)
Theorem state_count_never_incremented (initialCount chunkSize : nat)
    (calls : list FeaturesBuilder.Call) :
  FeaturesBuilder.state_count
    (FeaturesBuilder.state
       (FeaturesBuilder.run calls (FeaturesBuilder.create initialCount chunkSize))) = 0.
Proof. by apply run_state_count. Qed.

(** C2 (the code departs from the claim).  On every builder, [addOne(type,
    group, x, y, z, m)] appends one feature and the member [m], while
    [clearState(); pushMember(x, y, z, m); addState(type, group)] appends the
    member and no feature: [pushMember] leaves [state.count] at 0 and
    [addState] returns at [if (count === 0) return].  The [Features] values
    of a following [getFeatures] differ by that feature. *)
Theorem addOne_unlike_push_addState (b : FeaturesBuilder.t) (type : FeatureType.t)
    (group : FeatureGroup.t) (x y z : Q) (m elementsCount : nat) :
  let b1 := FeaturesBuilder.addOne type group x y z m b in
  let b2 := FeaturesBuilder.addState type group
              (FeaturesBuilder.pushMember x y z m (FeaturesBuilder.clearState b)) in
  let f1 := (FeaturesBuilder.getFeatures elementsCount b1).1 in
  let f2 := (FeaturesBuilder.getFeatures elementsCount b2).1 in
  FeaturesBuilder.members b1 = FeaturesBuilder.members b ++ [m] ∧
  FeaturesBuilder.members b2 = FeaturesBuilder.members b ++ [m] ∧
  FeaturesBuilder.types b1 = FeaturesBuilder.types b ++ [type] ∧
  FeaturesBuilder.types b2 = FeaturesBuilder.types b ∧
  Features.count (Features.data f1) = Features.count (Features.data f2) + 1 ∧
  f1 ≠ f2.
Proof.
  intros b1 b2 f1 f2.
  assert (Hb2 : b2 = FeaturesBuilder.pushMember x y z m (FeaturesBuilder.clearState b)).
  { unfold b2. by apply addState_noop. }
  assert (Hcount : Features.count (Features.data f1) = Features.count (Features.data f2) + 1).
  { unfold f1, f2. rewrite Hb2. simpl. by rewrite length_app. }
  split; [done|]. split; [by rewrite Hb2|]. split; [done|]. split; [by rewrite Hb2|].
  split; [done|]. intros Heq. rewrite Heq in Hcount. lia.
Qed.

(** The failing input of C2 on a new builder: one feature against none. *)
Example addOne_unlike_push_addState_new :
  let b1 := FeaturesBuilder.addOne FeatureType.HalogenDonor FeatureGroup.None 1 2 3 0
              (FeaturesBuilder.create 2048 1024) in
  let b2 := FeaturesBuilder.addState FeatureType.HalogenDonor FeatureGroup.None
              (FeaturesBuilder.pushMember 1 2 3 0
                 (FeaturesBuilder.clearState (FeaturesBuilder.create 2048 1024))) in
  Features.count (Features.data (FeaturesBuilder.getFeatures 1 b1).1) = 1 ∧
  Features.count (Features.data (FeaturesBuilder.getFeatures 1 b2).1) = 0 ∧
  FeaturesBuilder.members b1 = [0] ∧ FeaturesBuilder.members b2 = [0].
Proof. repeat split. Qed.

Section BuilderInvariant.
Import FeaturesBuilder.

Lemma call_initialCount b c : initialCount (call b c) = initialCount b.
Proof. destruct c; simpl; try done. unfold addState. by destruct (Nat.eqb _ _). Qed.

Lemma run_initialCount calls b : initialCount (run calls b) = initialCount b.
Proof.
  induction calls as [|c calls IH] using rev_ind; [done|].
  by rewrite run_snoc, call_initialCount.
Qed.

Lemma builderInv_create ic cs :
  builderInv (create ic cs) {| pending := []; recorded := []; pushedAfter := [] |}.
Proof.
  unfold builderInv; simpl. repeat split; try done.
Qed.

Lemma builderInv_call b g c : builderInv b g → builderInv (call b c) (record b g c).
Proof.
  intros (Hc & Hx & Hr & Hp & Hm).
  destruct c as [|x y z m|type group|type group x y z m]; cbn [call record].
  - repeat split; try done.
  - unfold builderInv.
    cbn [pushMember offsets members recorded pushedAfter xCenters state state_count].
    split; [done|]. split; [done|]. split; [done|].
    split; [by rewrite length_alter|].
    intros i o Ho. destruct (Hm i o Ho) as (m' & ms & Hrec & Hpa & Hmem & Hnext).
    assert (Hi : i < length (offsets b)) by by eapply lookup_lt_Some.
    destruct (decide (i + 1 < length (offsets b))) as [Hlt|Hge].
    + exists m', ms. split; [done|]. split; [|split].
      * rewrite list_lookup_alter_ne by lia. done.
      * by apply lookup_app_l_Some.
      * rewrite lookup_app_l in Hnext by done. by rewrite lookup_app_l by done.
    + assert (Hlast : i + 1 = length (offsets b)) by lia.
      rewrite Hlast, list_lookup_middle in Hnext by done. injection Hnext as Hlen.
      exists m', (ms ++ [m]). split; [done|]. split; [|split].
      * replace (length (pushedAfter g) - 1) with i by lia.
        by rewrite list_lookup_alter_eq, Hpa.
      * by apply lookup_app_l_Some.
      * rewrite Hlast, list_lookup_middle by done. rewrite !length_app. simpl. f_equal. lia.
  - rewrite Hc. cbn [Nat.eqb]. rewrite (addState_noop _ _ _ Hc). repeat split; done.
  - unfold builderInv.
    cbn [addOne offsets members recorded pushedAfter xCenters state].
    split; [done|]. split; [rewrite !length_app; simpl; lia|].
    split; [rewrite !length_app; simpl; lia|]. split; [rewrite !length_app; simpl; lia|].
    intros i o Ho. apply lookup_app_Some in Ho as [Ho | [Hge Ho]].
    + destruct (Hm i o Ho) as (m' & ms & Hrec & Hpa & Hmem & Hnext).
      assert (Hi : i < length (offsets b)) by by eapply lookup_lt_Some.
      exists m', ms. split; [by apply lookup_app_l_Some|].
      split; [by apply lookup_app_l_Some|]. split; [by apply lookup_app_l_Some|].
      rewrite <- app_assoc. destruct (decide (i + 1 < length (offsets b))) as [Hlt|Hge].
      * rewrite lookup_app_l in Hnext by done. by rewrite lookup_app_l by done.
      * assert (Hlast : i + 1 = length (offsets b)) by lia.
        rewrite Hlast, list_lookup_middle in Hnext by done.
        rewrite Hlast. rewrite lookup_app_r by lia. rewrite Nat.sub_diag. simpl. done.
    + apply list_lookup_singleton_Some in Ho as [Hi0 <-].
      assert (i = length (offsets b)) as -> by lia.
      exists m, []. split; [|split; [|split]].
      * rewrite <- Hr. by rewrite list_lookup_middle.
      * rewrite <- Hp. by rewrite list_lookup_middle.
      * by rewrite list_lookup_middle.
      * rewrite <- app_assoc. rewrite lookup_app_r by lia.
        replace (length (offsets b) + 1 - length (offsets b)) with 1 by lia.
        simpl. rewrite length_app. simpl. f_equal. lia.
Qed.

Lemma builderInv_run ic cs calls :
  builderInv (runRecorded calls (create ic cs)).1 (runRecorded calls (create ic cs)).2.
Proof.
  induction calls as [|c calls IH] using rev_ind; [apply builderInv_create|].
  rewrite runRecorded_snoc. simpl. by apply builderInv_call.
Qed.

(** The offsets with the closing offset are strictly increasing. *)
Lemma builderInv_offsets_lt b g i j oi oj :
  builderInv b g → i < j →
  (offsets b ++ [length (members b)]) !! i = Some oi →
  (offsets b ++ [length (members b)]) !! j = Some oj →
  oi < oj.
Proof.
  intros (Hc & Hx & Hr & Hp & Hm). revert oj. induction j as [|j IH]; intros oj Hij Hi Hj; [lia|].
  assert (Hjlen : j < length (offsets b)).
  { apply lookup_lt_Some in Hj. rewrite length_app in Hj. simpl in Hj. lia. }
  destruct (lookup_lt_is_Some_2 (offsets b) j Hjlen) as [o Ho].
  destruct (Hm j o Ho) as (m & ms & _ & _ & _ & Hnext).
  replace (j + 1) with (S j) in Hnext by lia. rewrite Hj in Hnext. injection Hnext as ->.
  destruct (decide (i = j)) as [->|Hne].
  - rewrite (lookup_app_l_Some _ _ _ _ Ho) in Hi. injection Hi as ->. lia.
  - assert (oi < o); [|lia]. apply IH; [lia|done|by apply lookup_app_l_Some].
Qed.

End BuilderInvariant.

Section Compact.
Context {A : Type} (zero : A) (n : nat) (content : list A) (flag : bool).

Lemma compact_content : ∃ unused, FeaturesBuilder.compact zero n content flag = content ++ unused.
Proof.
  unfold FeaturesBuilder.compact. destruct (_ && _); [by eexists|].
  exists []. by rewrite app_nil_r.
Qed.

Lemma compact_lookup i :
  i < length content → FeaturesBuilder.compact zero n content flag !! i = content !! i.
Proof. intros Hi. destruct compact_content as [unused ->]. by rewrite lookup_app_l. Qed.

Lemma compact_take : take (length content) (FeaturesBuilder.compact zero n content flag) = content.
Proof. destruct compact_content as [unused ->]. by rewrite take_app_length. Qed.

Lemma compact_range o k :
  o + k ≤ length content →
  take k (drop o (FeaturesBuilder.compact zero n content flag)) = take k (drop o content).
Proof.
  intros Hle. destruct compact_content as [unused ->].
  rewrite drop_app_le by lia. rewrite take_app_le; [done|]. rewrite length_drop. lia.
Qed.

Lemma compact_length :
  length (FeaturesBuilder.compact zero n content true) =
  if length content <=? n then n else length content.
Proof.
  unfold FeaturesBuilder.compact. simpl. destruct (Nat.leb_spec (length content) n); [|done].
  rewrite length_app, length_replicate. lia.
Qed.

End Compact.

Section BuilderFeatures.
Import FeaturesBuilder.

(** The offsets of the [Features] value [getFeatures] returns, up to the
    closing one. *)
Lemma getFeatures_offsets n b i :
  i ≤ length (offsets b) →
  Features.offsets (Features.data (getFeatures n b).1) !! i
  = (offsets b ++ [length (members b)]) !! i.
Proof.
  intros Hi. cbn [getFeatures fst Features.create Features.data Features.offsets].
  apply compact_lookup. rewrite length_app. simpl. lia.
Qed.

(** A member range that lies within the members added. *)
Lemma getFeatures_memberRange n b i o o' :
  i < length (offsets b) →
  (offsets b ++ [length (members b)]) !! i = Some o →
  (offsets b ++ [length (members b)]) !! (i + 1) = Some o' →
  o ≤ o' → o' ≤ length (members b) →
  memberRange (Features.data (getFeatures n b).1) i = take (o' - o) (drop o (members b)).
Proof.
  intros Hi Ho Ho' Hle Hlen. unfold memberRange.
  rewrite !getFeatures_offsets by lia. rewrite Ho, Ho'.
  cbn [getFeatures fst Features.create Features.data Features.members].
  apply compact_range. lia.
Qed.

End BuilderFeatures.

(** C3 (counterexample).  After [addOne(.., 7)], a candidate pushed with
    [pushMember(.., 9)] and discarded with [clearState()], on a builder from
    [FeaturesBuilder.create()]: the range of feature 0 is [[7; 9]], two slots,
    though the feature was recorded with the single member 7; and [offsets]
    and [members] are the builder's first chunks, of 2048 entries each, not
    [count + 1] = 2 and [offsets[count]] = 2. *)
Lemma memberRange_exceeds_recorded :
  let bg := runRecorded
              [FeaturesBuilder.CallAddOne FeatureType.HalogenDonor FeatureGroup.None 0 0 0 7;
               FeaturesBuilder.CallClearState;
               FeaturesBuilder.CallPushMember 1 1 1 9;
               FeaturesBuilder.CallClearState] (FeaturesBuilder.create 2048 1024) in
  let d := Features.data (FeaturesBuilder.getFeatures 10 bg.1).1 in
  recorded bg.2 = [[7]] ∧
  memberRange d 0 = [7; 9] ∧
  ¬ (∀ i, i < Features.count d → recorded bg.2 !! i = Some (memberRange d i)) ∧
  Features.count d = 1 ∧
  length (Features.offsets d) = 2048 ∧
  length (Features.offsets d) ≠ Features.count d + 1 ∧
  Features.offsets d !! Features.count d = Some 2 ∧
  Features.offsets d !! Features.count d ≠ Some (length (Features.members d)).
Proof.
  intros bg d. split; [done|]. split; [done|]. split.
  - intros H. specialize (H 0 ltac:(vm_compute; lia)). vm_compute in H. discriminate H.
  - vm_compute. repeat split; discriminate.
Qed.

(** C3 (amended).  For the [Features] value [getFeatures] returns after any
    calls on a builder from [FeaturesBuilder.create]: the entries
    [offsets[0 .. count]] are non-decreasing and [offsets[count]] is the number
    of members added, which are the head of [members]; [offsets] and
    [members] have [initialCount] entries while their content fits the first
    chunk, and are cut to size otherwise; one member list is recorded per
    feature, it is not empty and it is a prefix of
    [members[offsets[i] .. offsets[i+1]-1]]; it is that whole range for a
    feature after which no member was pushed before the next feature was
    appended. *)
Theorem getFeatures_offsets_members (initialCount chunkSize : nat)
    (calls : list FeaturesBuilder.Call) (elementsCount : nat) :
  let bg := runRecorded calls (FeaturesBuilder.create initialCount chunkSize) in
  let d := Features.data (FeaturesBuilder.getFeatures elementsCount bg.1).1 in
  let added := length (FeaturesBuilder.members bg.1) in
  (∀ i j oi oj, i ≤ j → j ≤ Features.count d →
     Features.offsets d !! i = Some oi → Features.offsets d !! j = Some oj → oi ≤ oj) ∧
  Features.offsets d !! Features.count d = Some added ∧
  take added (Features.members d) = FeaturesBuilder.members bg.1 ∧
  length (Features.offsets d)
    = (if Features.count d + 1 <=? initialCount then initialCount else Features.count d + 1) ∧
  length (Features.members d) = (if added <=? initialCount then initialCount else added) ∧
  length (recorded bg.2) = Features.count d ∧
  (∀ i, i < Features.count d →
     ∃ ms, recorded bg.2 !! i = Some ms ∧ ms ≠ [] ∧ ms `prefix_of` memberRange d i) ∧
  (∀ i, i < Features.count d → pushedAfter bg.2 !! i = Some [] →
     recorded bg.2 !! i = Some (memberRange d i)).
Proof.
  intros bg d added.
  pose proof (builderInv_run initialCount chunkSize calls) as Hinv. fold bg in Hinv.
  pose proof Hinv as (Hc & Hx & Hr & Hp & Hm).
  set (b := bg.1) in *.
  assert (Hic : FeaturesBuilder.initialCount b = initialCount).
  { unfold b, bg. by rewrite runRecorded_run, run_initialCount. }
  assert (Hcount : Features.count d = length (FeaturesBuilder.offsets b)) by (simpl; done).
  assert (Hoffs : ∀ i, i ≤ Features.count d →
            Features.offsets d !! i
            = (FeaturesBuilder.offsets b ++ [length (FeaturesBuilder.members b)]) !! i).
  { intros i Hi. apply getFeatures_offsets. lia. }
  assert (Hrange : ∀ i, i < Features.count d →
            ∃ o m ms, recorded bg.2 !! i = Some [m] ∧ pushedAfter bg.2 !! i = Some ms ∧
                      memberRange d i = m :: take (length ms) (drop (S o) (FeaturesBuilder.members b))).
  { intros i Hi. rewrite Hcount in Hi.
    destruct (lookup_lt_is_Some_2 (FeaturesBuilder.offsets b) i Hi) as [o Ho].
    destruct (Hm i o Ho) as (m & ms & Hrec & Hpa & Hmem & Hnext).
    assert (Hbound : o + 1 + length ms ≤ length (FeaturesBuilder.members b)).
    { destruct (decide (i + 1 < length (FeaturesBuilder.offsets b))) as [Hlt|Hge].
      - rewrite lookup_app_l in Hnext by done.
        destruct (Hm _ _ Hnext) as (m' & _ & _ & _ & Hmem' & _).
        apply lookup_lt_Some in Hmem'. lia.
      - replace (i + 1) with (length (FeaturesBuilder.offsets b)) in Hnext by lia.
        rewrite list_lookup_middle in Hnext by done. injection Hnext as Hn. lia. }
    exists o, m, ms. split; [done|]. split; [done|].
    unfold d. rewrite (getFeatures_memberRange elementsCount b i o (o + 1 + length ms));
      [|done|by apply lookup_app_l_Some|done|lia|done].
    replace (o + 1 + length ms - o) with (S (length ms)) by lia.
    by rewrite (drop_S _ _ _ Hmem). }
  split; [|split; [|split; [|split; [|split; [|split; [|split]]]]]].
  - intros i j oi oj Hij Hj. rewrite !Hoffs by lia. intros Hi Hj'.
    destruct (decide (i = j)) as [->|Hne].
    + rewrite Hi in Hj'. injection Hj' as ->. lia.
    + apply Nat.lt_le_incl. eapply (builderInv_offsets_lt b bg.2 i j); eauto. lia.
  - rewrite Hoffs by lia. rewrite Hcount. by rewrite list_lookup_middle.
  - apply compact_take.
  - unfold d. cbn [FeaturesBuilder.getFeatures fst Features.create Features.data
                   Features.offsets Features.count].
    rewrite compact_length, length_app, Hic, Hx. simpl. done.
  - unfold d. cbn [FeaturesBuilder.getFeatures fst Features.create Features.data
                   Features.members].
    by rewrite compact_length, Hic.
  - by rewrite Hr, Hcount.
  - intros i Hi. destruct (Hrange i Hi) as (o & m & ms & Hrec & Hpa & ->).
    exists [m]. split; [done|]. split; [done|]. by eexists.
  - intros i Hi Hnone. destruct (Hrange i Hi) as (o & m & ms & Hrec & Hpa & ->).
    rewrite Hnone in Hpa. injection Hpa as <-. by rewrite Hrec, take_0.
Qed.

(** ** The reverse index *)

(** C4 (the code departs from the claim).  One feature with the two member
    atoms 0 and 1: the counting loop runs over [count] = 1 slots of [members]
    instead of all [offsets[count]] = 2, atom 1 gets an empty bucket, and the
    write of feature 0 for atom 1 falls beyond the end of [indices].  The
    index lists no feature for atom 1, a member of feature 0. *)
Theorem createElementsIndex_misses_member :
  let data := {| Features.count := 1; Features.x := [0%Q]; Features.y := [0%Q];
                 Features.z := [0%Q]; Features.types := [FeatureType.AromaticRing];
                 Features.groups := [FeatureGroup.None];
                 Features.offsets := [0; 2]; Features.members := [0; 1] |} in
  let index := Features.createElementsIndex data 2 in
  index = {| Features.indices := [0]; Features.index_offsets := [0; 1; 1] |} ∧
  memberRange data 0 = [0; 1] ∧
  featuresOf index 0 = [0] ∧
  featuresOf index 1 = [].
Proof. vm_compute. done. Qed.

(** The same data comes out of the builder: [addOne] for atom 0, then a
    [pushMember] for atom 1. *)
Example createElementsIndex_misses_member_built :
  let b := FeaturesBuilder.run
             [FeaturesBuilder.CallAddOne FeatureType.AromaticRing FeatureGroup.None 0 0 0 0;
              FeaturesBuilder.CallPushMember 0 0 0 1] (FeaturesBuilder.create 2048 1024) in
  let f := (FeaturesBuilder.getFeatures 2 b).1 in
  memberRange (Features.data f) 0 = [0; 1] ∧
  featuresOf (Features.elementsIndex f).1 1 = [].
Proof. vm_compute. done. Qed.

(** ** The reverse index on single-member features *)

Section ElementsIndex.
Variable members : list nat.
Variable elementsCount : nat.
Hypothesis members_bounded : Forall (λ a, a < elementsCount) members.

Let n := length members.
Let size (a : nat) : nat := length (occurrences members a n).

Lemma occurrences_S a k :
  occurrences members a (S k) =
  occurrences members a k ++ (if decide (members !! k = Some a) then [k] else []).
Proof.
  unfold occurrences. rewrite seq_S, filter_app. f_equal.
Qed.

Lemma occurrences_length_mono a k k' :
  k ≤ k' → length (occurrences members a k) ≤ length (occurrences members a k').
Proof.
  induction 1 as [|k' _ IH]; [done|].
  rewrite occurrences_S, length_app. lia.
Qed.

Lemma occurrences_length_lt a k :
  members !! k = Some a → length (occurrences members a k) < size a.
Proof.
  intros Hk. assert (S k ≤ n) by (by apply lookup_lt_Some in Hk).
  pose proof (occurrences_length_mono a (S k) n ltac:(lia)) as Hle.
  rewrite occurrences_S, length_app, decide_True in Hle by done. simpl in Hle.
  unfold size. lia.
Qed.

Lemma bucketStart_mono a b : a ≤ b → bucketStart size a ≤ bucketStart size b.
Proof. induction 1; simpl; lia. Qed.

(** The counting loop. *)
Lemma countMember_sizes k :
  k ≤ n →
  let sizes := fold_left (Features.countMember members) (seq 0 k) (replicate elementsCount 0) in
  length sizes = elementsCount ∧
  ∀ a, a < elementsCount → sizes !! a = Some (length (occurrences members a k)).
Proof.
  induction k as [|k IH]; intros Hk sizes.
  - subst sizes. simpl. rewrite length_replicate. split; [done|].
    intros a Ha. by rewrite lookup_replicate_2.
  - subst sizes. rewrite seq_S, fold_left_app. simpl.
    destruct (IH ltac:(lia)) as [Hlen Hsz].
    set (sizes := fold_left _ _ _) in *.
    destruct (lookup_lt_is_Some_2 members k ltac:(unfold n in Hk; lia)) as [a0 Ha0].
    assert (Hb : a0 < elementsCount).
    { exact (Forall_lookup_1 _ _ _ _ members_bounded Ha0). }
    unfold Features.countMember. rewrite Ha0, (Hsz a0 Hb).
    split; [by rewrite length_insert|].
    intros a Ha. rewrite occurrences_S, length_app.
    destruct (decide (a = a0)) as [->|Hne].
    + rewrite list_lookup_insert_eq by lia. rewrite decide_True by done. done.
    + rewrite list_lookup_insert_ne by done. rewrite decide_False by congruence.
      rewrite (Hsz a Ha). simpl. f_equal. lia.
Qed.

(** The prefix-sum loop. *)
Lemma prefix_offsets (sizes : list nat) j :
  (∀ a, a < elementsCount → sizes !! a = Some (size a)) →
  j ≤ elementsCount →
  let r := fold_left (λ '(offs, offset) i, (<[i := offset]> offs, offset + sizes !!! i))
                     (seq 0 j) (replicate (elementsCount + 1) 0, 0) in
  length r.1 = elementsCount + 1 ∧
  r.2 = bucketStart size j ∧
  ∀ a, a < j → r.1 !! a = Some (bucketStart size a).
Proof.
  intros Hsz. induction j as [|j IH]; intros Hj r.
  - subst r. simpl. rewrite length_replicate. split; [done|]. split; [done|]. lia.
  - subst r. rewrite seq_S, fold_left_app. simpl.
    destruct (IH ltac:(lia)) as (Hlen & Hoff & Hpre).
    destruct (fold_left _ (seq 0 j) _) as [offs offset]. simpl in *.
    split; [by rewrite length_insert|]. split.
    + rewrite Hoff. f_equal. apply list_lookup_total_correct, Hsz. lia.
    + intros a Ha. destruct (decide (a = j)) as [->|Hne].
      * rewrite list_lookup_insert_eq by lia. by rewrite Hoff.
      * rewrite list_lookup_insert_ne by done. apply Hpre. lia.
Qed.

(** The fill loop, every feature having the one member slot of its own index. *)
Lemma fill_buckets (elementOffsets : list nat) k :
  (∀ a, a ≤ elementsCount → elementOffsets !! a = Some (bucketStart size a)) →
  k ≤ n →
  let st := fold_left (λ st i, Features.fillFeature members (seq 0 (n + 1)) elementOffsets i st)
                      (seq 0 k)
                      (replicate (bucketStart size elementsCount) 0, replicate elementsCount 0) in
  length st.1 = bucketStart size elementsCount ∧
  length st.2 = elementsCount ∧
  (∀ a, a < elementsCount → st.2 !! a = Some (length (occurrences members a k))) ∧
  ∀ a r, a < elementsCount → r < length (occurrences members a k) →
         st.1 !! (bucketStart size a + r) = occurrences members a k !! r.
Proof.
  intros Hoffs. induction k as [|k IH]; intros Hk st.
  - subst st. simpl. rewrite !length_replicate. split; [done|]. split; [done|]. split.
    + intros a Ha. by rewrite lookup_replicate_2.
    + intros a r _ Hr. simpl in Hr. lia.
  - subst st. rewrite seq_S, fold_left_app. simpl.
    destruct (IH ltac:(lia)) as (Hlen1 & Hlen2 & Hfill & Hidx).
    destruct (fold_left _ (seq 0 k) _) as [indices bucketFill]. simpl in *.
    unfold Features.fillFeature.
    rewrite !lookup_seq_lt by lia. simpl.
    replace (k + 1 - k) with 1 by lia. simpl.
    destruct (lookup_lt_is_Some_2 members k ltac:(unfold n in Hk; lia)) as [a0 Ha0].
    assert (Hb : a0 < elementsCount) by exact (Forall_lookup_1 _ _ _ _ members_bounded Ha0).
    rewrite Ha0, (Hoffs a0 ltac:(lia)), (Hfill a0 Hb). simpl.
    pose proof (occurrences_length_lt a0 k Ha0) as Hroom.
    assert (Hend : bucketStart size a0 + size a0 ≤ bucketStart size elementsCount).
    { apply (bucketStart_mono (S a0) elementsCount). lia. }
    split; [by rewrite length_insert|]. split; [by rewrite length_insert|]. split.
    + intros a Ha. rewrite occurrences_S, length_app.
      destruct (decide (a = a0)) as [->|Hne].
      * rewrite list_lookup_insert_eq by lia. rewrite decide_True by done. done.
      * rewrite list_lookup_insert_ne by done. rewrite decide_False by congruence.
        rewrite (Hfill a Ha). simpl. f_equal. lia.
    + intros a r Ha. rewrite occurrences_S, length_app.
      destruct (decide (a = a0)) as [->|Hne].
      * rewrite decide_True by done. simpl. intros Hr.
        destruct (decide (r = length (occurrences members a0 k))) as [->|Hr'].
        -- rewrite list_lookup_insert_eq by lia. by rewrite list_lookup_middle.
        -- rewrite list_lookup_insert_ne by lia.
           rewrite lookup_app_l by lia. apply Hidx; [done|lia].
      * rewrite decide_False by congruence. simpl. rewrite app_nil_r, Nat.add_0_r. intros Hr.
        pose proof (occurrences_length_mono a k n ltac:(lia)) as Hle. fold (size a) in Hle.
        rewrite list_lookup_insert_ne; [by apply Hidx|].
        destruct (decide (a < a0)) as [Hlt|Hge].
        -- pose proof (bucketStart_mono (S a) a0 ltac:(lia)) as Hm. simpl in Hm. lia.
        -- pose proof (bucketStart_mono (S a0) a ltac:(lia)) as Hm. simpl in Hm. lia.
Qed.

End ElementsIndex.

(** The reverse index of data whose arrays are cut to size. *)
Lemma createElementsIndex_exact_members (data : Features.Data) (elementsCount : nat) :
  Features.offsets data = seq 0 (Features.count data + 1) →
  length (Features.members data) = Features.count data →
  Forall (λ a, a < elementsCount) (Features.members data) →
  ∀ a, a < elementsCount →
    featuresOf (Features.createElementsIndex data elementsCount) a =
    filter (λ i, Features.members data !! i = Some a) (seq 0 (Features.count data)).
Proof.
  intros Hoffsets Hlen Hbound a Ha.
  set (members := Features.members data) in *.
  set (n := Features.count data) in *.
  set (size := λ a, length (occurrences members a n)).
  unfold Features.createElementsIndex. fold members n. rewrite Hoffsets.
  destruct (countMember_sizes members elementsCount Hbound n ltac:(lia)) as [Hslen Hsz].
  set (sizes := fold_left (Features.countMember members) (seq 0 n) _) in *.
  pose proof (prefix_offsets members elementsCount sizes elementsCount) as Hpre.
  rewrite Hlen in Hpre. fold n size in Hpre.
  destruct (Hpre Hsz ltac:(lia)) as (Holen & Hoff & Hoffs). clear Hpre.
  destruct (fold_left _ (seq 0 elementsCount) (_, 0)) as [offsets1 offset]. simpl in Holen, Hoff, Hoffs.
  subst offset.
  set (offsets2 := <[elementsCount := bucketStart size elementsCount]> offsets1).
  assert (Hoffs2 : ∀ a, a ≤ elementsCount → offsets2 !! a = Some (bucketStart size a)).
  { intros b Hb. unfold offsets2. destruct (decide (b = elementsCount)) as [->|Hne].
    - by rewrite list_lookup_insert_eq by lia.
    - rewrite list_lookup_insert_ne by done. apply Hoffs. lia. }
  pose proof (fill_buckets members elementsCount Hbound offsets2 n) as Hfill.
  rewrite Hlen in Hfill. fold n size in Hfill.
  destruct (Hfill Hoffs2 ltac:(lia)) as (Hilen & _ & _ & Hidx). clear Hfill.
  destruct (fold_left _ (seq 0 n) (_, _)) as [indices1 bucketFill]. simpl in Hilen, Hidx.
  unfold featuresOf. simpl.
  rewrite (Hoffs2 a ltac:(lia)), (Hoffs2 (a + 1) ltac:(lia)).
  replace (a + 1) with (S a) by lia. simpl.
  replace (bucketStart size a + size a - bucketStart size a) with (size a) by lia.
  change (filter _ (seq 0 n)) with (occurrences members a n).
  apply list_eq. intros r.
  destruct (decide (r < size a)) as [Hr|Hr].
  - rewrite lookup_take_lt by done. rewrite lookup_drop. by apply Hidx.
  - rewrite lookup_take_ge by lia. symmetry. apply lookup_ge_None. unfold size in Hr. lia.
Qed.

(** A loop whose steps agree on the elements it visits. *)
Lemma fold_left_agree {A B} (f g : B → A → B) (l : list A) (b : B) :
  (∀ a, a ∈ l → ∀ b, f b a = g b a) → fold_left f l b = fold_left g l b.
Proof.
  revert b. induction l as [|a l IH]; intros b Hfg; [done|].
  simpl. rewrite (Hfg a) by left. apply IH. intros a' Ha'. apply Hfg. by right.
Qed.

Lemma filter_agree {A} (P Q : A → Prop) `{∀ x, Decision (P x)} `{∀ x, Decision (Q x)}
    (l : list A) :
  (∀ x, x ∈ l → P x ↔ Q x) → filter P l = filter Q l.
Proof.
  induction l as [|a l IH]; intros HPQ; [done|].
  rewrite !filter_cons. rewrite IH by (intros x Hx; apply HPQ; by right).
  destruct (decide (P a)) as [HP|HP], (decide (Q a)) as [HQ|HQ]; try done.
  - destruct HQ. apply HPQ; [left|done].
  - destruct HP. apply HPQ; [left|done].
Qed.

(** [createElementsIndex] reads the offsets up to [offsets[count]] and, for
    single-member features, the first [count] members: slots beyond them,
    such as the unused slots of a chunk, do not matter. *)
Lemma createElementsIndex_reads_prefix (data : Features.Data) (elementsCount : nat) :
  take (Features.count data + 1) (Features.offsets data) = seq 0 (Features.count data + 1) →
  Features.createElementsIndex data elementsCount =
  Features.createElementsIndex
    {| Features.count := Features.count data;
       Features.x := Features.x data; Features.y := Features.y data;
       Features.z := Features.z data;
       Features.types := Features.types data; Features.groups := Features.groups data;
       Features.offsets := seq 0 (Features.count data + 1);
       Features.members := take (Features.count data) (Features.members data) |}
    elementsCount.
Proof.
  intros Hoffsets.
  set (n := Features.count data) in *.
  assert (Ho : ∀ i, i ≤ n → Features.offsets data !! i = Some i).
  { intros i Hi. rewrite <- (lookup_take_lt _ (n + 1)) by lia. rewrite Hoffsets.
    by rewrite lookup_seq_lt by lia. }
  unfold Features.createElementsIndex.
  cbn [Features.count Features.members Features.offsets]. fold n.
  rewrite (fold_left_agree (Features.countMember (Features.members data))
             (Features.countMember (take n (Features.members data)))).
  2:{ intros i Hi%elem_of_seq b. unfold Features.countMember.
      by rewrite lookup_take_lt by lia. }
  destruct (fold_left _ (seq 0 elementsCount) (_, 0)) as [offsets1 offset].
  rewrite (fold_left_agree
             (λ st i, Features.fillFeature (Features.members data) (Features.offsets data)
                        (<[elementsCount:=offset]> offsets1) i st)
             (λ st i, Features.fillFeature (take n (Features.members data)) (seq 0 (n + 1))
                        (<[elementsCount:=offset]> offsets1) i st)); [done|].
  intros i Hi%elem_of_seq st. unfold Features.fillFeature.
  rewrite !Ho by lia. rewrite !lookup_seq_lt by lia. rewrite !Nat.add_0_l.
  replace (i + 1 - i) with 1 by lia. cbn [seq fold_left].
  unfold Features.fillMember. by rewrite lookup_take_lt by lia.
Qed.

(** The reverse index of single-member features, whatever follows the
    offsets and members read. *)
Lemma createElementsIndex_single_members (data : Features.Data) (elementsCount : nat) :
  take (Features.count data + 1) (Features.offsets data) = seq 0 (Features.count data + 1) →
  Features.count data ≤ length (Features.members data) →
  Forall (λ a, a < elementsCount) (take (Features.count data) (Features.members data)) →
  ∀ a, a < elementsCount →
    featuresOf (Features.createElementsIndex data elementsCount) a =
    filter (λ i, Features.members data !! i = Some a) (seq 0 (Features.count data)).
Proof.
  intros Hoffsets Hlen Hbound a Ha.
  rewrite (createElementsIndex_reads_prefix data elementsCount Hoffsets).
  rewrite createElementsIndex_exact_members; cbn [Features.count Features.members Features.offsets];
    [|done|rewrite length_take; lia|done|done].
  apply filter_agree. intros i Hi%elem_of_seq. by rewrite lookup_take_lt by lia.
Qed.

(** Where every feature has one member (feature [i] the slot [i], as after
    [addOne] calls only: the offsets up to [offsets[count]] are [0 .. count])
    and [elementsCount] bounds these members, [createElementsIndex] is the
    inverse of [members]: the features listed for atom [a] are those whose
    member is [a], in ascending order.  The arrays may be longer than
    [count + 1] and [count], as the chunks [getFeatures] returns are. *)
Theorem createElementsIndex_inverse_of_single_members (data : Features.Data) (elementsCount : nat) :
  take (Features.count data + 1) (Features.offsets data) = seq 0 (Features.count data + 1) →
  Features.count data ≤ length (Features.members data) →
  Forall (λ a, a < elementsCount) (take (Features.count data) (Features.members data)) →
  ∀ a, a < elementsCount →
    featuresOf (Features.createElementsIndex data elementsCount) a =
    filter (λ i, Features.members data !! i = Some a) (seq 0 (Features.count data)).
Proof. exact (createElementsIndex_single_members data elementsCount). Qed.

(** The reverse index of the sample: the oxygen (atom 2) is the member of
    feature 1. *)
Lemma createElementsIndex_inverse_sample :
  featuresOf (Features.createElementsIndex (Features.data (@Sample.features Sample.wideAcceptor)) 4) 2
  = [1].
Proof.
  rewrite (createElementsIndex_inverse_of_single_members
             (Features.data (@Sample.features Sample.wideAcceptor)) 4 eq_refl).
  - reflexivity.
  - apply Nat.leb_le. reflexivity.
  - repeat constructor.
  - lia.
Defined.

(** ** Comparisons on numbers *)

Lemma Qltb_true a b : Qltb a b = true ↔ (a < b)%Q.
Proof.
  unfold Qltb. rewrite negb_true_iff, <- not_true_iff_false, Qle_bool_iff.
  split; [apply Qnot_le_lt | apply Qlt_not_le].
Qed.

Lemma Qltb_false a b : Qltb a b = false ↔ (b <= a)%Q.
Proof. unfold Qltb. by rewrite negb_false_iff, Qle_bool_iff. Qed.

Lemma existsb_false_Forall {A} (f : A → bool) (l : list A) :
  existsb f l = false ↔ Forall (λ a, f a = false) l.
Proof.
  induction l as [|a l IH]; simpl; [by split; auto|].
  rewrite orb_false_iff, Forall_cons, IH. done.
Qed.

(** ** The halogen-bond tester *)

Section Tester.
Context `{Collaborators}.


Lemma halogenAngleChecks_accepts structure don acc donIndex accIndex opts :
  halogenAngleChecks structure don acc donIndex accIndex opts = IsHalogenBond ↔
  (∃ a, calcAngles structure (Features.info_unit don) donIndex (Features.info_unit acc) accIndex = [a] ∧
        (OptimalHalogenAngle - a <= opts_angleMax opts)%Q) ∧
  calcAngles structure (Features.info_unit acc) accIndex (Features.info_unit don) donIndex ≠ [] ∧
  Forall (λ b, (OptimalAcceptorAngle - b <= opts_angleMax opts)%Q)
         (calcAngles structure (Features.info_unit acc) accIndex (Features.info_unit don) donIndex).
Proof.
  unfold halogenAngleChecks.
  destruct (calcAngles structure (Features.info_unit don) donIndex (Features.info_unit acc) accIndex)
    as [|a [|a' l]].
  - split; [done|]. by intros [(a & Ha & _) _].
  - destruct (Qltb (opts_angleMax opts) (OptimalHalogenAngle - a)) eqn:Hd.
    + split; [done|]. intros [(a0 & [= <-] & Hle) _].
      apply Qltb_true in Hd. by apply Qlt_not_le in Hd.
    + apply Qltb_false in Hd.
      set (accs := calcAngles structure (Features.info_unit acc) accIndex (Features.info_unit don) donIndex).
      case_bool_decide as Hlen.
      * split; [done|]. intros (_ & Hne & _). by apply nil_length_inv in Hlen.
      * destruct (existsb _ accs) eqn:Hex.
        -- split; [done|]. intros (_ & _ & Hall).
           apply not_false_iff_true in Hex. destruct Hex. apply existsb_false_Forall.
           eapply Forall_impl; [exact Hall|]. intros b Hb. by apply Qltb_false.
        -- split; [|done]. intros _. split; [by exists a|]. split.
           ++ intros Hnil. by rewrite Hnil in Hlen.
           ++ apply existsb_false_Forall in Hex.
              eapply Forall_impl; [exact Hex|]. intros b Hb. by apply Qltb_false.
  - split; [done|]. by intros [(a0 & Ha & _) _].
Qed.

Lemma residueAndAngleChecks_not_altLoc structure don acc donIndex accIndex opts :
  residueAndAngleChecks structure don acc donIndex accIndex opts ≠ IncompatibleAltLoc.
Proof.
  unfold residueAndAngleChecks, halogenAngleChecks.
  repeat (case_bool_decide || case_match); done.
Qed.

Lemma altLoc_test altD altA :
  nonEmpty altD && nonEmpty altA && negb (bool_decide (altD = altA)) = true ↔
  altD ≠ "" ∧ altA ≠ "" ∧ altD ≠ altA.
Proof.
  unfold nonEmpty.
  rewrite !andb_true_iff, !negb_true_iff, !bool_decide_eq_false. tauto.
Qed.

End Tester.



(** C8.  For a donor/acceptor pair of different first member atoms,
    [testHalogenBond] leaves by "incompatible alternate location id" exactly
    when both alternate locations are non-empty and differ, and then answers
    nothing; when one of the two is empty, or both are equal, it goes on to the
    same-residue and angle tests, whose outcome is its outcome. *)
Theorem altLoc_rejects_iff_both_defined_and_differ `{Collaborators} (structure : Structure)
    (infoA infoB : Features.Info) (opts : Options) :
  let don := (donorAcceptor infoA infoB).1 in
  let acc := (donorAcceptor infoA infoB).2 in
  let donIndex := firstMember don in
  let accIndex := firstMember acc in
  let altD := altLoc (Features.info_unit don) donIndex in
  let altA := altLoc (Features.info_unit acc) accIndex in
  isHalogenBond (featureType infoA) (featureType infoB) = true →
  accIndex ≠ donIndex →
  (halogenBondVerdict structure infoA infoB opts = IncompatibleAltLoc ↔
   altD ≠ "" ∧ altA ≠ "" ∧ altD ≠ altA) ∧
  (altD ≠ "" ∧ altA ≠ "" ∧ altD ≠ altA → testHalogenBond structure infoA infoB opts = None) ∧
  (altD = "" ∨ altA = "" ∨ altD = altA →
   halogenBondVerdict structure infoA infoB opts =
   residueAndAngleChecks structure don acc donIndex accIndex opts).
Proof.
  intros don acc donIndex accIndex altD altA Htypes Hself.
  assert (Hv : halogenBondVerdict structure infoA infoB opts =
               if nonEmpty altD && nonEmpty altA && negb (bool_decide (altD = altA))
               then IncompatibleAltLoc
               else residueAndAngleChecks structure don acc donIndex accIndex opts).
  { unfold halogenBondVerdict. rewrite Htypes. simpl.
    subst don acc donIndex accIndex altD altA.
    destruct (donorAcceptor infoA infoB) as [don' acc']. simpl in *.
    by rewrite bool_decide_eq_false_2. }
  pose proof (altLoc_test altD altA) as Htest.
  destruct (nonEmpty altD && nonEmpty altA && negb (bool_decide (altD = altA))) eqn:Halt.
  - destruct Htest as [Htest _]. specialize (Htest eq_refl).
    split; [|split].
    + by split.
    + intros _. unfold testHalogenBond. by rewrite Hv.
    + destruct Htest as (H1 & H2 & H3). intros [He | [He | He]]; done.
  - split; [|split].
    + split.
      * rewrite Hv. intros Hbad. by apply residueAndAngleChecks_not_altLoc in Hbad.
      * intros Hbad. apply Htest in Hbad. done.
    + intros Hbad. apply Htest in Hbad. done.
    + done.
Qed.

(** C8 at the sample, where no atom has an alternate location. *)
Lemma altLoc_rejects_iff_sample :
  let C := Sample.wideAcceptor in
  @halogenBondVerdict C Sample.structure (@Sample.info C 1) (@Sample.info C 0)
    (@getOptions C Sample.props) =
  @residueAndAngleChecks C Sample.structure (@Sample.info C 0) (@Sample.info C 1)
    (Some 0) (Some 2) (@getOptions C Sample.props).
Proof.
  refine (proj2 (proj2 (@altLoc_rejects_iff_both_defined_and_differ Sample.wideAcceptor
            Sample.structure (@Sample.info Sample.wideAcceptor 1) (@Sample.info Sample.wideAcceptor 0)
            (@getOptions Sample.wideAcceptor Sample.props) _ _)) _).
  - reflexivity.
  - vm_compute. intros Heq. discriminate Heq.
  - left. reflexivity.
Defined.

(** C8 on a pair whose atoms sit in the alternate locations A and B. *)
Example altLoc_rejects_A_B :
  let C := Sample.collaborators (λ i, if Nat.eqb i 0 then "A" else "B") 180 120 in
  @halogenBondVerdict C Sample.structure (@Sample.info C 0) (@Sample.info C 1)
    (@getOptions C Sample.props) = IncompatibleAltLoc.
Proof. by vm_compute. Qed.

(** ** The pair-scanning loop as comprehensions *)

Section LoopForms.

Lemma addEdges_app b e1 e2 : addEdges (addEdges b e1) e2 = addEdges b (e1 ++ e2).
Proof. unfold addEdges. by rewrite fold_left_app. Qed.

(** A loop whose body appends edges appends the edges of all its rounds. *)
Lemma fold_left_addEdges {A} (f : IntraLinksBuilder.t → A → IntraLinksBuilder.t)
    (g : A → list Edge) :
  (∀ b a, f b a = addEdges b (g a)) →
  ∀ l b, fold_left f l b = addEdges b (l ≫= g).
Proof.
  intros Hf l. induction l as [|a l IH]; intros b; [done|].
  simpl. rewrite IH, Hf, addEdges_app. done.
Qed.

Lemma fold_left_log {A B} (f : list B → A → list B) (g : A → list B) :
  (∀ log a, f log a = log ++ g a) →
  ∀ l log, fold_left f l log = log ++ (l ≫= g).
Proof.
  intros Hf l. induction l as [|a l IH]; intros log; simpl.
  - by rewrite app_nil_r.
  - rewrite IH, Hf. by rewrite <- app_assoc.
Qed.

Lemma testPair_edges structure infoA infoB i j distanceSq builder tester :
  testPair structure infoA infoB i j distanceSq builder tester =
  addEdges builder (pairEdges structure infoA infoB i j distanceSq tester).
Proof.
  unfold testPair, pairEdges.
  destruct (Qltb _ _); [|done].
  destruct (getType _ _ _ _ _) as [type|]; [|done].
  by destruct (InteractionType.truthy type).
Qed.

Lemma scanNeighbor_edges structure infoA infoB i testers builder found :
  scanNeighbor structure infoA infoB i testers builder found =
  addEdges builder (neighborEdges structure infoA infoB i testers found).
Proof.
  unfold scanNeighbor, neighborEdges. destruct found as [j distanceSq]. simpl.
  destruct (j <=? i); [done|].
  apply fold_left_addEdges. intros b tester. apply testPair_edges.
Qed.

Lemma scanFeature_edges structure data lookup3d info maxDistanceSq testers builder i :
  scanFeature structure data lookup3d info info maxDistanceSq testers builder i =
  addEdges builder (featureEdges structure data lookup3d info maxDistanceSq testers i).
Proof.
  unfold scanFeature, featureEdges.
  apply fold_left_addEdges. intros b found. apply scanNeighbor_edges.
Qed.

Lemma logNeighbor_evaluations i testers log found :
  logNeighbor i testers log found = log ++ neighborEvaluations i testers found.
Proof.
  unfold logNeighbor, neighborEvaluations. destruct found as [j distanceSq]. simpl.
  destruct (j <=? i); [by rewrite app_nil_r|].
  apply fold_left_log. intros l tester. unfold logPair, pairEvaluations.
  destruct (Qltb _ _); [done|by rewrite app_nil_r].
Qed.

Lemma logFeature_evaluations data lookup3d maxDistanceSq testers log i :
  logFeature data lookup3d maxDistanceSq testers log i =
  log ++ featureEvaluations data lookup3d maxDistanceSq testers i.
Proof.
  unfold logFeature, featureEvaluations.
  apply fold_left_log. intros l found. apply logNeighbor_evaluations.
Qed.

Context `{Collaborators}.

Lemma lookup3d_data features : Features.data (Features.lookup3d features).2 = Features.data features.
Proof. unfold Features.lookup3d. by destruct (Features.lookup3d_cell features). Qed.

Lemma Info_of_lookup3d structure unit features :
  Features.Info_of structure unit (Features.lookup3d features).2 =
  Features.Info_of structure unit features.
Proof. unfold Features.Info_of. by rewrite lookup3d_data. Qed.

(** [addUnitLinks] appends [linkEdges] to the builder, unless [Features.Info] throws. *)
Lemma addUnitLinks_edges structure unit features builder testers :
  addUnitLinks structure unit features builder testers =
  ((Features.lookup3d features).2,
   match Features.Info_of structure unit features with
   | Throw message => Throw message
   | Ok info =>
       Ok (addEdges builder
             (linkEdges structure (Features.data features) (Features.lookup3d features).1
                        info testers))
   end).
Proof.
  unfold addUnitLinks.
  pose proof (Info_of_lookup3d structure unit features) as Hinfo.
  destruct (Features.lookup3d features) as [lookup3d features']. simpl in *.
  rewrite Hinfo. f_equal.
  destruct (Features.Info_of structure unit features) as [info|message]; [|done].
  f_equal. unfold linkEdges.
  apply fold_left_addEdges. intros b i. apply scanFeature_edges.
Qed.

Lemma addUnitLinks_evaluations_form structure unit features testers :
  addUnitLinks_evaluations structure unit features testers =
  match Features.Info_of structure unit features with
  | Throw _ => []
  | Ok _ => linkEvaluations (Features.data features) (Features.lookup3d features).1 testers
  end.
Proof.
  unfold addUnitLinks_evaluations.
  pose proof (Info_of_lookup3d structure unit features) as Hinfo.
  destruct (Features.lookup3d features) as [lookup3d features']. simpl in *.
  rewrite Hinfo.
  destruct (Features.Info_of structure unit features) as [info|message]; [|done].
  unfold linkEvaluations.
  rewrite (fold_left_log _ _ (logFeature_evaluations _ _ _ _)). done.
Qed.

End LoopForms.

(** The three arrays of a builder after [addEdges]. *)
Lemma addEdges_arrays builder edges :
  IntraLinksBuilder.aIndices (addEdges builder edges)
    = IntraLinksBuilder.aIndices builder ++ ((λ e : Edge, e.1.1) <$> edges) ∧
  IntraLinksBuilder.bIndices (addEdges builder edges)
    = IntraLinksBuilder.bIndices builder ++ ((λ e : Edge, e.1.2) <$> edges) ∧
  IntraLinksBuilder.types (addEdges builder edges)
    = IntraLinksBuilder.types builder ++ ((λ e : Edge, e.2) <$> edges).
Proof.
  revert builder. induction edges as [|e edges IH]; intros builder.
  - simpl. by rewrite !app_nil_r.
  - change (addEdges builder (e :: edges))
      with (addEdges (IntraLinksBuilder.add e.1.1 e.1.2 e.2 builder) edges).
    destruct (IH (IntraLinksBuilder.add e.1.1 e.1.2 e.2 builder)) as (-> & -> & ->).
    simpl. by rewrite <- !app_assoc.
Qed.

Lemma addedEdges_addEdges builder edges : addedEdges builder (addEdges builder edges) = edges.
Proof.
  unfold addedEdges. destruct (addEdges_arrays builder edges) as (-> & -> & ->).
  rewrite !drop_app_length.
  induction edges as [|[[a b] t] edges IH]; [done|].
  simpl. f_equal. exact IH.
Qed.

(** ** Membership in the comprehensions *)

Lemma elem_of_pairEdges structure infoA infoB i j distanceSq tester (e : Edge) :
  e ∈ pairEdges structure infoA infoB i j distanceSq tester ↔
  Qltb distanceSq (maxDistanceSq tester) = true ∧
  ∃ type, getType tester structure infoA infoB distanceSq = Some type ∧
          InteractionType.truthy type = true ∧ e = (i, j, type).
Proof.
  unfold pairEdges. destruct (Qltb _ _).
  - destruct (getType _ _ _ _ _) as [type|].
    + destruct (InteractionType.truthy type) eqn:Ht.
      * rewrite list_elem_of_singleton. split.
        -- intros ->. split; [done|]. by exists type.
        -- intros (_ & type' & [= <-] & _ & ->). done.
      * split; [by intros ?%elem_of_nil|].
        intros (_ & type' & [= <-] & Ht' & _). congruence.
    + split; [by intros ?%elem_of_nil|]. by intros (_ & type' & ? & _).
  - split; [by intros ?%elem_of_nil|]. by intros [? _].
Qed.

Lemma elem_of_linkEdges structure data lookup3d info testers (e : Edge) :
  e ∈ linkEdges structure data lookup3d info testers ↔
  ∃ i found tester type,
    i < Features.count data ∧
    found ∈ lookup3d (Features.x data !!! i) (Features.y data !!! i) (Features.z data !!! i)
              (Math_max (map maxDistanceSq testers)) ∧
    i < found.1 ∧
    tester ∈ testers ∧
    Qltb found.2 (maxDistanceSq tester) = true ∧
    getType tester structure (Features.setFeature info i) (Features.setFeature info found.1) found.2
      = Some type ∧
    InteractionType.truthy type = true ∧
    e = (i, found.1, type).
Proof.
  unfold linkEdges, featureEdges. split.
  - intros (i & (found & He & Hfound)%list_elem_of_bind & Hi)%list_elem_of_bind.
    apply elem_of_seq in Hi. unfold neighborEdges in He.
    destruct (found.1 <=? i) eqn:Hle; [by apply elem_of_nil in He|].
    apply Nat.leb_gt in Hle.
    apply list_elem_of_bind in He as (tester & He & Htester).
    apply elem_of_pairEdges in He as (Hd & type & Hty & Htruthy & ->).
    exists i, found, tester, type. repeat split; try done. lia.
  - intros (i & found & tester & type & Hi & Hfound & Hlt & Htester & Hd & Hty & Htruthy & ->).
    apply list_elem_of_bind. exists i. split; [|apply elem_of_seq; lia].
    apply list_elem_of_bind. exists found. split; [|done].
    unfold neighborEdges. apply Nat.leb_gt in Hlt. rewrite Hlt.
    apply list_elem_of_bind. exists tester. split; [|done].
    apply elem_of_pairEdges. split; [done|]. by exists type.
Qed.

Lemma elem_of_linkEvaluations data lookup3d testers (c : nat * nat * nat) :
  c ∈ linkEvaluations data lookup3d testers ↔
  ∃ i found tester,
    i < Features.count data ∧
    found ∈ lookup3d (Features.x data !!! i) (Features.y data !!! i) (Features.z data !!! i)
              (Math_max (map maxDistanceSq testers)) ∧
    i < found.1 ∧
    tester ∈ zip (seq 0 (length testers)) testers ∧
    Qltb found.2 (maxDistanceSq tester.2) = true ∧
    c = (i, found.1, tester.1).
Proof.
  unfold linkEvaluations, featureEvaluations. split.
  - intros (i & (found & He & Hfound)%list_elem_of_bind & Hi)%list_elem_of_bind.
    apply elem_of_seq in Hi. unfold neighborEvaluations in He.
    destruct (found.1 <=? i) eqn:Hle; [by apply elem_of_nil in He|].
    apply Nat.leb_gt in Hle.
    apply list_elem_of_bind in He as (tester & He & Htester).
    unfold pairEvaluations in He. destruct (Qltb _ _) eqn:Hd; [|by apply elem_of_nil in He].
    apply list_elem_of_singleton in He as ->.
    exists i, found, tester. repeat split; try done. lia.
  - intros (i & found & tester & Hi & Hfound & Hlt & Htester & Hd & ->).
    apply list_elem_of_bind. exists i. split; [|apply elem_of_seq; lia].
    apply list_elem_of_bind. exists found. split; [|done].
    unfold neighborEvaluations. apply Nat.leb_gt in Hlt. rewrite Hlt.
    apply list_elem_of_bind. exists tester. split; [|done].
    unfold pairEvaluations. rewrite Hd. by apply list_elem_of_singleton.
Qed.

(** In a list of distinct first components, the first component decides the pair. *)
Lemma NoDup_fst_eq {A B} (l : list (A * B)) (p q : A * B) :
  NoDup l.*1 → p ∈ l → q ∈ l → p.1 = q.1 → p = q.
Proof.
  induction l as [|r l IH]; intros Hnd Hp Hq Heq; [by apply elem_of_nil in Hp|].
  simpl in Hnd. apply NoDup_cons in Hnd as [Hr Hnd].
  apply elem_of_cons in Hp as [->|Hp]; apply elem_of_cons in Hq as [->|Hq].
  - done.
  - destruct Hr. rewrite Heq. by apply list_elem_of_fmap_2.
  - destruct Hr. rewrite <- Heq. by apply list_elem_of_fmap_2.
  - by apply IH.
Qed.

Lemma elem_of_zip_seq {A} (l : list A) (a : A) :
  a ∈ l → ∃ k, (k, a) ∈ zip (seq 0 (length l)) l.
Proof.
  intros [k Hk]%list_elem_of_lookup. exists k.
  apply list_elem_of_lookup. exists k.
  apply lookup_zip_with_Some. exists k, a. split; [done|]. split; [|done].
  apply lookup_seq. split; [done|]. by eapply lookup_lt_Some.
Qed.

Lemma NoDup_linkEvaluations data lookup3d testers :
  lookupDistinct lookup3d → NoDup (linkEvaluations data lookup3d testers).
Proof.
  intros Hdistinct. unfold linkEvaluations.
  apply NoDup_bind; [| |apply NoDup_seq].
  - intros i1 i2 c _ _ H1 H2. unfold featureEvaluations in H1, H2.
    apply list_elem_of_bind in H1 as (f1 & H1 & _). apply list_elem_of_bind in H2 as (f2 & H2 & _).
    unfold neighborEvaluations in H1, H2.
    destruct (f1.1 <=? i1); [by apply elem_of_nil in H1|].
    destruct (f2.1 <=? i2); [by apply elem_of_nil in H2|].
    apply list_elem_of_bind in H1 as (t1 & H1 & _). apply list_elem_of_bind in H2 as (t2 & H2 & _).
    unfold pairEvaluations in H1, H2.
    destruct (Qltb f1.2 _); [|by apply elem_of_nil in H1].
    destruct (Qltb f2.2 _); [|by apply elem_of_nil in H2].
    apply list_elem_of_singleton in H1, H2. congruence.
  - intros i _. unfold featureEvaluations.
    set (found := lookup3d _ _ _ _).
    assert (Hnd : NoDup found.*1) by apply Hdistinct.
    apply NoDup_bind; [| |by eapply NoDup_fmap_1].
    + intros f1 f2 c Hf1 Hf2 H1 H2. unfold neighborEvaluations in H1, H2.
      destruct (f1.1 <=? i); [by apply elem_of_nil in H1|].
      destruct (f2.1 <=? i); [by apply elem_of_nil in H2|].
      apply list_elem_of_bind in H1 as (t1 & H1 & _). apply list_elem_of_bind in H2 as (t2 & H2 & _).
      unfold pairEvaluations in H1, H2.
      destruct (Qltb f1.2 _); [|by apply elem_of_nil in H1].
      destruct (Qltb f2.2 _); [|by apply elem_of_nil in H2].
      apply list_elem_of_singleton in H1, H2.
      apply (NoDup_fst_eq found); try done. congruence.
    + intros f _. unfold neighborEvaluations. destruct (f.1 <=? i); [constructor|].
      assert (Hz : NoDup (zip (seq 0 (length testers)) testers).*1).
      { rewrite fst_zip; [apply NoDup_seq|]. by rewrite length_seq. }
      apply NoDup_bind; [| |by eapply NoDup_fmap_1].
      * intros t1 t2 c Ht1 Ht2 H1 H2. unfold pairEvaluations in H1, H2.
        destruct (Qltb f.2 (maxDistanceSq t1.2)); [|by apply elem_of_nil in H1].
        destruct (Qltb f.2 (maxDistanceSq t2.2)); [|by apply elem_of_nil in H2].
        apply list_elem_of_singleton in H1, H2.
        apply (NoDup_fst_eq (zip (seq 0 (length testers)) testers)); try done. congruence.
      * intros t _. unfold pairEvaluations. destruct (Qltb _ _); [apply NoDup_singleton|constructor].
Qed.

(** C7.  Given a lookup that returns each point at most once per query: every
    edge [addUnitLinks] records has [indexA < indexB], hence no self-loop, and
    stems from a call of [getType]; every such call is for a pair [i < j]; no
    call is made twice, so an unordered pair meets each tester at most once. *)
Theorem addUnitLinks_edges_ascending `{Collaborators} (structure : Structure) (unit : Unit.t)
    (features features' : Features.t) (builder builder' : IntraLinksBuilder.t)
    (testers : list LinkTester) :
  lookupDistinct (Features.lookup3d features).1 →
  addUnitLinks structure unit features builder testers = (features', Ok builder') →
  let evaluations := addUnitLinks_evaluations structure unit features testers in
  (∀ a b type, (a, b, type) ∈ addedEdges builder builder' →
     a < b ∧ a ≠ b ∧ ∃ k, (a, b, k) ∈ evaluations) ∧
  (∀ i j k, (i, j, k) ∈ evaluations → i < j) ∧
  NoDup evaluations ∧
  (∀ i j k, timesEvaluated evaluations (i, j, k) + timesEvaluated evaluations (j, i, k) ≤ 1).
Proof.
  intros Hdistinct Hrun evaluations.
  rewrite addUnitLinks_edges in Hrun. injection Hrun as _ Hrun.
  unfold evaluations. rewrite addUnitLinks_evaluations_form.
  destruct (Features.Info_of structure unit features) as [info|message]; [|done].
  injection Hrun as <-. rewrite addedEdges_addEdges.
  set (data := Features.data features). set (lookup3d := (Features.lookup3d features).1).
  assert (Hasc : ∀ i j k, (i, j, k) ∈ linkEvaluations data lookup3d testers → i < j).
  { intros i j k (i' & found & tester & _ & _ & Hlt & _ & _ & [= -> -> ->])%elem_of_linkEvaluations.
    done. }
  assert (Hnd : NoDup (linkEvaluations data lookup3d testers))
    by by apply NoDup_linkEvaluations.
  split; [|split; [done|split; [done|]]].
  - intros a b type (i & found & tester & type' & Hi & Hfound & Hlt & Htester & Hd & _ & _ & [= -> -> ->])
      %elem_of_linkEdges.
    split; [done|]. split; [lia|].
    destruct (elem_of_zip_seq testers tester Htester) as [k Hk]. exists k.
    apply elem_of_linkEvaluations. exists i, found, (k, tester). repeat split; done.
  - intros i j k. unfold timesEvaluated.
    set (dec := λ x y : nat * nat * nat, decide (x = y)).
    apply NoDup_ListNoDup in Hnd.
    pose proof (proj1 (NoDup_count_occ dec _) Hnd (i, j, k)) as H1.
    pose proof (proj1 (NoDup_count_occ dec _) Hnd (j, i, k)) as H2.
    destruct (count_occ dec (linkEvaluations data lookup3d testers) (i, j, k)) as [|n1] eqn:E1;
      [lia|].
    destruct (count_occ dec (linkEvaluations data lookup3d testers) (j, i, k)) as [|n2] eqn:E2;
      [lia|].
    assert (Hij : i < j).
    { apply (Hasc i j k), list_elem_of_In, (count_occ_In dec). lia. }
    assert (Hji : j < i).
    { apply (Hasc j i k), list_elem_of_In, (count_occ_In dec). lia. }
    lia.
Qed.

(** ** The sample lookup *)

Lemma pointsWithin_monotone xs ys zs count : lookupMonotone (Sample.pointsWithin xs ys zs count).
Proof.
  intros x y z r1 r2 H0 Hle found. unfold Sample.pointsWithin.
  rewrite !list_elem_of_In, !filter_In, !Qle_bool_iff. intros [Hin Hd]. split; [done|].
  apply (Qle_trans _ (r1 * r1)); [done|]. nra.
Qed.

Lemma filter_indexed_distinct {B} (p : nat * B → bool) (g : nat → B) (l : list nat) :
  NoDup l →
  NoDup (List.filter p (map (λ j, (j, g j)) l)).*1 ∧
  ∀ j, j ∈ (List.filter p (map (λ j, (j, g j)) l)).*1 → j ∈ l.
Proof.
  induction l as [|a l IH]; intros Hnd; simpl.
  - split; [constructor|]. by intros j ?%elem_of_nil.
  - apply NoDup_cons in Hnd as [Ha Hnd]. destruct (IH Hnd) as [IH1 IH2].
    destruct (p (a, g a)); simpl.
    + split.
      * apply NoDup_cons. split; [|done]. intros Hin. by apply Ha, IH2.
      * intros j [->|Hj]%elem_of_cons; [by left|]. right. by apply IH2.
    + split; [done|]. intros j Hj. right. by apply IH2.
Qed.

Lemma pointsWithin_distinct xs ys zs count : lookupDistinct (Sample.pointsWithin xs ys zs count).
Proof.
  intros x y z [r|]; unfold Sample.pointsWithin; [|constructor].
  apply filter_indexed_distinct, NoDup_seq.
Qed.

(** C7 at the sample: the one call of [getType], for the pair (0, 1), and the
    one edge it yields. *)
Lemma addUnitLinks_edges_ascending_sample :
  let C := Sample.wideAcceptor in
  NoDup (@addUnitLinks_evaluations C Sample.structure Sample.unit (@Sample.features C)
           [@createTester C Sample.props]) ∧
  @addUnitLinks_evaluations C Sample.structure Sample.unit (@Sample.features C)
     [@createTester C Sample.props] = [(0, 1, 0)] ∧
  (@addUnitLinks C Sample.structure Sample.unit (@Sample.features C) IntraLinksBuilder.create
     [@createTester C Sample.props]).2
  = Ok (IntraLinksBuilder.add 0 1 InteractionType.HalogenBond IntraLinksBuilder.create).
Proof.
  pose proof (@addUnitLinks_edges_ascending Sample.wideAcceptor Sample.structure Sample.unit
                (@Sample.features Sample.wideAcceptor)
                (@Features.lookup3d Sample.wideAcceptor (@Sample.features Sample.wideAcceptor)).2
                IntraLinksBuilder.create
                (IntraLinksBuilder.add 0 1 InteractionType.HalogenBond IntraLinksBuilder.create)
                [@createTester Sample.wideAcceptor Sample.props]
                (pointsWithin_distinct _ _ _ _) eq_refl) as (_ & _ & Hnd & _).
  split; [exact Hnd|]. split; reflexivity.
Defined.

(** ** Cutoffs *)

Lemma testHalogenBond_angleMax `{Collaborators} structure infoA infoB opts1 opts2 :
  opts_angleMax opts1 = opts_angleMax opts2 →
  testHalogenBond structure infoA infoB opts1 = testHalogenBond structure infoA infoB opts2.
Proof.
  intros Heq.
  unfold testHalogenBond, halogenBondVerdict, residueAndAngleChecks, halogenAngleChecks.
  by rewrite Heq.
Qed.

(** C6.  For two halogen-bond parameter sets with the same [angleMax] and
    [distanceMax] values [d1 <= d2], [d1] within the range the parameter
    declares, and a lookup that returns a superset for a larger radius: where
    [addUnitLinks] with the tester of [d1] returns, it returns with the tester
    of [d2] as well, and every edge the first run records, the second records,
    with the same type. *)
Theorem halogen_cutoff_monotone `{Collaborators} (structure : Structure) (unit : Unit.t)
    (features features1 : Features.t) (builder builder1 : IntraLinksBuilder.t)
    (props1 props2 : HalogenBondsProps) :
  lookupMonotone (Features.lookup3d features).1 →
  inRange HalogenBondsParams_distanceMax (distanceMax props1) →
  angleMax props1 = angleMax props2 →
  (distanceMax props1 <= distanceMax props2)%Q →
  addUnitLinks structure unit features builder [createTester props1] = (features1, Ok builder1) →
  ∃ builder2,
    addUnitLinks structure unit features builder [createTester props2] = (features1, Ok builder2) ∧
    ∀ a b type, (a, b, type) ∈ addedEdges builder builder1 → (a, b, type) ∈ addedEdges builder builder2.
Proof.
  intros Hmono [Hmin _] Hangle Hle Hrun. simpl in Hmin.
  rewrite addUnitLinks_edges in Hrun. injection Hrun as <- Hrun.
  rewrite addUnitLinks_edges.
  destruct (Features.Info_of structure unit features) as [info|message]; [|done].
  injection Hrun as <-. eexists. split; [reflexivity|].
  intros a b type. rewrite !addedEdges_addEdges, !elem_of_linkEdges.
  intros (i & found & tester & type' & Hi & Hfound & Hlt & Htester & Hd & Hty & Htruthy & He).
  apply list_elem_of_singleton in Htester as ->. simpl in Hfound, Hd, Hty.
  assert (Hsq : (distanceMax props1 * distanceMax props1
                 <= distanceMax props2 * distanceMax props2)%Q) by nra.
  exists i, found, (createTester props2), type'. repeat split; try done.
  - simpl. eapply Hmono; [|exact Hsq|exact Hfound]. nra.
  - by apply list_elem_of_singleton.
  - simpl. apply Qltb_true. apply Qltb_true in Hd. by eapply Qlt_le_trans.
  - simpl. rewrite <- Hty. apply testHalogenBond_angleMax. simpl. by rewrite Hangle.
Qed.

(** C6 at the sample: the edge found with [distanceMax] = 4 is found with 5. *)
Lemma halogen_cutoff_monotone_sample :
  let C := Sample.wideAcceptor in
  ∃ builder2,
    @addUnitLinks C Sample.structure Sample.unit (@Sample.features C) IntraLinksBuilder.create
      [@createTester C {| distanceMax := 5; angleMax := 30 |}]
    = ((@Features.lookup3d C (@Sample.features C)).2, Ok builder2) ∧
    ∀ a b type, (a, b, type) ∈ [(0, 1, InteractionType.HalogenBond)] →
                (a, b, type) ∈ addedEdges IntraLinksBuilder.create builder2.
Proof.
  refine (@halogen_cutoff_monotone Sample.wideAcceptor Sample.structure Sample.unit
            (@Sample.features Sample.wideAcceptor)
            (@Features.lookup3d Sample.wideAcceptor (@Sample.features Sample.wideAcceptor)).2
            IntraLinksBuilder.create
            (IntraLinksBuilder.add 0 1 InteractionType.HalogenBond IntraLinksBuilder.create)
            Sample.props {| distanceMax := 5; angleMax := 30 |}
            (pointsWithin_monotone _ _ _ _) _ eq_refl _ eq_refl).
  - split; vm_compute; discriminate.
  - vm_compute; discriminate.
Defined.

(** ** The providers *)

Section Providers.
Context `{Collaborators}.

Lemma fold_left_pointwise {A B} (f g : B → A → B) (l : list A) (b : B) :
  (∀ b a, f b a = g b a) → fold_left f l b = fold_left g l b.
Proof.
  intros Hfg. revert b. induction l as [|a l IH]; intros b; [done|].
  simpl. by rewrite Hfg, IH.
Qed.

(** A scan that calls the builder at the atoms a test selects. *)
Lemma fold_left_calls (p : nat → bool) (c : nat → FeaturesBuilder.Call) (l : list nat)
    (b : FeaturesBuilder.t) :
  fold_left (λ b i, if p i then FeaturesBuilder.call b (c i) else b) l b =
  FeaturesBuilder.run (c <$> List.filter p l) b.
Proof.
  revert b. induction l as [|i l IH]; intros b; [done|].
  simpl. rewrite IH. by destruct (p i).
Qed.

Lemma markBondedY_existsb (bonded : list (Unit.t * nat)) (flag : bool) :
  fold_left markBondedY bonded flag =
  flag || existsb (λ bonded : Unit.t * nat, includes Y (typeSymbol bonded.1 bonded.2)) bonded.
Proof.
  revert flag. induction bonded as [|a bonded IH]; intros flag; simpl.
  - by rewrite orb_false_r.
  - rewrite IH. unfold markBondedY. destruct (includes Y _), flag; done.
Qed.

Lemma addUnitHalogenDonors_calls structure unit b :
  addUnitHalogenDonors structure unit b =
  FeaturesBuilder.run
    (halogenDonorCall unit <$> List.filter (isHalogenDonorAtom unit) (seq 0 (length (Unit.elements unit))))
    b.
Proof.
  unfold addUnitHalogenDonors. rewrite <- fold_left_calls.
  apply fold_left_pointwise. intros b' i. unfold addHalogenDonor, isHalogenDonorAtom.
  by destruct (includes halBondElements _).
Qed.

Lemma addUnitHalogenAcceptors_calls structure unit b :
  addUnitHalogenAcceptors structure unit b =
  FeaturesBuilder.run
    (halogenAcceptorCall unit
       <$> List.filter (isHalogenAcceptorAtom structure unit) (seq 0 (length (Unit.elements unit))))
    b.
Proof.
  unfold addUnitHalogenAcceptors. rewrite <- fold_left_calls.
  apply fold_left_pointwise. intros b' i. unfold addHalogenAcceptor, isHalogenAcceptorAtom.
  rewrite markBondedY_existsb. simpl.
  destruct (includes X _); [|done]. simpl. by destruct (existsb _ _).
Qed.

(** The arrays after a run of [addOne] calls, one per atom of a list. *)
Lemma run_addOne_arrays type group (fx fy fz : nat → Q) (atoms : list nat) (b : FeaturesBuilder.t) :
  let b' := FeaturesBuilder.run
              ((λ i, FeaturesBuilder.CallAddOne type group (fx i) (fy i) (fz i) i) <$> atoms) b in
  FeaturesBuilder.types b' = FeaturesBuilder.types b ++ replicate (length atoms) type ∧
  FeaturesBuilder.groups b' = FeaturesBuilder.groups b ++ replicate (length atoms) group ∧
  FeaturesBuilder.xCenters b' = FeaturesBuilder.xCenters b ++ (fx <$> atoms) ∧
  FeaturesBuilder.yCenters b' = FeaturesBuilder.yCenters b ++ (fy <$> atoms) ∧
  FeaturesBuilder.zCenters b' = FeaturesBuilder.zCenters b ++ (fz <$> atoms) ∧
  FeaturesBuilder.offsets b' =
    FeaturesBuilder.offsets b
    ++ ((λ k, length (FeaturesBuilder.members b) + k) <$> seq 0 (length atoms)) ∧
  FeaturesBuilder.members b' = FeaturesBuilder.members b ++ atoms ∧
  FeaturesBuilder.state b' = FeaturesBuilder.state b.
Proof.
  revert b. induction atoms as [|i atoms IH]; intros b b'.
  - simpl. rewrite !app_nil_r. done.
  - subst b'. rewrite fmap_cons.
    change (FeaturesBuilder.run (?c :: ?l) b)
      with (FeaturesBuilder.run l (FeaturesBuilder.call b c)).
    cbn [FeaturesBuilder.call].
    destruct (IH (FeaturesBuilder.addOne type group (fx i) (fy i) (fz i) i b))
      as (-> & -> & -> & -> & -> & -> & -> & ->).
    cbn [FeaturesBuilder.addOne FeaturesBuilder.types FeaturesBuilder.groups
         FeaturesBuilder.xCenters FeaturesBuilder.yCenters FeaturesBuilder.zCenters
         FeaturesBuilder.offsets FeaturesBuilder.members FeaturesBuilder.state].
    rewrite <- !app_assoc. cbn [length replicate fmap list_fmap app seq].
    repeat split; try done.
    do 2 f_equal. { by rewrite Nat.add_0_r. }
    rewrite <- fmap_S_seq, <- list_fmap_compose. apply list_fmap_ext.
    intros _ k _. simpl. rewrite length_app. simpl. lia.
Qed.

Lemma includes_X e :
  includes X e = true ↔ e = Elements.N ∨ e = Elements.O ∨ e = Elements.S.
Proof.
  unfold includes, X. rewrite bool_decide_eq_true, !elem_of_cons, elem_of_nil. tauto.
Qed.

Lemma includes_Y e :
  includes Y e = true ↔ e = Elements.C ∨ e = Elements.N ∨ e = Elements.P ∨ e = Elements.S.
Proof.
  unfold includes, Y. rewrite bool_decide_eq_true, !elem_of_cons, elem_of_nil. tauto.
Qed.

End Providers.

(** C10.  [addUnitHalogenAcceptors] appends one feature per selected atom, in
    scan order: type [HalogenAcceptor], group [None], the atom's position as
    centre, the atom as the one member at the feature's offset.  Each atom is
    selected at most once, and atom [i] is selected exactly when it is an atom
    of the unit, its element is N, O or S and some atom bonded to it has
    element C, N, P or S. *)
Theorem addUnitHalogenAcceptors_features `{Collaborators} (structure : Structure) (unit : Unit.t)
    (b : FeaturesBuilder.t) :
  let atoms := List.filter (isHalogenAcceptorAtom structure unit)
                           (seq 0 (length (Unit.elements unit))) in
  let b' := addUnitHalogenAcceptors structure unit b in
  (FeaturesBuilder.types b' =
     FeaturesBuilder.types b ++ replicate (length atoms) FeatureType.HalogenAcceptor ∧
   FeaturesBuilder.groups b' =
     FeaturesBuilder.groups b ++ replicate (length atoms) FeatureGroup.None ∧
   FeaturesBuilder.xCenters b' =
     FeaturesBuilder.xCenters b
     ++ ((λ i, Unit.conformation_x unit (Unit.elements unit !!! i)) <$> atoms) ∧
   FeaturesBuilder.yCenters b' =
     FeaturesBuilder.yCenters b
     ++ ((λ i, Unit.conformation_y unit (Unit.elements unit !!! i)) <$> atoms) ∧
   FeaturesBuilder.zCenters b' =
     FeaturesBuilder.zCenters b
     ++ ((λ i, Unit.conformation_z unit (Unit.elements unit !!! i)) <$> atoms) ∧
   FeaturesBuilder.offsets b' =
     FeaturesBuilder.offsets b
     ++ ((λ k, length (FeaturesBuilder.members b) + k) <$> seq 0 (length atoms)) ∧
   FeaturesBuilder.members b' = FeaturesBuilder.members b ++ atoms ∧
   FeaturesBuilder.state b' = FeaturesBuilder.state b) ∧
  NoDup atoms ∧
  (∀ i, i ∈ atoms ↔
     i < length (Unit.elements unit) ∧
     (typeSymbol unit i = Elements.N ∨ typeSymbol unit i = Elements.O ∨
      typeSymbol unit i = Elements.S) ∧
     ∃ unitB indexB,
       (unitB, indexB) ∈ eachBondedAtom structure unit i ∧
       (typeSymbol unitB indexB = Elements.C ∨ typeSymbol unitB indexB = Elements.N ∨
        typeSymbol unitB indexB = Elements.P ∨ typeSymbol unitB indexB = Elements.S)).
Proof.
  intros atoms b'. split; [|split].
  - unfold b'. rewrite addUnitHalogenAcceptors_calls. fold atoms.
    apply (run_addOne_arrays FeatureType.HalogenAcceptor FeatureGroup.None).
  - apply NoDup_ListNoDup, List.NoDup_filter, NoDup_ListNoDup, NoDup_seq.
  - intros i. unfold atoms. rewrite list_elem_of_In, filter_In, <- list_elem_of_In, elem_of_seq.
    unfold isHalogenAcceptorAtom. rewrite andb_true_iff, includes_X, existsb_exists.
    split.
    + intros (Hi & Hx & [unitB indexB] & Hin & Hy). split; [lia|]. split; [done|].
      exists unitB, indexB. split; [by apply list_elem_of_In|]. by apply includes_Y.
    + intros (Hi & Hx & unitB & indexB & Hin & Hy). split; [lia|]. split; [done|].
      exists (unitB, indexB). split; [by apply list_elem_of_In|]. by apply includes_Y.
Qed.

(** [addUnitLinks] throws "valence model required" exactly when the structure
    has no valence model, or none for the unit; otherwise it returns, and the
    builder it returns holds the edges of [linkEdges] after its own. *)
Theorem addUnitLinks_throws_iff `{Collaborators} (structure : Structure) (unit : Unit.t)
    (features : Features.t) (builder : IntraLinksBuilder.t) (testers : list LinkTester) :
  let outcome := (addUnitLinks structure unit features builder testers).2 in
  (outcome = Throw "valence model required" ↔
   valenceModel structure = None ∨
   ∃ models, valenceModel structure = Some models ∧ models !! Unit.id unit = None) ∧
  (outcome ≠ Throw "valence model required" →
   ∃ after, outcome = Ok after ∧
            IntraLinksBuilder.aIndices builder `prefix_of` IntraLinksBuilder.aIndices after ∧
            IntraLinksBuilder.bIndices builder `prefix_of` IntraLinksBuilder.bIndices after ∧
            IntraLinksBuilder.types builder `prefix_of` IntraLinksBuilder.types after).
Proof.
  intros outcome. unfold outcome. rewrite addUnitLinks_edges. simpl.
  unfold Features.Info_of.
  destruct (valenceModel structure) as [models|]; [|split; [split; auto|done]].
  destruct (models !! Unit.id unit) as [model|] eqn:Hmodel.
  - split.
    + split; [done|]. intros [?|(models' & [= <-] & Hnone)]; [done|congruence].
    + intros _. eexists. split; [reflexivity|].
      destruct (addEdges_arrays builder
                  (linkEdges structure (Features.data features) (Features.lookup3d features).1
                     {| Features.info_unit := unit;
                        Features.info_types := Features.types (Features.data features);
                        Features.info_feature := None;
                        Features.info_members := Features.members (Features.data features);
                        Features.info_offsets := Features.offsets (Features.data features);
                        Features.info_idealGeometry := idealGeometry model |} testers))
        as (-> & -> & ->).
      repeat split; by eexists.
  - split; [|done]. split; [|done]. intros _. right. by exists models.
Qed.

(** ** The halogen-bond tester and providers, continued *)

(** [isHalogenBond] does not depend on the order of its arguments. *)
Lemma isHalogenBond_comm ti tj : isHalogenBond ti tj = isHalogenBond tj ti.
Proof.
  unfold isHalogenBond. rewrite orb_comm.
  by rewrite (andb_comm (bool_decide (tj = _))), (andb_comm (bool_decide (tj = _))).
Qed.

Lemma donorAcceptor_swap infoA infoB :
  isHalogenBond (featureType infoA) (featureType infoB) = true →
  donorAcceptor infoB infoA = donorAcceptor infoA infoB.
Proof.
  unfold isHalogenBond, donorAcceptor.
  rewrite orb_true_iff, !andb_true_iff, !bool_decide_eq_true.
  intros [[HA HB]|[HA HB]].
  - rewrite (bool_decide_eq_true_2 _ HB). rewrite bool_decide_eq_false_2; [done|]. congruence.
  - rewrite (bool_decide_eq_true_2 _ HA). rewrite bool_decide_eq_false_2; [done|]. congruence.
Qed.

(** The tester does not depend on the order of the two features: swapping
    [infoA] and [infoB] gives the same verdict and the same result. *)
Theorem testHalogenBond_order_independent `{Collaborators} (structure : Structure)
    (infoA infoB : Features.Info) (opts : Options) :
  halogenBondVerdict structure infoB infoA opts = halogenBondVerdict structure infoA infoB opts ∧
  testHalogenBond structure infoB infoA opts = testHalogenBond structure infoA infoB opts.
Proof.
  assert (Hv : halogenBondVerdict structure infoB infoA opts
               = halogenBondVerdict structure infoA infoB opts).
  { unfold halogenBondVerdict. rewrite (isHalogenBond_comm (featureType infoB)).
    destruct (isHalogenBond (featureType infoA) (featureType infoB)) eqn:Hib; [|done].
    simpl. by rewrite (donorAcceptor_swap _ _ Hib). }
  split; [done|]. unfold testHalogenBond. by rewrite Hv.
Qed.

Lemma halogenAngleChecks_wider `{Collaborators} structure don acc donIndex accIndex opts1 opts2 :
  (opts_angleMax opts1 <= opts_angleMax opts2)%Q →
  halogenAngleChecks structure don acc donIndex accIndex opts1 = IsHalogenBond →
  halogenAngleChecks structure don acc donIndex accIndex opts2 = IsHalogenBond.
Proof.
  intros Hle. rewrite !halogenAngleChecks_accepts.
  intros ((a & Ha & Hd) & Hne & Hall). split; [|split; [done|]].
  - exists a. split; [done|]. exact (Qle_trans _ _ _ Hd Hle).
  - eapply Forall_impl; [exact Hall|]. intros b Hb. exact (Qle_trans _ _ _ Hb Hle).
Qed.

(** A pair the tester accepts stays accepted under a larger [angleMax]. *)
Theorem testHalogenBond_wider_tolerance `{Collaborators} (structure : Structure)
    (infoA infoB : Features.Info) (opts1 opts2 : Options) :
  (opts_angleMax opts1 <= opts_angleMax opts2)%Q →
  testHalogenBond structure infoA infoB opts1 = Some InteractionType.HalogenBond →
  testHalogenBond structure infoA infoB opts2 = Some InteractionType.HalogenBond.
Proof.
  intros Hle. unfold testHalogenBond.
  destruct (halogenBondVerdict structure infoA infoB opts1) eqn:Hv1; try done. intros _.
  assert (Hv2 : halogenBondVerdict structure infoA infoB opts2 = IsHalogenBond); [|by rewrite Hv2].
  revert Hv1. unfold halogenBondVerdict.
  destruct (negb _); [done|].
  destruct (donorAcceptor infoA infoB) as [don acc].
  destruct (bool_decide (firstMember acc = firstMember don)); [done|].
  destruct (_ && _); [done|].
  unfold residueAndAngleChecks. destruct (bool_decide _); [done|].
  by apply halogenAngleChecks_wider.
Qed.

(** The chlorine and the oxygen of the sample, accepted with the default
    [angleMax] of 30 degrees and so with 60 degrees. *)
Lemma testHalogenBond_wider_tolerance_sample :
  (opts_angleMax (@getOptions Sample.wideAcceptor Sample.props)
   <= opts_angleMax (@getOptions Sample.wideAcceptor {| distanceMax := 4; angleMax := 60 |}))%Q ∧
  @testHalogenBond Sample.wideAcceptor Sample.structure
    (@Sample.info Sample.wideAcceptor 0) (@Sample.info Sample.wideAcceptor 1)
    (@getOptions Sample.wideAcceptor Sample.props) = Some InteractionType.HalogenBond ∧
  @testHalogenBond Sample.wideAcceptor Sample.structure
    (@Sample.info Sample.wideAcceptor 0) (@Sample.info Sample.wideAcceptor 1)
    (@getOptions Sample.wideAcceptor {| distanceMax := 4; angleMax := 60 |})
    = Some InteractionType.HalogenBond.
Proof.
  assert (Hle : (opts_angleMax (@getOptions Sample.wideAcceptor Sample.props)
                 <= opts_angleMax (@getOptions Sample.wideAcceptor
                                     {| distanceMax := 4; angleMax := 60 |}))%Q).
  { vm_compute. discriminate. }
  split; [exact Hle|]. split; [reflexivity|].
  exact (@testHalogenBond_wider_tolerance Sample.wideAcceptor Sample.structure
           (@Sample.info Sample.wideAcceptor 0) (@Sample.info Sample.wideAcceptor 1)
           _ _ Hle eq_refl).
Defined.

Lemma includes_halBondElements e :
  includes halBondElements e = true ↔
  e = Elements.CL ∨ e = Elements.BR ∨ e = Elements.I ∨ e = Elements.AT.
Proof.
  unfold includes, halBondElements. rewrite bool_decide_eq_true, !elem_of_cons, elem_of_nil. tauto.
Qed.

(** [addUnitHalogenDonors] appends one single-member feature of type
    [HalogenDonor] for each atom of the unit whose element is Cl, Br, I or At,
    in ascending atom order, each atom once, with the atom's coordinates; no
    fluorine is taken. *)
Theorem addUnitHalogenDonors_features `{Collaborators} (structure : Structure) (unit : Unit.t)
    (b : FeaturesBuilder.t) :
  let atoms := List.filter (isHalogenDonorAtom unit) (seq 0 (length (Unit.elements unit))) in
  let b' := addUnitHalogenDonors structure unit b in
  (FeaturesBuilder.types b' =
     FeaturesBuilder.types b ++ replicate (length atoms) FeatureType.HalogenDonor ∧
   FeaturesBuilder.groups b' =
     FeaturesBuilder.groups b ++ replicate (length atoms) FeatureGroup.None ∧
   FeaturesBuilder.xCenters b' =
     FeaturesBuilder.xCenters b
     ++ ((λ i, Unit.conformation_x unit (Unit.elements unit !!! i)) <$> atoms) ∧
   FeaturesBuilder.yCenters b' =
     FeaturesBuilder.yCenters b
     ++ ((λ i, Unit.conformation_y unit (Unit.elements unit !!! i)) <$> atoms) ∧
   FeaturesBuilder.zCenters b' =
     FeaturesBuilder.zCenters b
     ++ ((λ i, Unit.conformation_z unit (Unit.elements unit !!! i)) <$> atoms) ∧
   FeaturesBuilder.offsets b' =
     FeaturesBuilder.offsets b
     ++ ((λ k, length (FeaturesBuilder.members b) + k) <$> seq 0 (length atoms)) ∧
   FeaturesBuilder.members b' = FeaturesBuilder.members b ++ atoms ∧
   FeaturesBuilder.state b' = FeaturesBuilder.state b) ∧
  NoDup atoms ∧
  (∀ i, i ∈ atoms ↔
     i < length (Unit.elements unit) ∧
     (typeSymbol unit i = Elements.CL ∨ typeSymbol unit i = Elements.BR ∨
      typeSymbol unit i = Elements.I ∨ typeSymbol unit i = Elements.AT)) ∧
  (∀ i, typeSymbol unit i = "F" → i ∉ atoms).
Proof.
  intros atoms b'.
  assert (Hiff : ∀ i, i ∈ atoms ↔
     i < length (Unit.elements unit) ∧
     (typeSymbol unit i = Elements.CL ∨ typeSymbol unit i = Elements.BR ∨
      typeSymbol unit i = Elements.I ∨ typeSymbol unit i = Elements.AT)).
  { intros i. unfold atoms. rewrite list_elem_of_In, filter_In, <- list_elem_of_In, elem_of_seq.
    unfold isHalogenDonorAtom. rewrite includes_halBondElements. split.
    - intros [Hi He]. split; [lia|done].
    - intros [Hi He]. split; [lia|done]. }
  split; [|split; [|split; [done|]]].
  - unfold b'. rewrite addUnitHalogenDonors_calls. fold atoms.
    apply (run_addOne_arrays FeatureType.HalogenDonor FeatureGroup.None).
  - apply NoDup_ListNoDup, List.NoDup_filter, NoDup_ListNoDup, NoDup_seq.
  - intros i HF [_ He]%Hiff. rewrite HF in He.
    destruct He as [He|[He|[He|He]]]; discriminate He.
Qed.

(** ** Scanning nothing, and scanning everything *)

Lemma bind_all_nil {A B} (f : A → list B) (l : list A) : (∀ a, f a = []) → l ≫= f = [].
Proof. intros Hf. induction l as [|a l IH]; [done|]. by rewrite bind_cons, Hf, IH. Qed.

(** Without a tester, or without a feature, [addUnitLinks] adds nothing: it
    returns the builder as it was, or throws for the missing valence model. *)
Theorem addUnitLinks_nothing_to_scan `{Collaborators} (structure : Structure) (unit : Unit.t)
    (features : Features.t) (builder : IntraLinksBuilder.t) (testers : list LinkTester) :
  testers = [] ∨ Features.count (Features.data features) = 0 →
  (addUnitLinks structure unit features builder testers).2 =
  match Features.Info_of structure unit features with
  | Ok _ => Ok builder
  | Throw message => Throw message
  end.
Proof.
  intros Hempty. rewrite addUnitLinks_edges. simpl.
  destruct (Features.Info_of structure unit features) as [info|message]; [|done].
  assert (Hnil : linkEdges structure (Features.data features) (Features.lookup3d features).1
                           info testers = []); [|by rewrite Hnil].
  unfold linkEdges. destruct Hempty as [->| ->]; [|done].
  apply bind_all_nil. intros i. unfold featureEdges.
  apply bind_all_nil. intros found. unfold neighborEdges. by destruct (found.1 <=? i).
Qed.

(** The sample scanned without a tester. *)
Lemma addUnitLinks_nothing_to_scan_sample :
  (@addUnitLinks Sample.wideAcceptor Sample.structure Sample.unit
     (@Sample.features Sample.wideAcceptor) IntraLinksBuilder.create []).2 =
  match Features.Info_of Sample.structure Sample.unit (@Sample.features Sample.wideAcceptor) with
  | Ok _ => Ok IntraLinksBuilder.create
  | Throw message => Throw message
  end.
Proof.
  apply (@addUnitLinks_nothing_to_scan Sample.wideAcceptor Sample.structure Sample.unit
           (@Sample.features Sample.wideAcceptor) IntraLinksBuilder.create []).
  left. reflexivity.
Defined.

Lemma Math_max_upper (l : list Q) (m q : Q) :
  Math_max l = Some m → q ∈ l → (q <= m)%Q.
Proof.
  revert m. induction l as [|a l IH]; intros m Hm Hq; [by apply elem_of_nil in Hq|].
  simpl in Hm. destruct (Math_max l) as [m'|] eqn:Hl.
  - injection Hm as <-. destruct (Qle_bool a m') eqn:Hle.
    + apply Qle_bool_iff in Hle. apply elem_of_cons in Hq as [->|Hq]; [done|]. by apply IH.
    + assert (m' < a)%Q as Hlt.
      { apply Qnot_le_lt. intros Hc. apply Qle_bool_iff in Hc. congruence. }
      apply elem_of_cons in Hq as [->|Hq]; [apply Qle_refl|].
      apply Qlt_le_weak. eapply Qle_lt_trans; [|exact Hlt]. by apply IH.
  - injection Hm as <-.
    destruct l as [|b l]; [|simpl in Hl; destruct (Math_max l); discriminate Hl].
    apply elem_of_cons in Hq as [->|Hq]; [apply Qle_refl|by apply elem_of_nil in Hq].
Qed.

(** With a lookup that returns every feature within the radius, and testers
    whose largest squared cutoff is at least 1, [addUnitLinks] misses no pair:
    it records [(i, j, type)] for every [i < j] and every tester whose cutoff
    exceeds the squared distance and whose [getType] answers a truthy type.
    (The lookup is asked for the radius [maxDistanceSq], which covers the
    cutoff from 1 on.) *)
Theorem addUnitLinks_misses_no_pair `{Collaborators} (structure : Structure) (unit : Unit.t)
    (features : Features.t) (builder : IntraLinksBuilder.t) (testers : list LinkTester)
    (info : Features.Info) (dist : nat → nat → Q) (m : Q) :
  lookupFinds (Features.lookup3d features).1 (Features.data features) dist →
  Features.Info_of structure unit features = Ok info →
  Math_max (map maxDistanceSq testers) = Some m →
  (1 <= m)%Q →
  ∃ builder',
    (addUnitLinks structure unit features builder testers).2 = Ok builder' ∧
    ∀ i j tester type,
      i < j → j < Features.count (Features.data features) →
      tester ∈ testers →
      (dist i j < maxDistanceSq tester)%Q →
      getType tester structure (Features.setFeature info i) (Features.setFeature info j) (dist i j)
        = Some type →
      InteractionType.truthy type = true →
      (i, j, type) ∈ addedEdges builder builder'.
Proof.
  intros Hfinds Hinfo Hmax Hm. rewrite addUnitLinks_edges. simpl. rewrite Hinfo.
  eexists. split; [reflexivity|].
  intros i j tester type Hij Hj Htester Hd Hty Htruthy.
  rewrite addedEdges_addEdges. apply elem_of_linkEdges.
  exists i, (j, dist i j), tester, type. simpl.
  assert (Hle : (maxDistanceSq tester <= m)%Q).
  { apply (Math_max_upper _ _ _ Hmax). by apply (list_elem_of_fmap_2 maxDistanceSq). }
  repeat split; try done.
  - lia.
  - rewrite Hmax. apply Hfinds; [lia|done|nra|nra].
  - by apply Qltb_true.
Qed.

(** The lookup of the sample misses nothing. *)
Lemma pointsWithin_finds (data : Features.Data) :
  lookupFinds
    (Sample.pointsWithin (Features.x data) (Features.y data) (Features.z data) (Features.count data))
    data
    (λ i j, Sample.squaredDistance
              (Features.x data !!! i) (Features.y data !!! i) (Features.z data !!! i)
              (Features.x data !!! j) (Features.y data !!! j) (Features.z data !!! j)).
Proof.
  intros i j r Hi Hj Hr Hd. unfold Sample.pointsWithin.
  apply list_elem_of_In, filter_In. split.
  - apply list_elem_of_In, list_elem_of_fmap. exists j. split; [done|]. apply elem_of_seq. lia.
  - simpl. by apply Qle_bool_iff.
Qed.

(** The sample: the halogen bond of the chlorine and the oxygen is recorded. *)
Lemma addUnitLinks_misses_no_pair_sample :
  ∃ builder',
    (@addUnitLinks Sample.wideAcceptor Sample.structure Sample.unit
       (@Sample.features Sample.wideAcceptor) IntraLinksBuilder.create
       [@createTester Sample.wideAcceptor Sample.props]).2 = Ok builder' ∧
    (0, 1, InteractionType.HalogenBond) ∈ addedEdges IntraLinksBuilder.create builder'.
Proof.
  destruct (@addUnitLinks_misses_no_pair Sample.wideAcceptor Sample.structure Sample.unit
              (@Sample.features Sample.wideAcceptor) IntraLinksBuilder.create
              [@createTester Sample.wideAcceptor Sample.props]
              {| Features.info_unit := Sample.unit;
                 Features.info_types :=
                   Features.types (Features.data (@Sample.features Sample.wideAcceptor));
                 Features.info_feature := None;
                 Features.info_members :=
                   Features.members (Features.data (@Sample.features Sample.wideAcceptor));
                 Features.info_offsets :=
                   Features.offsets (Features.data (@Sample.features Sample.wideAcceptor));
                 Features.info_idealGeometry := [] |}
              _ 16
              (pointsWithin_finds (Features.data (@Sample.features Sample.wideAcceptor)))
              eq_refl eq_refl ltac:(vm_compute; discriminate))
    as (builder' & Hrun & Hall).
  exists builder'. split; [exact Hrun|].
  apply (Hall 0 1 (@createTester Sample.wideAcceptor Sample.props)).
  - lia.
  - vm_compute. lia.
  - apply list_elem_of_here.
  - vm_compute. reflexivity.
  - reflexivity.
  - reflexivity.
Defined.

(** Below 1 the squared cutoff is a smaller radius than the cutoff: two
    features 0.7 apart and one tester of cutoff 0.8 that accepts every pair.
    The pair passes [distanceSq < tester.maxDistanceSq] (0.49 < 0.64), but the
    lookup is asked for the radius 0.64 and does not return it. *)
Example addUnitLinks_misses_pair_below_one :
  let C := Sample.wideAcceptor in
  let data := {| Features.count := 2; Features.x := [0; 7 # 10]%Q; Features.y := [0; 0]%Q;
                 Features.z := [0; 0]%Q;
                 Features.types := [FeatureType.HydrophobicAtom; FeatureType.HydrophobicAtom];
                 Features.groups := [FeatureGroup.None; FeatureGroup.None];
                 Features.offsets := [0; 1; 2]; Features.members := [0; 1] |} in
  let tester := {| maxDistanceSq := (8 # 10) * (8 # 10);
                   getType := λ _ _ _ _, Some InteractionType.Hydrophobic |} in
  Qltb (Sample.squaredDistance 0 0 0 (7 # 10) 0 0) (maxDistanceSq tester) = true ∧
  (@addUnitLinks C Sample.structure Sample.unit (Features.create 2 data)
     IntraLinksBuilder.create [tester]).2 = Ok IntraLinksBuilder.create.
Proof. split; reflexivity. Qed.


(** In a list without repetition a value sits at one index at most. *)
Lemma occurrences_NoDup (members : list nat) (a : nat) :
  NoDup members → length (occurrences members a (length members)) ≤ 1.
Proof.
  intros Hnd. unfold occurrences.
  assert (Hall : ∀ i, i ∈ filter (λ i, members !! i = Some a) (seq 0 (length members)) →
                      members !! i = Some a).
  { by intros i [Hi _]%list_elem_of_filter. }
  assert (Hnd' : NoDup (filter (λ i, members !! i = Some a) (seq 0 (length members))))
    by apply NoDup_filter, NoDup_seq.
  destruct (filter _ _) as [|i [|j l]]; simpl; [lia|lia|].
  apply NoDup_cons in Hnd' as [Hi _]. destruct Hi.
  assert (i = j) as ->; [|by left].
  eapply NoDup_lookup; [exact Hnd| |]; apply Hall; [left|right; left].
Qed.

Lemma seq_shift_app (a b : nat) :
  ((λ k, 0 + k) <$> seq 0 a) ++ ((λ k, a + k) <$> seq 0 b) = seq 0 (a + b).
Proof.
  rewrite seq_app. f_equal.
  - rewrite <- (list_fmap_id (seq 0 a)) at 2. by apply list_fmap_ext.
  - replace (0 + a) with (a + 0) by lia. by rewrite <- (fmap_add_seq a 0 b).
Qed.

Section ProvidersIndex.
Context `{Collaborators}.
Variables (structure : Structure) (unit : Unit.t) (initialCount chunkSize : nat).

Let n := length (Unit.elements unit).
Let donors := List.filter (isHalogenDonorAtom unit) (seq 0 n).
Let acceptors := List.filter (isHalogenAcceptorAtom structure unit) (seq 0 n).
Let built := addUnitHalogenAcceptors structure unit
               (addUnitHalogenDonors structure unit
                  (FeaturesBuilder.create initialCount chunkSize)).

Lemma halogen_builder_arrays :
  FeaturesBuilder.members built = donors ++ acceptors ∧
  FeaturesBuilder.offsets built = seq 0 (length donors + length acceptors) ∧
  length (FeaturesBuilder.xCenters built) = length donors + length acceptors.
Proof.
  unfold built. rewrite addUnitHalogenAcceptors_calls, addUnitHalogenDonors_calls.
  fold n donors acceptors.
  destruct (run_addOne_arrays FeatureType.HalogenAcceptor FeatureGroup.None
              (λ i, Unit.conformation_x unit (Unit.elements unit !!! i))
              (λ i, Unit.conformation_y unit (Unit.elements unit !!! i))
              (λ i, Unit.conformation_z unit (Unit.elements unit !!! i)) acceptors
              (FeaturesBuilder.run (halogenDonorCall unit <$> donors)
                 (FeaturesBuilder.create initialCount chunkSize)))
    as (_ & _ & Hx & _ & _ & Ho & Hm & _).
  destruct (run_addOne_arrays FeatureType.HalogenDonor FeatureGroup.None
              (λ i, Unit.conformation_x unit (Unit.elements unit !!! i))
              (λ i, Unit.conformation_y unit (Unit.elements unit !!! i))
              (λ i, Unit.conformation_z unit (Unit.elements unit !!! i)) donors
              (FeaturesBuilder.create initialCount chunkSize))
    as (_ & _ & Hx0 & _ & _ & Ho0 & Hm0 & _).
  unfold halogenAcceptorCall. rewrite Hm, Ho, Hx.
  unfold halogenDonorCall. rewrite Hm0, Ho0, Hx0. simpl.
  split; [done|]. split.
  - exact (seq_shift_app (length donors) (length acceptors)).
  - by rewrite length_app, !length_fmap.
Qed.

Lemma halogen_donor_not_acceptor i :
  isHalogenDonorAtom unit i = true → isHalogenAcceptorAtom structure unit i = true → False.
Proof.
  unfold isHalogenDonorAtom, isHalogenAcceptorAtom.
  rewrite includes_halBondElements, andb_true_iff, includes_X.
  intros Hd [Ha _]. destruct Hd as [Hd|[Hd|[Hd|Hd]]]; rewrite Hd in Ha;
    destruct Ha as [Ha|[Ha|Ha]]; discriminate Ha.
Qed.

Lemma halogen_members_NoDup : NoDup (donors ++ acceptors).
Proof.
  apply NoDup_app. split; [|split].
  - apply NoDup_ListNoDup, List.NoDup_filter, NoDup_ListNoDup, NoDup_seq.
  - intros i Hd Ha. unfold donors in Hd. unfold acceptors in Ha.
    apply list_elem_of_In, filter_In in Hd as [_ Hd].
    apply list_elem_of_In, filter_In in Ha as [_ Ha].
    by eapply halogen_donor_not_acceptor.
  - apply NoDup_ListNoDup, List.NoDup_filter, NoDup_ListNoDup, NoDup_seq.
Qed.

Lemma halogen_members_bounded : Forall (λ a, a < n) (donors ++ acceptors).
Proof.
  apply Forall_app. split; apply Forall_forall; intros i Hi;
    apply list_elem_of_In, filter_In in Hi as [Hi _];
    apply list_elem_of_In, elem_of_seq in Hi; lia.
Qed.

End ProvidersIndex.

(** From the providers to the reverse index.  For the features the two
    halogen providers find in a unit, [getFeatures] sized by the unit's atom
    count and the [elementsIndex] getter: the features listed for atom [a] are
    exactly those whose member range is [[a]]; there is at most one; and there
    is one exactly when the atom is a halogen donor or a halogen acceptor. *)
Theorem halogen_features_reverse_index `{Collaborators} (structure : Structure) (unit : Unit.t)
    (initialCount chunkSize : nat) (a : nat) :
  let n := length (Unit.elements unit) in
  let features :=
    (FeaturesBuilder.getFeatures n
       (addUnitHalogenAcceptors structure unit
          (addUnitHalogenDonors structure unit
             (FeaturesBuilder.create initialCount chunkSize)))).1 in
  let index := (Features.elementsIndex features).1 in
  a < n →
  (∀ i, i ∈ featuresOf index a ↔
        i < Features.count (Features.data features) ∧
        memberRange (Features.data features) i = [a]) ∧
  length (featuresOf index a) ≤ 1 ∧
  (featuresOf index a ≠ [] ↔
   isHalogenDonorAtom unit a = true ∨ isHalogenAcceptorAtom structure unit a = true).
Proof.
  intros n features index Ha.
  destruct (halogen_builder_arrays structure unit initialCount chunkSize) as (Hm & Ho & Hx).
  change (length (Unit.elements unit)) with n in Hm, Ho, Hx.
  set (donors := List.filter (isHalogenDonorAtom unit) (seq 0 n)) in *.
  set (acceptors := List.filter (isHalogenAcceptorAtom structure unit) (seq 0 n)) in *.
  set (built := addUnitHalogenAcceptors structure unit
                  (addUnitHalogenDonors structure unit
                     (FeaturesBuilder.create initialCount chunkSize))) in *.
  set (d := Features.data features).
  set (k := length donors + length acceptors).
  assert (Hd_count : Features.count d = k) by exact Hx.
  assert (Hk : k = length (donors ++ acceptors)) by (by rewrite length_app).
  assert (Hd_member : ∀ i, i < k → Features.members d !! i = (donors ++ acceptors) !! i).
  { intros i Hi. unfold d, features.
    cbn [FeaturesBuilder.getFeatures fst Features.create Features.data Features.members].
    rewrite compact_lookup; [by rewrite Hm|]. rewrite Hm. lia. }
  assert (Hd_members : take k (Features.members d) = donors ++ acceptors).
  { unfold d, features.
    cbn [FeaturesBuilder.getFeatures fst Features.create Features.data Features.members].
    rewrite Hk, <- Hm. apply compact_take. }
  assert (Hd_offsets : take (k + 1) (Features.offsets d) = seq 0 (k + 1)).
  { unfold d, features.
    cbn [FeaturesBuilder.getFeatures fst Features.create Features.data Features.offsets].
    fold built. rewrite Ho, Hm, <- Hk. fold k.
    replace (seq 0 k ++ [k]) with (seq 0 (k + 1)) by (by rewrite seq_app).
    pose proof (compact_take 0 (FeaturesBuilder.initialCount built) (seq 0 (k + 1)) true)
      as Htake.
    by rewrite length_seq in Htake. }
  assert (Hd_offset : ∀ i, i ≤ k → Features.offsets d !! i = Some i).
  { intros i Hi. rewrite <- (lookup_take_lt _ (k + 1)) by lia. rewrite Hd_offsets.
    by rewrite lookup_seq_lt by lia. }
  assert (Hindex : featuresOf index a =
                   filter (λ i, (donors ++ acceptors) !! i = Some a) (seq 0 k)).
  { assert (Hidx : index = Features.createElementsIndex d n) by done.
    assert (H1 : take (Features.count d + 1) (Features.offsets d)
                 = seq 0 (Features.count d + 1)) by (by rewrite Hd_count).
    assert (H2 : Features.count d ≤ length (Features.members d)).
    { rewrite Hd_count. apply (f_equal length) in Hd_members.
      rewrite length_take, <- Hk in Hd_members. lia. }
    assert (H3 : Forall (λ a, a < n) (take (Features.count d) (Features.members d))).
    { rewrite Hd_count, Hd_members. apply halogen_members_bounded. }
    rewrite Hidx, (createElementsIndex_single_members d n H1 H2 H3 a Ha), Hd_count.
    apply filter_agree. intros i Hi%elem_of_seq. by rewrite Hd_member by lia. }
  rewrite Hindex.
  assert (Hrange : ∀ i, i < k → (memberRange d i = [a] ↔ (donors ++ acceptors) !! i = Some a)).
  { intros i Hi. unfold memberRange. rewrite !Hd_offset by lia.
    replace (i + 1 - i) with 1 by lia. rewrite <- Hd_member by done.
    destruct (lookup_lt_is_Some_2 (Features.members d) i) as [m Hmi].
    { apply (f_equal length) in Hd_members. rewrite length_take in Hd_members. lia. }
    rewrite (drop_S _ _ _ Hmi), Hmi. cbn [take]. rewrite take_0. split; congruence. }
  split; [|split].
  - intros i. rewrite list_elem_of_filter, elem_of_seq, Hd_count. split.
    + intros [Hi [_ Hlt]]. split; [lia|]. apply Hrange; [lia|done].
    + intros [Hlt Hi]. split; [by apply Hrange|lia].
  - rewrite Hk. apply occurrences_NoDup, halogen_members_NoDup.
  - assert (Hin : filter (λ i, (donors ++ acceptors) !! i = Some a) (seq 0 k) ≠ []
                  ↔ a ∈ donors ++ acceptors).
    { split.
      - intros Hne. destruct (filter _ _) as [|i l] eqn:Hf; [done|].
        assert (Hi : i ∈ filter (λ i, (donors ++ acceptors) !! i = Some a) (seq 0 k))
          by (rewrite Hf; left).
        apply list_elem_of_filter in Hi as [Hi _]. by eapply list_elem_of_lookup_2.
      - intros [i Hi]%list_elem_of_lookup Hnil.
        assert (Hin : i ∈ filter (λ i, (donors ++ acceptors) !! i = Some a) (seq 0 k)).
        { apply list_elem_of_filter. split; [done|]. apply elem_of_seq.
          apply lookup_lt_Some in Hi. lia. }
        rewrite Hnil in Hin. by apply elem_of_nil in Hin. }
    rewrite Hin, elem_of_app. unfold donors, acceptors.
    rewrite !list_elem_of_In, !filter_In, <- !list_elem_of_In, !elem_of_seq.
    split.
    + intros [[_ ?]|[_ ?]]; [by left|by right].
    + intros [?|?]; [left|right]; (split; [lia|done]).
Qed.

(** The oxygen of the sample (atom 2), a halogen acceptor, is listed. *)
Lemma halogen_features_reverse_index_sample :
  2 < length (Unit.elements Sample.unit) ∧
  featuresOf (Features.elementsIndex (@Sample.features Sample.wideAcceptor)).1 2 ≠ [].
Proof.
  assert (Hlt : 2 < length (Unit.elements Sample.unit)) by (simpl; lia).
  split; [exact Hlt|].
  apply (proj2 (proj2 (@halogen_features_reverse_index Sample.wideAcceptor Sample.structure
                         Sample.unit 2048 1024 2 Hlt))).
  right. reflexivity.
Defined.

(** ** A builder used after [getFeatures] *)

(** [getFeatures] closes the offsets in the builder's own array, so a builder
    used again afterwards is one offset ahead: the feature [addOne] then adds
    gets an empty member range in the next [getFeatures], while the features
    of the first [getFeatures] keep theirs; the new member lies in the range
    after the last counted feature. *)
Theorem getFeatures_reuse_empties_next_feature (initialCount chunkSize : nat)
    (calls : list FeaturesBuilder.Call)
    (n n' : nat) (type : FeatureType.t) (group : FeatureGroup.t) (x y z : Q) (member : nat) :
  let b := FeaturesBuilder.run calls (FeaturesBuilder.create initialCount chunkSize) in
  let first := FeaturesBuilder.getFeatures n b in
  let second :=
    (FeaturesBuilder.getFeatures n' (FeaturesBuilder.addOne type group x y z member first.2)).1 in
  let k := Features.count (Features.data first.1) in
  Features.count (Features.data second) = k + 1 ∧
  (∀ i, i < k → memberRange (Features.data second) i = memberRange (Features.data first.1) i) ∧
  memberRange (Features.data second) k = [] ∧
  memberRange (Features.data second) (k + 1) = [member].
Proof.
  intros b first second k.
  pose proof (builderInv_run initialCount chunkSize calls) as Hinv.
  rewrite runRecorded_run in Hinv. fold b in Hinv.
  pose proof Hinv as (Hc & Hx & Hr & Hp & Hm).
  set (M := length (FeaturesBuilder.members b)).
  set (b' := FeaturesBuilder.addOne type group x y z member first.2).
  assert (Hk : k = length (FeaturesBuilder.offsets b)) by (subst k; simpl; done).
  assert (Hsecond : second = (FeaturesBuilder.getFeatures n' b').1) by done.
  assert (Hfirst : first.1 = (FeaturesBuilder.getFeatures n b).1) by done.
  assert (Hoff' : FeaturesBuilder.offsets b' = FeaturesBuilder.offsets b ++ [M; M]).
  { unfold b', first. cbn. by rewrite <- app_assoc. }
  assert (Hmem' : FeaturesBuilder.members b' = FeaturesBuilder.members b ++ [member]) by done.
  assert (Hclosed : FeaturesBuilder.offsets b' ++ [length (FeaturesBuilder.members b')]
                    = FeaturesBuilder.offsets b ++ [M; M; M + 1]).
  { rewrite Hoff', Hmem', length_app, <- app_assoc. done. }
  assert (Hlen' : length (FeaturesBuilder.offsets b') = k + 2).
  { rewrite Hoff', length_app. simpl. lia. }
  assert (HatK : (FeaturesBuilder.offsets b ++ [M; M; M + 1]) !! k = Some M).
  { rewrite Hk. by rewrite list_lookup_middle. }
  assert (HatK1 : (FeaturesBuilder.offsets b ++ [M; M; M + 1]) !! (k + 1) = Some M).
  { rewrite lookup_app_r by lia. by replace (k + 1 - length (FeaturesBuilder.offsets b)) with 1 by lia. }
  assert (HatK2 : (FeaturesBuilder.offsets b ++ [M; M; M + 1]) !! (k + 1 + 1) = Some (M + 1)).
  { rewrite lookup_app_r by lia.
    by replace (k + 1 + 1 - length (FeaturesBuilder.offsets b)) with 2 by lia. }
  split; [|split; [|split]].
  - subst second first k b'. cbn. rewrite length_app. cbn. lia.
  - intros i Hi.
    assert (∃ o, FeaturesBuilder.offsets b !! i = Some o) as [o Ho]
      by (apply lookup_lt_is_Some; lia).
    assert (∃ o', (FeaturesBuilder.offsets b ++ [M]) !! (i + 1) = Some o') as [o' Ho'].
    { apply lookup_lt_is_Some. rewrite length_app. simpl. lia. }
    assert (Hlt : o < o').
    { apply (builderInv_offsets_lt b _ i (i + 1) o o' Hinv); [lia| |done].
      by apply lookup_app_l_Some. }
    assert (Hle : o' ≤ M).
    { destruct (decide (i + 1 < k)) as [Hlt'|Hge].
      - rewrite lookup_app_l in Ho' by lia.
        destruct (Hm _ _ Ho') as (m & _ & _ & _ & Hmem & _).
        apply lookup_lt_Some in Hmem. unfold M. lia.
      - replace (i + 1) with (length (FeaturesBuilder.offsets b)) in Ho' by lia.
        rewrite list_lookup_middle in Ho' by done. injection Ho' as <-. done. }
    rewrite Hsecond. rewrite (getFeatures_memberRange n' b' i o o'); [|lia| | |lia|].
    + rewrite Hfirst. rewrite (getFeatures_memberRange n b i o o');
        [|lia|by apply lookup_app_l_Some|done|lia|done].
      rewrite Hmem'. rewrite drop_app_le by (fold M; lia).
      rewrite take_app_le; [done|]. rewrite length_drop. fold M. lia.
    + rewrite Hclosed. by apply lookup_app_l_Some.
    + rewrite Hclosed. replace [M; M; M + 1] with ([M] ++ [M; M + 1]) by done.
      rewrite app_assoc. by apply lookup_app_l_Some.
    + rewrite Hmem', length_app. fold M. lia.
  - rewrite Hsecond. unfold memberRange. rewrite !getFeatures_offsets by lia.
    rewrite Hclosed, HatK, HatK1. by rewrite Nat.sub_diag, take_0.
  - rewrite Hsecond. rewrite (getFeatures_memberRange n' b' (k + 1) M (M + 1)).
    + replace (M + 1 - M) with 1 by lia. rewrite Hmem'. unfold M.
      by rewrite drop_app_length.
    + lia.
    + by rewrite Hclosed.
    + by rewrite Hclosed.
    + lia.
    + rewrite Hmem', length_app. fold M. simpl. lia.
Qed.

(** ** The inter-unit link builder *)

Lemma addMapEntry_lookup {B} (m : gmap nat (list B)) (a : nat) (b : B) (k : nat) :
  InterLinksBuilder.addMapEntry m a b !! k =
  if decide (k = a) then Some (default [] (m !! a) ++ [b]) else m !! k.
Proof.
  unfold InterLinksBuilder.addMapEntry.
  destruct (m !! a) as [l|] eqn:Hl; destruct (decide (k = a)) as [->|Hne]; simpl;
    rewrite ?lookup_insert_eq, ?lookup_insert_ne by done; done.
Qed.

Lemma addMapEntry_fmap {B C} (f : B → C) (m : gmap nat (list B)) (a : nat) (b : B) :
  (λ l : list B, f <$> l) <$> InterLinksBuilder.addMapEntry m a b =
  InterLinksBuilder.addMapEntry ((λ l : list B, f <$> l) <$> m) a (f b).
Proof.
  unfold InterLinksBuilder.addMapEntry. rewrite lookup_fmap.
  destruct (m !! a) as [l|]; simpl; rewrite fmap_insert; [by rewrite fmap_app|done].
Qed.

Lemma fold_addMapEntry_lookup {E B} (key : E → nat) (val : E → B) (es : list E)
    (m : gmap nat (list B)) (k : nat) :
  fold_left (λ m e, InterLinksBuilder.addMapEntry m (key e) (val e)) es m !! k =
  match val <$> List.filter (λ e, Nat.eqb (key e) k) es with
  | [] => m !! k
  | new => Some (default [] (m !! k) ++ new)
  end.
Proof.
  revert m. induction es as [|e es IH]; intros m; [done|].
  cbn [fold_left List.filter]. rewrite IH, addMapEntry_lookup.
  destruct (Nat.eqb_spec (key e) k) as [<-|Hne].
  - rewrite decide_True by done. cbn [fmap list_fmap default].
    destruct (val <$> List.filter (λ e0 : E, key e0 =? key e) es) eqn:Hf; [done|].
    simpl. by rewrite <- app_assoc.
  - by rewrite decide_False by done.
Qed.

Lemma uniqueInv_add (u : InterLinksBuilder.UniqueArray) (a : nat) :
  uniqueInv u → uniqueInv (InterLinksBuilder.UniqueArray_add u a a).
Proof.
  intros [Hk Hn]. unfold InterLinksBuilder.UniqueArray_add.
  destruct (decide (a ∈ InterLinksBuilder.keys u)) as [Hin|Hni].
  - by rewrite bool_decide_eq_true_2.
  - rewrite bool_decide_eq_false_2 by done. split; simpl.
    + intros x. rewrite elem_of_union, elem_of_singleton, elem_of_app, list_elem_of_singleton, Hk.
      tauto.
    + apply NoDup_app. split; [done|]. split; [|apply NoDup_singleton].
      intros x Hx ->%list_elem_of_singleton. apply Hni. by apply Hk.
Qed.

Lemma UniqueArray_add_elem (u : InterLinksBuilder.UniqueArray) (a x : nat) :
  uniqueInv u →
  x ∈ InterLinksBuilder.array (InterLinksBuilder.UniqueArray_add u a a) ↔ x ∈ InterLinksBuilder.array u ∨ x = a.
Proof.
  intros [Hk Hn]. unfold InterLinksBuilder.UniqueArray_add.
  destruct (decide (a ∈ InterLinksBuilder.keys u)) as [Hin|Hni].
  - rewrite bool_decide_eq_true_2 by done. split; [by left|].
    intros [?| ->]; [done|]. by apply Hk.
  - rewrite bool_decide_eq_false_2 by done. simpl.
    by rewrite elem_of_app, list_elem_of_singleton.
Qed.

Lemma fold_UniqueArray_add {E} (key : E → nat) (es : list E) (u : InterLinksBuilder.UniqueArray) :
  uniqueInv u →
  uniqueInv (fold_left (λ u e, InterLinksBuilder.UniqueArray_add u (key e) (key e)) es u) ∧
  ∀ x, x ∈ InterLinksBuilder.array (fold_left (λ u e, InterLinksBuilder.UniqueArray_add u (key e) (key e)) es u) ↔
       x ∈ InterLinksBuilder.array u ∨ ∃ e, e ∈ es ∧ key e = x.
Proof.
  revert u. induction es as [|e es IH]; intros u Hu.
  - split; [done|]. intros x. split; [by left|]. intros [?|(e & He & _)]; [done|].
    by apply elem_of_nil in He.
  - cbn [fold_left]. destruct (IH _ (uniqueInv_add u (key e) Hu)) as [Hi Hx].
    split; [done|]. intros x. rewrite Hx, UniqueArray_add_elem by done.
    split.
    + intros [[?| ->]|(e' & He' & <-)]; [by left| |].
      * right. exists e. split; [apply list_elem_of_here|done].
      * right. exists e'. split; [by apply list_elem_of_further|done].
    + intros [?|(e' & He' & <-)]; [by left; left|].
      apply elem_of_cons in He' as [->|He']; [by left; right|].
      right. by exists e'.
Qed.

Lemma uniqueInv_create : uniqueInv InterLinksBuilder.UniqueArray_create.
Proof. split; [|apply NoDup_nil_2]. intros a. simpl. rewrite elem_of_nil. set_solver. Qed.

Lemma fold_addToObjects (es : list Edge) (o : InterLinksBuilder.PairObjects) :
  fold_left (λ o e, InterLinksBuilder.addToObjects e.1.1 e.1.2 e.2 o) es o =
  {| InterLinksBuilder.mapAB := fold_left (λ m e, InterLinksBuilder.addMapEntry m e.1.1
                               {| InterLinksBuilder.indexB := e.1.2; InterLinksBuilder.type := e.2 |}) es (InterLinksBuilder.mapAB o);
     InterLinksBuilder.mapBA := fold_left (λ m e, InterLinksBuilder.addMapEntry m e.1.2
                               {| InterLinksBuilder.indexB := e.1.1; InterLinksBuilder.type := e.2 |}) es (InterLinksBuilder.mapBA o);
     InterLinksBuilder.bondedA := fold_left (λ u e, InterLinksBuilder.UniqueArray_add u e.1.1 e.1.1) es (InterLinksBuilder.bondedA o);
     InterLinksBuilder.bondedB := fold_left (λ u e, InterLinksBuilder.UniqueArray_add u e.1.2 e.1.2) es (InterLinksBuilder.bondedB o) |}.
Proof.
  revert o. induction es as [|e es IH]; intros o; [by destruct o|].
  cbn [fold_left]. by rewrite IH.
Qed.

Lemma elem_of_filter_eqb {E} (key : E → nat) (es : list E) (k : nat) (e : E) :
  e ∈ List.filter (λ e, Nat.eqb (key e) k) es ↔ e ∈ es ∧ key e = k.
Proof.
  rewrite !list_elem_of_In, filter_In. by rewrite Nat.eqb_eq.
Qed.

Lemma fold_addMapEntry_elem {E B} (key : E → nat) (val : E → B) (es : list E) (k : nat) (v : B) :
  v ∈ default [] (fold_left (λ m e, InterLinksBuilder.addMapEntry m (key e) (val e)) es ∅ !! k) ↔
  ∃ e, e ∈ es ∧ key e = k ∧ val e = v.
Proof.
  rewrite fold_addMapEntry_lookup, lookup_empty.
  assert (Hm : v ∈ val <$> List.filter (λ e, Nat.eqb (key e) k) es ↔
               ∃ e, e ∈ es ∧ key e = k ∧ val e = v).
  { rewrite list_elem_of_fmap. split.
    - intros (e & -> & [? ?]%elem_of_filter_eqb). by exists e.
    - intros (e & ? & ? & <-). exists e. split; [done|]. by apply elem_of_filter_eqb. }
  destruct (val <$> List.filter _ es) eqn:Hf; simpl; [|done].
  rewrite <- Hm. split; intros []%elem_of_nil.
Qed.

Lemma fold_addMapEntry_is_Some {E B} (key : E → nat) (val : E → B) (es : list E) (k : nat) :
  is_Some (fold_left (λ m e, InterLinksBuilder.addMapEntry m (key e) (val e)) es ∅ !! k) ↔
  ∃ e, e ∈ es ∧ key e = k.
Proof.
  rewrite fold_addMapEntry_lookup, lookup_empty.
  destruct (val <$> List.filter _ es) as [|v l] eqn:Hf.
  - apply fmap_nil_inv in Hf. split; [by intros [? ?]|].
    intros (e & He & Hk).
    assert (Hin : e ∈ List.filter (λ e, Nat.eqb (key e) k) es) by by apply elem_of_filter_eqb.
    rewrite Hf in Hin. by apply elem_of_nil in Hin.
  - split; [|by eexists]. intros _.
    assert (Hin : v ∈ val <$> List.filter (λ e, Nat.eqb (key e) k) es)
      by (rewrite Hf; apply list_elem_of_here).
    apply list_elem_of_fmap in Hin as (e & _ & [? ?]%elem_of_filter_eqb). by exists e.
Qed.

Lemma interLinks_run_app (calls1 calls2 : list InterLinksBuilder.Call) (b : InterLinksBuilder.t) :
  InterLinksBuilder.run (calls1 ++ calls2) b =
  match InterLinksBuilder.run calls1 b with
  | Ok b' => InterLinksBuilder.run calls2 b'
  | Throw message => Throw message
  end.
Proof.
  revert b. induction calls1 as [|c calls1 IH]; intros b; [done|].
  simpl. destruct (InterLinksBuilder.call c b); [apply IH|done].
Qed.

Lemma interLinks_run_adds (es : list Edge) (b : InterLinksBuilder.t) :
  InterLinksBuilder.run ((λ e, InterLinksBuilder.Add e.1.1 e.1.2 e.2) <$> es) b = InterLinksBuilder.addAll es b.
Proof.
  revert b. induction es as [|e es IH]; intros b; [done|].
  simpl. destruct (InterLinksBuilder.add _ _ _ b); [apply IH|done].
Qed.

Lemma addAll_started (es : list Edge) (b : InterLinksBuilder.t) (u : Unit.t * Unit.t)
    (os : list InterLinksBuilder.PairObjects) (o : InterLinksBuilder.PairObjects) :
  InterLinksBuilder.units b = Some u → InterLinksBuilder.objects b = os ++ [o] →
  InterLinksBuilder.addAll es b =
  Ok {| InterLinksBuilder.objects := os ++ [fold_left (λ o e, InterLinksBuilder.addToObjects e.1.1 e.1.2 e.2 o) es o];
        InterLinksBuilder.units := Some u;
        InterLinksBuilder.bondCount := InterLinksBuilder.bondCount b + length es;
        InterLinksBuilder.map := InterLinksBuilder.map b |}.
Proof.
  revert b o. induction es as [|e es IH]; intros b o Hu Ho.
  - simpl. destruct b; simpl in *. subst. by rewrite Nat.add_0_r.
  - cbn [InterLinksBuilder.addAll]. unfold InterLinksBuilder.add. rewrite Hu.
    erewrite IH; [| done |].
    + cbn [InterLinksBuilder.bondCount InterLinksBuilder.map fold_left length]. do 2 f_equal. lia.
    + cbn [InterLinksBuilder.objects]. rewrite Ho, length_app. cbn [length].
      replace (length os + 1 - 1) with (length os + 0) by lia.
      rewrite alter_app_r. done.
Qed.

Lemma wf_create : InterLinksBuilder.wf InterLinksBuilder.create.
Proof. split; [|done]. intros k ps p Hk. simpl in Hk. by rewrite lookup_empty in Hk. Qed.

Lemma addMapEntry_elem {B} (m : gmap nat (list B)) (a : nat) (b : B) (k : nat)
    (l : list B) (x : B) :
  InterLinksBuilder.addMapEntry m a b !! k = Some l → x ∈ l →
  x = b ∨ ∃ l', m !! k = Some l' ∧ x ∈ l'.
Proof.
  rewrite addMapEntry_lookup. destruct (decide (k = a)) as [->|Hne].
  - intros [= <-] [Hx|Hx%list_elem_of_singleton]%elem_of_app; [|by left].
    destruct (m !! a) as [l'|]; simpl in Hx; [|by apply elem_of_nil in Hx].
    right. by exists l'.
  - intros Hk Hx. right. by exists l.
Qed.

Lemma wf_call (c : InterLinksBuilder.Call) (b b' : InterLinksBuilder.t) :
  InterLinksBuilder.wf b → InterLinksBuilder.call c b = Ok b' → InterLinksBuilder.wf b'.
Proof.
  intros [Hp Hs]. destruct c as [uA uB|a i t|]; simpl.
  - intros [= <-]. split; simpl.
    + intros k ps p Hk Hin. rewrite length_app. specialize (Hp k ps p Hk Hin). lia.
    + intros _ Hnil. by apply app_eq_nil in Hnil as [_ ?].
  - unfold InterLinksBuilder.add. destruct (InterLinksBuilder.units b) as [u|] eqn:Hu; [|done]. intros [= <-]. split; simpl.
    + intros k ps p Hk Hin. rewrite length_alter. by apply (Hp k ps p).
    + intros _ Hnil. apply (f_equal length) in Hnil. rewrite length_alter in Hnil.
      apply Hs; [done|]. by apply nil_length_inv.
  - unfold InterLinksBuilder.finishUnitPair. destruct (InterLinksBuilder.units b) as [[uA uB]|] eqn:Hu; [|done].
    destruct (Nat.eqb (InterLinksBuilder.bondCount b) 0); intros [= <-];
      [split; [done|intros _; by apply Hs]|].
    assert (Hne : InterLinksBuilder.objects b ≠ []) by by apply Hs.
    assert (Hlen : length (InterLinksBuilder.objects b) - 1 < length (InterLinksBuilder.objects b)).
    { destruct (InterLinksBuilder.objects b); [done|]. simpl. lia. }
    split; simpl; [|done].
    intros k ps p Hk Hin.
    destruct (addMapEntry_elem _ _ _ _ _ _ Hk Hin) as [->|(l' & Hk' & Hin')]; [done|].
    destruct (addMapEntry_elem _ _ _ _ _ _ Hk' Hin') as [->|(l'' & Hk'' & Hin'')]; [done|].
    by apply (Hp k l'' p).
Qed.

Lemma wf_run (calls : list InterLinksBuilder.Call) (b b' : InterLinksBuilder.t) :
  InterLinksBuilder.wf b → InterLinksBuilder.run calls b = Ok b' → InterLinksBuilder.wf b'.
Proof.
  revert b. induction calls as [|c calls IH]; intros b Hwf; simpl.
  - by intros [= <-].
  - destruct (InterLinksBuilder.call c b) as [b1|] eqn:Hc; [|done].
    apply IH. by apply (wf_call c b).
Qed.

Lemma readPair_older (os : list InterLinksBuilder.PairObjects) (o : InterLinksBuilder.PairObjects) (p : InterLinksBuilder.PairRef) :
  InterLinksBuilder.pair_objects p < length os → InterLinksBuilder.readPair (os ++ [o]) p = InterLinksBuilder.readPair os p.
Proof. intros Hlt. unfold InterLinksBuilder.readPair. by rewrite lookup_app_l. Qed.

Lemma getLinks_older (b : InterLinksBuilder.t) (o : InterLinksBuilder.PairObjects) (m : gmap nat (list InterLinksBuilder.PairRef)) :
  (∀ k ps p, m !! k = Some ps → p ∈ ps → InterLinksBuilder.pair_objects p < length (InterLinksBuilder.objects b)) →
  (λ pairs : list InterLinksBuilder.PairRef, InterLinksBuilder.readPair (InterLinksBuilder.objects b ++ [o]) <$> pairs) <$> m =
  (λ pairs : list InterLinksBuilder.PairRef, InterLinksBuilder.readPair (InterLinksBuilder.objects b) <$> pairs) <$> m.
Proof.
  intros Hp. apply map_fmap_ext. intros k ps Hk. apply Forall_fmap_ext, Forall_forall.
  intros p Hin. apply readPair_older. by apply (Hp k ps p).
Qed.

Lemma unitPairCalls_run (b : InterLinksBuilder.t) (uA uB : Unit.t) (edges : list Edge) :
  InterLinksBuilder.run (unitPairCalls uA uB edges) b =
  Ok (match edges with
      | [] => InterLinksBuilder.startUnitPair uA uB b
      | _ =>
        {| InterLinksBuilder.objects := InterLinksBuilder.objects b ++ [InterLinksBuilder.pairObjects edges];
           InterLinksBuilder.units := Some (uA, uB);
           InterLinksBuilder.bondCount := length edges;
           InterLinksBuilder.map :=
             InterLinksBuilder.addMapEntry
               (InterLinksBuilder.addMapEntry (InterLinksBuilder.map b) (Unit.id uA)
                  {| InterLinksBuilder.pair_unitA := uA; InterLinksBuilder.pair_unitB := uB;
                     InterLinksBuilder.pair_bondCount := length edges;
                     InterLinksBuilder.pair_objects := length (InterLinksBuilder.objects b); InterLinksBuilder.pair_side := InterLinksBuilder.SideA |})
               (Unit.id uB)
               {| InterLinksBuilder.pair_unitA := uB; InterLinksBuilder.pair_unitB := uA;
                  InterLinksBuilder.pair_bondCount := length edges;
                  InterLinksBuilder.pair_objects := length (InterLinksBuilder.objects b); InterLinksBuilder.pair_side := InterLinksBuilder.SideB |} |}
      end).
Proof.
  unfold unitPairCalls. cbn [InterLinksBuilder.run InterLinksBuilder.call]. rewrite interLinks_run_app, interLinks_run_adds.
  erewrite addAll_started; [|done..].
  cbn [InterLinksBuilder.run InterLinksBuilder.call]. unfold InterLinksBuilder.finishUnitPair.
  cbn [InterLinksBuilder.units InterLinksBuilder.bondCount InterLinksBuilder.startUnitPair InterLinksBuilder.objects InterLinksBuilder.map].
  destruct edges as [|e edges]; [done|].
  cbn [length Nat.add Nat.eqb]. rewrite length_app. cbn [length].
  replace (length (InterLinksBuilder.objects b) + 1 - 1) with (length (InterLinksBuilder.objects b)) by lia.
  done.
Qed.

Lemma unitPairCalls_links (b : InterLinksBuilder.t) (uA uB : Unit.t) (edges : list Edge) :
  InterLinksBuilder.wf b →
  ∃ b', InterLinksBuilder.run (unitPairCalls uA uB edges) b = Ok b' ∧
        InterLinksBuilder.wf b' ∧
        InterLinksBuilder.getLinks b' =
        match edges with
        | [] => InterLinksBuilder.getLinks b
        | _ => InterLinksBuilder.addMapEntry
                 (InterLinksBuilder.addMapEntry (InterLinksBuilder.getLinks b) (Unit.id uA) (InterLinksBuilder.pairAB uA uB edges))
                 (Unit.id uB) (InterLinksBuilder.pairBA uA uB edges)
        end.
Proof.
  intros Hwf. eexists. split; [apply unitPairCalls_run|].
  split.
  { eapply (wf_run _ _ _ Hwf). apply unitPairCalls_run. }
  destruct edges as [|e edges].
  - unfold InterLinksBuilder.getLinks. cbn [InterLinksBuilder.startUnitPair InterLinksBuilder.objects InterLinksBuilder.map].
    apply getLinks_older, Hwf.
  - set (es := e :: edges). unfold InterLinksBuilder.getLinks. cbn [InterLinksBuilder.objects InterLinksBuilder.map].
    rewrite !(addMapEntry_fmap (InterLinksBuilder.readPair _)).
    rewrite getLinks_older by apply Hwf.
    f_equal; [f_equal|].
    + unfold InterLinksBuilder.readPair, InterLinksBuilder.pairAB. cbn [InterLinksBuilder.pair_objects InterLinksBuilder.pair_side InterLinksBuilder.pair_unitA
        InterLinksBuilder.pair_unitB InterLinksBuilder.pair_bondCount].
      by rewrite list_lookup_middle.
    + unfold InterLinksBuilder.readPair, InterLinksBuilder.pairBA. cbn [InterLinksBuilder.pair_objects InterLinksBuilder.pair_side InterLinksBuilder.pair_unitA
        InterLinksBuilder.pair_unitB InterLinksBuilder.pair_bondCount].
      by rewrite list_lookup_middle.
Qed.

(** One unit pair, from [startUnitPair] to [finishUnitPair]: the calls never
    throw; without an [add] the links are unchanged; otherwise the unit ids of
    both units gain one pair each, which depend on the edges of this unit
    pair only, and every older pair is left as it was. *)
Theorem unit_pair_links (b : InterLinksBuilder.t) (uA uB : Unit.t) (edges : list Edge) :
  InterLinksBuilder.wf b →
  ∃ b', InterLinksBuilder.run (unitPairCalls uA uB edges) b = Ok b' ∧
        InterLinksBuilder.wf b' ∧
        InterLinksBuilder.getLinks b' =
        match edges with
        | [] => InterLinksBuilder.getLinks b
        | _ => InterLinksBuilder.addMapEntry
                 (InterLinksBuilder.addMapEntry (InterLinksBuilder.getLinks b) (Unit.id uA) (InterLinksBuilder.pairAB uA uB edges))
                 (Unit.id uB) (InterLinksBuilder.pairBA uA uB edges)
        end.
Proof. apply unitPairCalls_links. Qed.

(** One unit pair with one edge on a new builder. *)
Lemma unit_pair_links_sample :
  InterLinksBuilder.wf InterLinksBuilder.create ∧
  ∃ b', InterLinksBuilder.run (unitPairCalls Sample.unit Sample.unit [(0, 1, InteractionType.HalogenBond)])
          InterLinksBuilder.create = Ok b' ∧
        InterLinksBuilder.wf b' ∧
        InterLinksBuilder.getLinks b' =
        InterLinksBuilder.addMapEntry
          (InterLinksBuilder.addMapEntry (InterLinksBuilder.getLinks InterLinksBuilder.create) (Unit.id Sample.unit)
             (InterLinksBuilder.pairAB Sample.unit Sample.unit [(0, 1, InteractionType.HalogenBond)]))
          (Unit.id Sample.unit)
          (InterLinksBuilder.pairBA Sample.unit Sample.unit [(0, 1, InteractionType.HalogenBond)]).
Proof.
  split; [apply wf_create|].
  apply (unit_pair_links InterLinksBuilder.create Sample.unit Sample.unit
           [(0, 1, InteractionType.HalogenBond)]), wf_create.
Defined.

Lemma sum_list_indicator_0 (l : list nat) (k : nat) :
  k ∉ l → sum_list ((λ a, if Nat.eqb k a then 1 else 0) <$> l) = 0.
Proof.
  induction l as [|x l IHl]; [done|]. intros Hni. rewrite fmap_cons. cbn [sum_list].
  destruct (Nat.eqb_spec k x) as [->|_].
  - exfalso. apply Hni, list_elem_of_here.
  - rewrite IHl; [done|]. intros ?. apply Hni. by apply list_elem_of_further.
Qed.

Lemma sum_list_indicator (l : list nat) (k : nat) :
  NoDup l → k ∈ l → sum_list ((λ a, if Nat.eqb k a then 1 else 0) <$> l) = 1.
Proof.
  induction 1 as [|a l Hni Hn IH]; [by intros ?%elem_of_nil|].
  intros [->|Hin]%elem_of_cons; rewrite fmap_cons; cbn [sum_list].
  - by rewrite Nat.eqb_refl, sum_list_indicator_0.
  - destruct (Nat.eqb_spec k a) as [->|_]; [done|]. by apply IH.
Qed.

Lemma sum_list_filter_lengths {E} (key : E → nat) (es : list E) (l : list nat) :
  NoDup l → (∀ e, e ∈ es → key e ∈ l) →
  sum_list ((λ a, length (List.filter (λ e, Nat.eqb (key e) a) es)) <$> l) = length es.
Proof.
  intros Hn. induction es as [|e es IH]; intros Hin.
  - cbn [List.filter length]. clear. induction l as [|a l IHl]; [done|].
    rewrite fmap_cons. cbn [sum_list]. by rewrite IHl.
  - assert (H1 := sum_list_indicator l (key e) Hn (Hin e (list_elem_of_here _ _))).
    assert (H2 := IH (λ e' He', Hin e' (list_elem_of_further _ _ _ He'))).
    enough (sum_list ((λ a, length (List.filter (λ e, Nat.eqb (key e) a) (e :: es))) <$> l) =
            sum_list ((λ a, if Nat.eqb (key e) a then 1 else 0) <$> l) +
            sum_list ((λ a, length (List.filter (λ e, Nat.eqb (key e) a) es)) <$> l))
      as Hsum.
    { rewrite Hsum; cbn [length]; lia. }
    clear. induction l as [|a l IHl]; [done|].
    rewrite !fmap_cons. cbn [sum_list]. rewrite IHl. cbn [List.filter].
    destruct (Nat.eqb (key e) a); cbn [length]; unfold id; lia.
Qed.

Lemma fold_addMapEntry_length {E B} (key : E → nat) (val : E → B) (es : list E) (k : nat) :
  length (default [] (fold_left (λ m e, InterLinksBuilder.addMapEntry m (key e) (val e)) es ∅ !! k)) =
  length (List.filter (λ e, Nat.eqb (key e) k) es).
Proof.
  rewrite fold_addMapEntry_lookup, lookup_empty.
  rewrite <- (length_fmap val (List.filter _ es)).
  by destruct (val <$> List.filter _ es).
Qed.

(** What the two pairs of a unit pair hold: each added edge [(a, b, type)] is
    found under [a] in the first pair and under [b] in the second; the
    connected indices are the distinct keys of the edge map; the edge count is
    the number of entries of either edge map. *)
Theorem unit_pair_content (uA uB : Unit.t) (edges : list Edge) :
  let AB := InterLinksBuilder.pairAB uA uB edges in
  let BA := InterLinksBuilder.pairBA uA uB edges in
  (∀ a b type, {| InterLinksBuilder.indexB := b; InterLinksBuilder.type := type |} ∈ default [] (InterLinksBuilder.edgeMap AB !! a) ↔
               (a, b, type) ∈ edges) ∧
  (∀ a b type, {| InterLinksBuilder.indexB := a; InterLinksBuilder.type := type |} ∈ default [] (InterLinksBuilder.edgeMap BA !! b) ↔
               (a, b, type) ∈ edges) ∧
  NoDup (InterLinksBuilder.connectedIndices AB) ∧ NoDup (InterLinksBuilder.connectedIndices BA) ∧
  (∀ a, a ∈ InterLinksBuilder.connectedIndices AB ↔ is_Some (InterLinksBuilder.edgeMap AB !! a)) ∧
  (∀ b, b ∈ InterLinksBuilder.connectedIndices BA ↔ is_Some (InterLinksBuilder.edgeMap BA !! b)) ∧
  sum_list ((λ a, length (default [] (InterLinksBuilder.edgeMap AB !! a))) <$> InterLinksBuilder.connectedIndices AB)
    = InterLinksBuilder.edgeCount AB ∧
  sum_list ((λ b, length (default [] (InterLinksBuilder.edgeMap BA !! b))) <$> InterLinksBuilder.connectedIndices BA)
    = InterLinksBuilder.edgeCount BA.
Proof.
  intros AB BA. subst AB BA. unfold InterLinksBuilder.pairAB, InterLinksBuilder.pairBA, InterLinksBuilder.pairObjects.
  rewrite fold_addToObjects.
  cbn [InterLinksBuilder.edgeMap InterLinksBuilder.connectedIndices InterLinksBuilder.edgeCount InterLinksBuilder.mapAB InterLinksBuilder.mapBA InterLinksBuilder.bondedA InterLinksBuilder.bondedB].
  destruct (fold_UniqueArray_add (λ e : Edge, e.1.1) edges _ uniqueInv_create) as [[_ HnA] HA].
  destruct (fold_UniqueArray_add (λ e : Edge, e.1.2) edges _ uniqueInv_create) as [[_ HnB] HB].
  assert (HA' : ∀ a, a ∈ InterLinksBuilder.array (fold_left (λ u (e : Edge), InterLinksBuilder.UniqueArray_add u e.1.1 e.1.1)
                        edges InterLinksBuilder.UniqueArray_create) ↔ ∃ e : Edge, e ∈ edges ∧ e.1.1 = a).
  { intros a. rewrite HA. simpl. rewrite elem_of_nil. tauto. }
  assert (HB' : ∀ a, a ∈ InterLinksBuilder.array (fold_left (λ u (e : Edge), InterLinksBuilder.UniqueArray_add u e.1.2 e.1.2)
                        edges InterLinksBuilder.UniqueArray_create) ↔ ∃ e : Edge, e ∈ edges ∧ e.1.2 = a).
  { intros a. rewrite HB. simpl. rewrite elem_of_nil. tauto. }
  split; [|split; [|split; [done|split; [done|split; [|split; [|split]]]]]].
  - intros a b type.
    rewrite (fold_addMapEntry_elem (λ e : Edge, e.1.1)
               (λ e : Edge, {| InterLinksBuilder.indexB := e.1.2; InterLinksBuilder.type := e.2 |})).
    split.
    + intros ([[a' b'] t'] & He & Hk & Hv). simpl in *. by injection Hv as -> ->; subst.
    + intros He. by exists (a, b, type).
  - intros a b type.
    rewrite (fold_addMapEntry_elem (λ e : Edge, e.1.2)
               (λ e : Edge, {| InterLinksBuilder.indexB := e.1.1; InterLinksBuilder.type := e.2 |})).
    split.
    + intros ([[a' b'] t'] & He & Hk & Hv). simpl in *. by injection Hv as -> ->; subst.
    + intros He. by exists (a, b, type).
  - intros a. rewrite HA'.
    by rewrite (fold_addMapEntry_is_Some (λ e : Edge, e.1.1)
                  (λ e : Edge, {| InterLinksBuilder.indexB := e.1.2; InterLinksBuilder.type := e.2 |})).
  - intros b. rewrite HB'.
    by rewrite (fold_addMapEntry_is_Some (λ e : Edge, e.1.2)
                  (λ e : Edge, {| InterLinksBuilder.indexB := e.1.1; InterLinksBuilder.type := e.2 |})).
  - erewrite list_fmap_ext; [apply (sum_list_filter_lengths (λ e : Edge, e.1.1)); [done|]|].
    + intros e He. apply HA'. by exists e.
    + intros i a _. 
      apply (fold_addMapEntry_length (λ e : Edge, e.1.1)
               (λ e : Edge, {| InterLinksBuilder.indexB := e.1.2; InterLinksBuilder.type := e.2 |})).
  - erewrite list_fmap_ext; [apply (sum_list_filter_lengths (λ e : Edge, e.1.2)); [done|]|].
    + intros e He. apply HB'. by exists e.
    + intros i a _. 
      apply (fold_addMapEntry_length (λ e : Edge, e.1.2)
               (λ e : Edge, {| InterLinksBuilder.indexB := e.1.1; InterLinksBuilder.type := e.2 |})).
Qed.

Lemma interLinks_run_started (calls : list InterLinksBuilder.Call) (b : InterLinksBuilder.t) :
  InterLinksBuilder.units b ≠ None → ∃ b', InterLinksBuilder.run calls b = Ok b' ∧ InterLinksBuilder.units b' ≠ None.
Proof.
  revert b. induction calls as [|c calls IH]; intros b Hu; [by exists b|].
  simpl. destruct c as [uA uB|i j type|]; simpl.
  - by apply IH.
  - unfold InterLinksBuilder.add. destruct (InterLinksBuilder.units b) as [u|] eqn:Hb; [|done]. by apply IH.
  - unfold InterLinksBuilder.finishUnitPair. destruct (InterLinksBuilder.units b) as [[uA uB]|] eqn:Hb; [|done].
    destruct (Nat.eqb _ _); apply IH; simpl; by rewrite ?Hb.
Qed.

(** A sequence of builder calls throws exactly when it starts with [add] or
    [finishUnitPair]: once a unit pair was started no call throws. *)
Theorem interLinksBuilder_throws_iff (calls : list InterLinksBuilder.Call) :
  (∃ message, InterLinksBuilder.run calls InterLinksBuilder.create = Throw message) ↔
  match calls with
  | InterLinksBuilder.Add _ _ _ :: _ | InterLinksBuilder.FinishUnitPair :: _ => True
  | _ => False
  end.
Proof.
  destruct calls as [|[uA uB|i j type|] calls].
  - split; [by intros [? ?]|done].
  - split; [|done]. intros [message Hrun]. simpl in Hrun.
    destruct (interLinks_run_started calls (InterLinksBuilder.startUnitPair uA uB InterLinksBuilder.create)) as (b' & Hb' & _);
      [done|congruence].
  - split; [done|]. intros _. by exists "TypeError".
  - split; [done|]. intros _. by exists "TypeError".
Qed.

(** ** The inter-unit scan *)

Lemma addAll_app (es1 es2 : list Edge) (b : InterLinksBuilder.t) :
  InterLinksBuilder.addAll (es1 ++ es2) b = addAllTo (InterLinksBuilder.addAll es1 b) es2.
Proof.
  revert b. induction es1 as [|e es1 IH]; intros b; [done|].
  simpl. destruct (InterLinksBuilder.add _ _ _ b); [apply IH|done].
Qed.

Lemma addAllTo_app (es1 es2 : list Edge) (r : Result InterLinksBuilder.t) :
  addAllTo r (es1 ++ es2) = addAllTo (addAllTo r es1) es2.
Proof. destruct r as [b|]; [apply addAll_app|done]. Qed.

Lemma addAllTo_nil (r : Result InterLinksBuilder.t) : addAllTo r [] = r.
Proof. by destruct r. Qed.

Lemma fold_left_addAllTo {A} (f : Result InterLinksBuilder.t → A → Result InterLinksBuilder.t) (g : A → list Edge) :
  (∀ r a, f r a = addAllTo r (g a)) →
  ∀ l r, fold_left f l r = addAllTo r (l ≫= g).
Proof.
  intros Hf l. induction l as [|a l IH]; intros r; [by rewrite addAllTo_nil|].
  simpl. by rewrite IH, Hf, addAllTo_app.
Qed.

Lemma testPairInter_edges structure infoA infoB i j distanceSq builder tester :
  testPairInter structure infoA infoB i j distanceSq builder tester =
  addAllTo builder (pairEdges structure infoA infoB i j distanceSq tester).
Proof.
  unfold testPairInter, pairEdges. destruct builder as [b|]; [|done].
  destruct (Qltb _ _); [|done].
  destruct (getType _ _ _ _ _) as [type|]; [|done].
  destruct (InteractionType.truthy type); [|done].
  cbn [addAllTo InterLinksBuilder.addAll fst snd]. by destruct (InterLinksBuilder.add i j type b).
Qed.

Lemma scanNeighborInter_edges structure infoA infoB i testers builder found :
  scanNeighborInter structure infoA infoB i testers builder found =
  addAllTo builder (interNeighborEdges structure infoA infoB i testers found).
Proof.
  unfold scanNeighborInter, interNeighborEdges. destruct found as [j distanceSq]. simpl.
  apply fold_left_addAllTo. intros r tester. apply testPairInter_edges.
Qed.

Lemma scanFeatureInter_edges `{InterUnitGeometry} structure unitA unitB dataA lookup3d
    infoA infoB maxDistanceSq testers builder i :
  scanFeatureInter structure unitA unitB dataA lookup3d infoA infoB maxDistanceSq testers
    builder i =
  addAllTo builder (interFeatureEdges structure unitA unitB dataA lookup3d infoA infoB
                      maxDistanceSq testers i).
Proof.
  unfold scanFeatureInter, interFeatureEdges.
  destruct (beyondBoundary _ _ _); [by rewrite addAllTo_nil|].
  apply fold_left_addAllTo. intros r found. apply scanNeighborInter_edges.
Qed.

(** The inter-unit scan is one unit pair on the builder. *)
Lemma addStructureLinks_calls `{Collaborators} `{InterUnitGeometry} structure unitA featuresA
    unitB featuresB builder testers infoA infoB :
  Features.Info_of structure unitA featuresA = Ok infoA →
  Features.Info_of structure unitB featuresB = Ok infoB →
  (addStructureLinks structure unitA featuresA unitB featuresB builder testers).2 =
  InterLinksBuilder.run (unitPairCalls unitA unitB
             (interLinkEdges structure unitA unitB (Features.data featuresA)
                (Features.lookup3d featuresB).1 infoA infoB testers)) builder.
Proof.
  intros HA HB. unfold addStructureLinks.
  destruct (Features.lookup3d featuresB) as [lookup3d featuresB'] eqn:Hl.
  cbn [snd fst]. rewrite HA.
  assert (HB' : Features.Info_of structure unitB featuresB' = Ok infoB).
  { rewrite <- HB. replace featuresB' with (Features.lookup3d featuresB).2 by by rewrite Hl.
    apply Info_of_lookup3d. }
  rewrite HB'.
  rewrite (fold_left_addAllTo _
             (interFeatureEdges structure unitA unitB (Features.data featuresA) lookup3d
                infoA infoB (Math_max (map maxDistanceSq testers)) testers)
             (λ r i, scanFeatureInter_edges _ _ _ _ _ _ _ _ _ r i)).
  unfold unitPairCalls. cbn [InterLinksBuilder.run InterLinksBuilder.call]. rewrite interLinks_run_app, interLinks_run_adds.
  unfold addAllTo, interLinkEdges. destruct (InterLinksBuilder.addAll _ _) as [b'|]; [|done].
  cbn [InterLinksBuilder.run InterLinksBuilder.call]. by destruct (InterLinksBuilder.finishUnitPair b').
Qed.

Lemma elem_of_interLinkEdges `{InterUnitGeometry} structure unitA unitB dataA lookup3d
    infoA infoB testers (i j : nat) (type : InteractionType.t) :
  (i, j, type) ∈ interLinkEdges structure unitA unitB dataA lookup3d infoA infoB testers ↔
  i < Features.count dataA ∧
  beyondBoundary lookup3d (Math_max (map maxDistanceSq testers)) (imageOf unitA unitB dataA i)
    = false ∧
  ∃ distanceSq tester,
    (j, distanceSq) ∈ lookup3d (imageOf unitA unitB dataA i).1.1
                        (imageOf unitA unitB dataA i).1.2 (imageOf unitA unitB dataA i).2
                        (Some MAX_DISTANCE) ∧
    tester ∈ testers ∧
    (distanceSq < maxDistanceSq tester)%Q ∧
    getType tester structure (Features.setFeature infoA i) (Features.setFeature infoB j)
      distanceSq = Some type ∧
    InteractionType.truthy type = true.
Proof.
  unfold interLinkEdges, interFeatureEdges. split.
  - intros (i' & He & Hi)%list_elem_of_bind. apply elem_of_seq in Hi.
    destruct (beyondBoundary _ _ _) eqn:Hb; [by apply elem_of_nil in He|].
    apply list_elem_of_bind in He as ([j' d] & He & Hfound).
    apply list_elem_of_bind in He as (tester & He & Htester).
    apply elem_of_pairEdges in He as (Hd & type' & Hty & Htruthy & Heq).
    simpl in *. injection Heq as -> -> ->.
    split; [lia|]. split; [done|]. exists d, tester.
    split; [done|]. split; [done|]. split; [by apply Qltb_true|]. done.
  - intros (Hi & Hb & d & tester & Hfound & Htester & Hd & Hty & Htruthy).
    apply list_elem_of_bind. exists i. split; [|apply elem_of_seq; lia].
    rewrite Hb. apply list_elem_of_bind. exists (j, d). split; [|done].
    apply list_elem_of_bind. exists tester. split; [|done].
    apply elem_of_pairEdges. simpl. split; [by apply Qltb_true|]. by exists type.
Qed.

(** With the valence models of both units, [addStructureLinks] returns; the
    links of the builder change as by one unit pair with the edges it
    records, and it records [(i, j, type)] exactly when feature [i] of unit A
    is not beyond the boundary of unit B's lookup, the lookup returns [j] for
    the image of [i] and the radius [MAX_DISTANCE], and a tester whose cutoff
    exceeds the returned squared distance answers the truthy [type]; [j] is
    not compared with [i]. *)
Theorem addStructureLinks_records `{Collaborators} `{InterUnitGeometry} (structure : Structure)
    (unitA : Unit.t) (featuresA : Features.t) (unitB : Unit.t) (featuresB : Features.t)
    (builder : InterLinksBuilder.t) (testers : list LinkTester) (infoA infoB : Features.Info) :
  let dataA := Features.data featuresA in
  let lookup3d := (Features.lookup3d featuresB).1 in
  let outcome :=
    (addStructureLinks structure unitA featuresA unitB featuresB builder testers).2 in
  InterLinksBuilder.wf builder →
  Features.Info_of structure unitA featuresA = Ok infoA →
  Features.Info_of structure unitB featuresB = Ok infoB →
  ∃ after edges,
    outcome = Ok after ∧
    InterLinksBuilder.wf after ∧
    InterLinksBuilder.getLinks after =
      match edges with
      | [] => InterLinksBuilder.getLinks builder
      | _ => InterLinksBuilder.addMapEntry
               (InterLinksBuilder.addMapEntry (InterLinksBuilder.getLinks builder) (Unit.id unitA)
                  (InterLinksBuilder.pairAB unitA unitB edges))
               (Unit.id unitB) (InterLinksBuilder.pairBA unitA unitB edges)
      end ∧
    ∀ i j type,
      (i, j, type) ∈ edges ↔
      i < Features.count dataA ∧
      beyondBoundary lookup3d (Math_max (map maxDistanceSq testers))
        (imageOf unitA unitB dataA i) = false ∧
      ∃ distanceSq tester,
        (j, distanceSq) ∈ lookup3d (imageOf unitA unitB dataA i).1.1
                            (imageOf unitA unitB dataA i).1.2 (imageOf unitA unitB dataA i).2
                            (Some MAX_DISTANCE) ∧
        tester ∈ testers ∧
        (distanceSq < maxDistanceSq tester)%Q ∧
        getType tester structure (Features.setFeature infoA i) (Features.setFeature infoB j)
          distanceSq = Some type ∧
        InteractionType.truthy type = true.
Proof.
  intros dataA lookup3d outcome Hwf HA HB. subst outcome.
  rewrite (addStructureLinks_calls _ _ _ _ _ _ _ _ _ HA HB).
  destruct (unitPairCalls_links builder unitA unitB
              (interLinkEdges structure unitA unitB dataA lookup3d infoA infoB testers) Hwf)
    as (after & Hrun & Hwf' & Hlinks).
  exists after, (interLinkEdges structure unitA unitB dataA lookup3d infoA infoB testers).
  split; [done|]. split; [done|]. split; [done|].
  intros i j type. apply elem_of_interLinkEdges.
Qed.

(** The two units of the sample, scanned into a new builder. *)
Lemma addStructureLinks_records_sample :
  InterLinksBuilder.wf InterLinksBuilder.create ∧
  ∃ after,
    (@addStructureLinks Sample.wideAcceptor SamplePair.geometry SamplePair.structure
       Sample.unit (@SamplePair.featuresA Sample.wideAcceptor)
       SamplePair.unitB (@SamplePair.featuresB Sample.wideAcceptor)
       InterLinksBuilder.create [@createTester Sample.wideAcceptor Sample.props]).2 = Ok after ∧
    InterLinksBuilder.wf after.
Proof.
  split; [apply wf_create|].
  destruct (@addStructureLinks_records Sample.wideAcceptor SamplePair.geometry
              SamplePair.structure
              Sample.unit (@SamplePair.featuresA Sample.wideAcceptor)
              SamplePair.unitB (@SamplePair.featuresB Sample.wideAcceptor)
              InterLinksBuilder.create [@createTester Sample.wideAcceptor Sample.props] _ _
              wf_create eq_refl eq_refl) as (after & edges & Hout & Hwf & _).
  by exists after.
Defined.

(** [addStructureLinks] throws "valence model required" exactly when the
    structure has no valence model, or none for one of the two units; it
    throws nothing else: the builder is started before the first [add]. *)
Theorem addStructureLinks_throws_iff `{Collaborators} `{InterUnitGeometry}
    (structure : Structure) (unitA : Unit.t) (featuresA : Features.t) (unitB : Unit.t)
    (featuresB : Features.t) (builder : InterLinksBuilder.t) (testers : list LinkTester) :
  let outcome :=
    (addStructureLinks structure unitA featuresA unitB featuresB builder testers).2 in
  (outcome = Throw "valence model required" ↔
   valenceModel structure = None ∨
   ∃ models, valenceModel structure = Some models ∧
             (models !! Unit.id unitA = None ∨ models !! Unit.id unitB = None)) ∧
  (∀ message, outcome = Throw message → message = "valence model required").
Proof.
  intros outcome.
  destruct (Features.Info_of structure unitA featuresA) as [infoA|mA] eqn:HA;
    destruct (Features.Info_of structure unitB featuresB) as [infoB|mB] eqn:HB.
  - assert (Hok : ∃ after, outcome = Ok after).
    { unfold outcome. rewrite (addStructureLinks_calls _ _ _ _ _ _ _ _ _ HA HB).
      rewrite unitPairCalls_run. by eexists. }
    destruct Hok as [after Hok]. rewrite Hok.
    unfold Features.Info_of in HA, HB.
    destruct (valenceModel structure) as [models|]; [|done].
    destruct (models !! Unit.id unitA) eqn:HmA; [|done].
    destruct (models !! Unit.id unitB) eqn:HmB; [|done].
    split; [|done]. split; [done|].
    intros [?|(models' & [= <-] & [?|?])]; congruence.
  - assert (Hthrow : outcome = Throw "valence model required" ∧
                     ∃ models, valenceModel structure = Some models ∧
                               models !! Unit.id unitB = None).
    { unfold outcome, addStructureLinks.
      destruct (Features.lookup3d featuresB) as [lookup3d featuresB'] eqn:Hl.
      assert (HB' : Features.Info_of structure unitB featuresB' = Throw mB).
      { rewrite <- HB. replace featuresB' with (Features.lookup3d featuresB).2 by by rewrite Hl.
        apply Info_of_lookup3d. }
      cbn [snd]. rewrite HA, HB'.
      unfold Features.Info_of in HA, HB.
      destruct (valenceModel structure) as [models|]; [|done].
      destruct (models !! Unit.id unitB) eqn:HmB; [done|].
      injection HB as <-. split; [done|]. by exists models. }
    destruct Hthrow as [-> (models & Hm & HmB)].
    split; [|by intros ? [= <-]]. split; [|done].
    intros _. right. exists models. split; [done|by right].
  - assert (Hthrow : outcome = Throw "valence model required" ∧
                     (valenceModel structure = None ∨
                      ∃ models, valenceModel structure = Some models ∧
                                models !! Unit.id unitA = None)).
    { unfold outcome, addStructureLinks.
      destruct (Features.lookup3d featuresB) as [lookup3d featuresB'] eqn:Hl.
      cbn [snd]. rewrite HA.
      unfold Features.Info_of in HA.
      destruct (valenceModel structure) as [models|]; [|injection HA as <-; auto].
      destruct (models !! Unit.id unitA) eqn:HmA; [done|].
      injection HA as <-. split; [done|]. right. by exists models. }
    destruct Hthrow as [-> Hwhy].
    split; [|by intros ? [= <-]]. split; [|done].
    intros _. destruct Hwhy as [?|(models & Hm & HmA)]; [by left|].
    right. exists models. split; [done|by left].
  - assert (Hthrow : outcome = Throw "valence model required" ∧
                     (valenceModel structure = None ∨
                      ∃ models, valenceModel structure = Some models ∧
                                models !! Unit.id unitA = None)).
    { unfold outcome, addStructureLinks.
      destruct (Features.lookup3d featuresB) as [lookup3d featuresB'] eqn:Hl.
      cbn [snd]. rewrite HA.
      unfold Features.Info_of in HA.
      destruct (valenceModel structure) as [models|]; [|injection HA as <-; auto].
      destruct (models !! Unit.id unitA) eqn:HmA; [done|].
      injection HA as <-. split; [done|]. right. by exists models. }
    destruct Hthrow as [-> Hwhy].
    split; [|by intros ? [= <-]]. split; [|done].
    intros _. destruct Hwhy as [?|(models & Hm & HmA)]; [by left|].
    right. exists models. split; [done|by left].
Qed.
